(** * naylence-create: template discovery, flavor selection, project generation

    A shallow embedding of the TypeScript sources [utils.ts],
    [flavor-selection.ts], [templates.ts] and [generator.ts], and the
    properties of their specification settled against it.

    Conventions of the embedding.
    - A JavaScript string is a [string]: a sequence of 8-bit code units,
      read as the Latin-1 range of JavaScript's UTF-16 code units.
    - A thrown exception is a [Throw] result carrying the [Error]; code
      that touches the filesystem is a state transformer over the tree.
    - A filesystem path is the list of the names [path.resolve] would leave:
      absolute and normalised.  There are no symbolic links.
    - A file holds the text that [readFile] with "utf-8" gives and
      [writeFile] takes; bytes that are no UTF-8, which a read would
      replace, are not represented.  A file has a mode: it can be read or
      not, and written or not.  Directories can be listed, searched and
      written, and the process is not privileged, so that the modes of
      the files count.
    - A number is a double as [JSON.parse] gives it: a rational or an
      infinity. *)

From Stdlib Require Import String Ascii List Bool Arith Lia ZArith QArith.
From Stdlib Require Import DecimalString Permutation Sorted.
From Stdlib Require OrderedTypeEx.
Import ListNotations.
Close Scope Q_scope.
Open Scope string_scope.
Open Scope bool_scope.
Set Warnings "-register-all".

(* ================================================================= *)
(** * Part I: the embedding *)
(* ================================================================= *)

(** ** JavaScript strings *)

Definition charCode (c : ascii) : nat := nat_of_ascii c.

Definition in_range (lo hi : nat) (c : ascii) : bool :=
  Nat.leb lo (charCode c) && Nat.leb (charCode c) hi.

(** [a-z], [A-Z], [0-9] *)
Definition is_lower (c : ascii) : bool := in_range 97 122 c.
Definition is_upper (c : ascii) : bool := in_range 65 90 c.
Definition is_digit (c : ascii) : bool := in_range 48 57 c.

Definition LF : ascii := ascii_of_nat 10.
Definition CR : ascii := ascii_of_nat 13.
Definition nl : string := String LF "".

(** The class [\s] of a regular expression, which is also the set that
    [String.prototype.trim] removes: TAB, LF, VT, FF, CR, SPACE, NBSP. *)
Definition is_space (c : ascii) : bool :=
  in_range 9 13 c || Nat.eqb (charCode c) 32 || Nat.eqb (charCode c) 160.

(** [String.prototype.toLowerCase], one code unit at a time: A-Z and the
    Latin-1 capitals U+00C0..U+00DE (U+00D7, the multiplication sign, is
    not a letter). *)
Definition lower_char (c : ascii) : ascii :=
  if is_upper c
     || (in_range 192 222 c && negb (Nat.eqb (charCode c) 215))
  then ascii_of_nat (charCode c + 32)
  else c.

Fixpoint map_str (f : ascii -> ascii) (s : string) : string :=
  match s with
  | "" => ""
  | String c r => String (f c) (map_str f r)
  end.

Fixpoint filter_str (keep : ascii -> bool) (s : string) : string :=
  match s with
  | "" => ""
  | String c r => if keep c then String c (filter_str keep r) else filter_str keep r
  end.

Definition toLowerCase (s : string) : string := map_str lower_char s.

Definition head_char (s : string) : option ascii :=
  match s with
  | "" => None
  | String c _ => Some c
  end.

Fixpoint last_char (s : string) : option ascii :=
  match s with
  | "" => None
  | String c "" => Some c
  | String _ r => last_char r
  end.

Definition starts_in (cls : ascii -> bool) (s : string) : bool :=
  match s with
  | "" => false
  | String c _ => cls c
  end.

(** [s.replace(/[cls]+/g, d)]: every maximal run of characters of the
    class becomes the single character [d].  The character is emitted at
    the last position of the run. *)
Fixpoint squeeze (cls : ascii -> bool) (d : ascii) (s : string) : string :=
  match s with
  | "" => ""
  | String c r =>
      if cls c
      then if starts_in cls r then squeeze cls d r else String d (squeeze cls d r)
      else String c (squeeze cls d r)
  end.

(** [s.replace(/^[^ok]/, "")]: there is no [+] and no [g] flag, so at most
    the one character at index 0 goes. *)
Definition drop_first_unless (ok : ascii -> bool) (s : string) : string :=
  match s with
  | "" => ""
  | String c r => if ok c then s else r
  end.

(** [s.replace(/d$/, "")] *)
Fixpoint drop_last_if (d : ascii) (s : string) : string :=
  match s with
  | "" => ""
  | String c "" => if Ascii.eqb c d then "" else s
  | String c r => String c (drop_last_if d r)
  end.

(** [s.replace(/^d|d$/g, "")]: one leading [d] and one trailing [d]; a
    character matched by the first alternative is consumed and cannot be
    matched again by the second. *)
Definition strip_edges (d : ascii) (s : string) : string :=
  match s with
  | "" => ""
  | String c r => if Ascii.eqb c d then drop_last_if d r else drop_last_if d s
  end.

(** [s.startsWith(p)], [s.endsWith(p)], [s.includes(t)] *)
Definition startsWith (s p : string) : bool := prefix p s.

Fixpoint includes (s t : string) : bool :=
  if prefix t s then true
  else match s with
       | "" => false
       | String _ r => includes r t
       end.

Fixpoint drop (n : nat) (s : string) : string :=
  match n, s with
  | 0, _ => s
  | S _, "" => ""
  | S k, String _ r => drop k r
  end.

Definition endsWith (s p : string) : bool :=
  Nat.leb (String.length p) (String.length s)
  && String.eqb (drop (String.length s - String.length p) s) p.

(** [parts.join(sep)] *)
Fixpoint join (sep : string) (parts : list string) : string :=
  match parts with
  | [] => ""
  | [x] => x
  | x :: rest => x ++ sep ++ join sep rest
  end.

(** [s.trim()] *)
Fixpoint trimStart (s : string) : string :=
  match s with
  | "" => ""
  | String c r => if is_space c then trimStart r else s
  end.

Fixpoint trimEnd (s : string) : string :=
  match s with
  | "" => ""
  | String c r =>
      match trimEnd r with
      | "" => if is_space c then "" else String c ""
      | t => String c t
      end
  end.

Definition trim (s : string) : string := trimEnd (trimStart s).

(** [s.split(/\r?\n/)].  A CR directly before an LF belongs to the
    separator; any other CR is an ordinary character of its line. *)
Fixpoint split_lines (s : string) : list string :=
  match s with
  | "" => [""]
  | String c r =>
      if Ascii.eqb c LF then "" :: split_lines r
      else
        match r with
        | String c' r' =>
            if Ascii.eqb c CR && Ascii.eqb c' LF then "" :: split_lines r'
            else
              match split_lines r with
              | l :: ls => String c l :: ls
              | [] => [String c ""]
              end
        | "" => [String c ""]
        end
  end.

(** The replacement template of [String.prototype.replaceAll]
    (GetSubstitution): [$$] is a dollar sign, [$&] the matched text, [$`]
    the text before the match and [$'] the text after it.  A string
    pattern has no capture groups, so [$1], [$<name>] and a lone [$] stay
    as they are. *)
Fixpoint GetSubstitution (template matched before after : string) : string :=
  match template with
  | "" => ""
  | String c t =>
      if Ascii.eqb c "$" then
        match t with
        | String c' t' =>
            if Ascii.eqb c' "$" then String "$" (GetSubstitution t' matched before after)
            else if Ascii.eqb c' "&" then matched ++ GetSubstitution t' matched before after
            else if Ascii.eqb c' "`" then before ++ GetSubstitution t' matched before after
            else if Ascii.eqb c' "'" then after ++ GetSubstitution t' matched before after
            else String c (GetSubstitution t matched before after)
        | "" => String c ""
        end
      else String c (GetSubstitution t matched before after)
  end.

(** StringIndexOf, as the split of [s] around the first occurrence of a
    pattern: [Some (u, r)] when [s = u ++ pat ++ r] and [pat] does not
    occur earlier. *)
Fixpoint find_first (pat s : string) : option (string * string) :=
  if prefix pat s then Some ("", drop (String.length pat) s)
  else match s with
       | "" => None
       | String c r =>
           match find_first pat r with
           | Some (u, rest) => Some (String c u, rest)
           | None => None
           end
       end.

(** The loop of [replaceAll] for a non-empty pattern: matches are taken
    left to right and do not overlap; [before] is the text to the left of
    the part still to be scanned. *)
Fixpoint replaceAll_from (fuel : nat) (pat v before s : string) : string :=
  match fuel with
  | 0 => s
  | S fuel' =>
      match find_first pat s with
      | None => s
      | Some (u, rest) =>
          u ++ GetSubstitution v pat (before ++ u) rest
            ++ replaceAll_from fuel' pat v (before ++ u ++ pat) rest
      end
  end.

(** For the empty pattern [replaceAll] matches at every index, the end
    included. *)
Fixpoint replaceAll_empty (v before s : string) : string :=
  GetSubstitution v "" before s ++
  match s with
  | "" => ""
  | String c r => String c (replaceAll_empty v (before ++ String c "") r)
  end.

Definition replaceAll (s pat v : string) : string :=
  match pat with
  | "" => replaceAll_empty v "" s
  | _ => replaceAll_from (String.length s) pat v "" s
  end.

Definition string_of_nat (n : nat) : string :=
  NilEmpty.string_of_uint (Nat.to_uint n).

(** ** utils.ts *)

(** [/[^a-z0-9-@/]/]: the characters that survive *)
Definition pkg_char (c : ascii) : bool :=
  is_lower c || is_digit c || Ascii.eqb c "-" || Ascii.eqb c "@" || Ascii.eqb c "/".

(** [/[^a-z0-9_]/]: the characters that survive *)
Definition py_char (c : ascii) : bool :=
  is_lower c || is_digit c || Ascii.eqb c "_".

Definition underscore_to_hyphen (c : ascii) : ascii :=
  if Ascii.eqb c "_" then "-"%char else c.

Definition hyphen_to_underscore (c : ascii) : ascii :=
  if Ascii.eqb c "-" then "_"%char else c.

Definition toPackageName (name : string) : string :=
  let s := toLowerCase name in
  let s := squeeze is_space "-" s in              (* .replace(/\s+/g, "-") *)
  let s := map_str underscore_to_hyphen s in      (* .replace(/_/g, "-") *)
  let s := filter_str pkg_char s in               (* .replace(/[^a-z0-9-@/]/g, "") *)
  let s := drop_first_unless (fun c => is_lower c || Ascii.eqb c "@") s in
                                                  (* .replace(/^[^a-z@]/, "") *)
  let s := squeeze (Ascii.eqb "-") "-" s in       (* .replace(/-+/g, "-") *)
  strip_edges "-" s.                              (* .replace(/^-|-$/g, "") *)

Definition toPythonPackage (name : string) : string :=
  let s := toLowerCase name in
  let s := squeeze is_space "_" s in              (* .replace(/\s+/g, "_") *)
  let s := map_str hyphen_to_underscore s in      (* .replace(/-/g, "_") *)
  let s := filter_str py_char s in                (* .replace(/[^a-z0-9_]/g, "") *)
  let s := drop_first_unless is_lower s in        (* .replace(/^[^a-z]/, "") *)
  let s := squeeze (Ascii.eqb "_") "_" s in       (* .replace(/_+/g, "_") *)
  strip_edges "_" s.                              (* .replace(/^_|_$/g, "") *)

(** ** Exceptions *)

(** The [code] property of the errors Node's [fs] functions raise. *)
Inductive errno : Type := ENOENT | ENOTDIR | EISDIR | EACCES | EEXIST.

(** A JavaScript [Error]: its message and, for a filesystem error, its
    code. *)
Record Error : Type := mkError {
  message : string;
  code : option errno
}.

Inductive result (A : Type) : Type :=
| Ok (a : A)
| Throw (e : Error).

Arguments Ok {A} a.
Arguments Throw {A} e.

(** [new Error(msg)] *)
Definition new_Error (msg : string) : Error := mkError msg None.

(** The double quote, which the messages of the source contain. *)
Definition dq : string := String (ascii_of_nat 34) "".

(** JavaScript truthiness of a string: only the empty string is falsy. *)
Definition truthy (s : string) : bool := negb (String.eqb s "").

(** [a || b] on strings *)
Definition or_else (a b : string) : string := if truthy a then a else b.

(** [xs.includes(x)] on an array of strings *)
Definition array_includes (xs : list string) (x : string) : bool :=
  existsb (String.eqb x) xs.

(** ** types.ts *)

Definition fspath : Type := list string.

(** A number of JavaScript as [JSON.parse] can give one: a double, which
    is a rational, or an infinity where the literal overflows ([1e999]).
    [JSON.parse] gives no NaN, and [-0] is [0] for every comparison made
    here. *)
Inductive number : Type :=
| NegInfinity
| Finite (q : Q)
| PosInfinity.

Record TemplateInfo : Type := mkTemplateInfo {
  id : string;
  name : option string;
  description : option string;
  flavors : list string;
  flavorPaths : option (list (string * string));
  path : fspath;
  order : option number;
  category : option string;
  aliases : option (list string);
  hidden : option bool;
  deprecated : option bool
}.

Record TemplateManifestFlavor : Type := mkFlavor {
  flavor_id : string;
  flavor_path : option string
}.

Record TemplateManifestEntry : Type := mkEntry {
  entry_id : string;
  entry_name : string;
  entry_description : string;
  entry_flavors : list TemplateManifestFlavor;
  entry_order : option number;
  entry_category : option string;
  entry_aliases : option (list string);
  entry_hidden : option bool;
  entry_deprecated : option bool
}.

Record TemplateManifest : Type := mkManifest {
  version : option number;
  templates : list TemplateManifestEntry
}.

Record GeneratorOptions : Type := mkGeneratorOptions {
  targetDir : fspath;
  templateId : string;
  flavor : string;
  projectName : string;
  startersPath : fspath;
  install : bool
}.

Definition TEMPLATES_DIR : string := "templates".

Definition BINARY_EXTENSIONS : list string :=
  [".png"; ".jpg"; ".jpeg"; ".gif"; ".ico"; ".webp"; ".svg";
   ".woff"; ".woff2"; ".ttf"; ".eot"; ".otf";
   ".zip"; ".tar"; ".gz"; ".bz2"; ".7z"; ".rar"; ".pdf";
   ".exe"; ".dll"; ".so"; ".dylib"; ".node"; ".wasm"].

Definition PROJECT_NAME : string := "__PROJECT_NAME__".
Definition PACKAGE_NAME : string := "__PACKAGE_NAME__".
Definition PY_PACKAGE : string := "__PY_PACKAGE__".

(** ** flavor-selection.ts *)

Inductive FlavorSelectionReason : Type := Cli | Default | Only | Prompt.

Definition reason_string (r : FlavorSelectionReason) : string :=
  match r with
  | Cli => "cli"
  | Default => "default"
  | Only => "only"
  | Prompt => "prompt"
  end.

Record FlavorSelectionResult : Type := mkSelection {
  sel_flavor : string;
  sel_reason : FlavorSelectionReason
}.

(** The prompt callback resolves to a flavor or to [null]. *)
Record FlavorSelectionOptions : Type := mkSelectionOptions {
  cliFlavor : option string;
  defaultFlavor : string;
  prompt : option (TemplateInfo -> option string)
}.

Definition flavor_not_found_cli (requested : string) (template : TemplateInfo) : string :=
  "Flavor " ++ dq ++ requested ++ dq ++ " not found for template "
    ++ dq ++ id template ++ dq ++ ". "
    ++ "Available flavors: " ++ join ", " (flavors template) ++ "." ++ nl
    ++ "Run with --list to see available templates.".

Definition flavor_not_found_prompt (selected : string) (template : TemplateInfo) : string :=
  "Flavor " ++ dq ++ selected ++ dq ++ " not found for template "
    ++ dq ++ id template ++ dq ++ ". "
    ++ "Available flavors: " ++ join ", " (flavors template) ++ ".".

Definition selection_required (template : TemplateInfo) : string :=
  "Flavor selection required for template " ++ dq ++ id template ++ dq.

(** The statements of [selectFlavor] below its [if (cliFlavor)] block.
    The second component is the log of the calls made to the prompt
    callback, each with the argument it received. *)
Definition select_without_cli (template : TemplateInfo) (options : FlavorSelectionOptions)
  : result FlavorSelectionResult * list TemplateInfo :=
  let fl := flavors template in
  if array_includes fl (defaultFlavor options)
  then (Ok (mkSelection (defaultFlavor options) Default), [])
  else
    match fl with
    | [only_flavor] => (Ok (mkSelection only_flavor Only), [])
    | _ =>
        match prompt options with
        | None => (Throw (new_Error (selection_required template)), [])
        | Some ask =>
            match ask template with
            | None => (Throw (new_Error "Flavor selection cancelled"), [template])
            | Some selectedFlavor =>
                if negb (truthy selectedFlavor)
                then (Throw (new_Error "Flavor selection cancelled"), [template])
                else if negb (array_includes fl selectedFlavor)
                then (Throw (new_Error (flavor_not_found_prompt selectedFlavor template)),
                      [template])
                else (Ok (mkSelection selectedFlavor Prompt), [template])
            end
        end
    end.

Definition selectFlavor (template : TemplateInfo) (options : FlavorSelectionOptions)
  : result FlavorSelectionResult * list TemplateInfo :=
  let fl := flavors template in
  match fl with
  | [] => (Throw (new_Error ("Template entry missing flavors for " ++ id template)), [])
  | _ :: _ =>
      match cliFlavor options with
      | Some requested =>
          (* [if (cliFlavor)]: an empty string is falsy *)
          if truthy requested then
            if negb (array_includes fl requested)
            then (Throw (new_Error (flavor_not_found_cli requested template)), [])
            else (Ok (mkSelection requested Cli), [])
          else select_without_cli template options
      | None => select_without_cli template options
      end
  end.

(** ** The filesystem *)

(** A regular file with its text, or a directory with its entries in the
    order [readdir] lists them.  A file that is not [readable] makes every
    read of it fail; a [Locked] file is one whose mode does not let it be
    written, so that every write to it fails. *)
Inductive node : Type :=
| File (readable : bool) (data : string)
| Locked (readable : bool) (data : string)
| Dir (entries : list (string * node)).

Definition is_dir (n : node) : bool :=
  match n with
  | Dir _ => true
  | File _ _ | Locked _ _ => false
  end.

Definition is_file (n : node) : bool := negb (is_dir n).

Fixpoint alookup {A : Type} (k : string) (l : list (string * A)) : option A :=
  match l with
  | [] => None
  | (k', v) :: r => if String.eqb k k' then Some v else alookup k r
  end.

(** Replace the entry of a name, or add it at the end. *)
Fixpoint aset {A : Type} (k : string) (v : A) (l : list (string * A)) : list (string * A) :=
  match l with
  | [] => [(k, v)]
  | (k', v') :: r => if String.eqb k k' then (k, v) :: r else (k', v') :: aset k v r
  end.

Inductive found : Type :=
| Found (n : node)
| Missing (e : errno).

(** Path resolution from the root. *)
Fixpoint resolve (p : fspath) (n : node) : found :=
  match p with
  | [] => Found n
  | s :: p' =>
      match n with
      | Dir es =>
          match alookup s es with
          | Some c => resolve p' c
          | None => Missing ENOENT
          end
      | File _ _ | Locked _ _ => Missing ENOTDIR
      end
  end.

(** Put a node at a path whose parent directory exists, replacing what is
    there. *)
Fixpoint put (p : fspath) (new : node) (n : node) : found :=
  match p with
  | [] => Found new
  | s :: p' =>
      match n with
      | Dir es =>
          match alookup s es, p' with
          | Some c, _ =>
              match put p' new c with
              | Found c' => Found (Dir (aset s c' es))
              | Missing e => Missing e
              end
          | None, [] => Found (Dir (aset s new es))
          | None, _ :: _ => Missing ENOENT
          end
      | File _ _ | Locked _ _ => Missing ENOTDIR
      end
  end.

(** [fse.mkdirs]: create a directory and the ancestors it lacks. *)
Fixpoint mkdirp (p : fspath) (n : node) : found :=
  match p with
  | [] => if is_dir n then Found n else Missing EEXIST
  | s :: p' =>
      match n with
      | Dir es =>
          let c := match alookup s es with
                   | Some c => c
                   | None => Dir []
                   end in
          match mkdirp p' c with
          | Found c' => Found (Dir (aset s c' es))
          | Missing e => Missing e
          end
      | File _ _ | Locked _ _ => Missing ENOTDIR
      end
  end.

(** *** Paths *)

(** [s.split(sep)] for a one-character separator *)
Fixpoint split_on (sep : ascii) (s : string) : list string :=
  match s with
  | "" => [""]
  | String c r =>
      if Ascii.eqb c sep then "" :: split_on sep r
      else
        match split_on sep r with
        | l :: ls => String c l :: ls
        | [] => [String c ""]
        end
  end.

Definition path_step (p : fspath) (segment : string) : fspath :=
  if String.eqb segment "" || String.eqb segment "." then p
  else if String.eqb segment ".." then removelast p
  else (p ++ [segment])%list.

(** [path.join(base, rel)] for an absolute, normalised [base]: the
    segments of [rel] are applied one by one, [.] and empty segments
    dropped and [..] resolved lexically. *)
Definition path_join (base : fspath) (rel : string) : fspath :=
  fold_left path_step (split_on "/" rel) base.

(** [path.isAbsolute] *)
Definition isAbsolute (p : string) : bool := startsWith p "/".

(** The text of a path, as a message shows it. *)
Definition path_string (p : fspath) : string := "/" ++ join "/" p.

(** [path.extname]: the slashes at the end of the path are passed over,
    and the last name of the path is what stands before them, back to the
    slash before it.  The extension is that name from its last dot on,
    and empty when the name has no dot, when that dot is its first
    character, or when the name is [..]. *)
Fixpoint after_last_dot (s : string) : option string :=
  match s with
  | "" => None
  | String c r =>
      match after_last_dot r with
      | Some e => Some e
      | None => if Ascii.eqb c "." then Some r else None
      end
  end.

Definition last_part (p : string) : string :=
  last (filter (fun segment => negb (String.eqb segment "")) (split_on "/" p)) "".

Definition extname (p : string) : string :=
  let part := last_part p in
  match after_last_dot part with
  | None => ""
  | Some e =>
      if Nat.eqb (String.length e + 1) (String.length part) then ""
      else if String.eqb part ".." then ""
      else String "." e
  end.

(** [isBinaryFile] of utils.ts *)
Definition isBinaryFile (filename : string) (binaryExtensions : list string) : bool :=
  let ext := toLowerCase (extname filename) in
  array_includes binaryExtensions ext.

(** *** The [fs] functions *)

(** Code that changes the tree is a state transformer [M]; the reading
    functions take the tree and return a result. *)
Definition M (A : Type) : Type := node -> result A * node.

Definition ret {A : Type} (a : A) : M A := fun fs => (Ok a, fs).

Definition throw {A : Type} (e : Error) : M A := fun fs => (Throw e, fs).

Definition bind {A B : Type} (m : M A) (k : A -> M B) : M B :=
  fun fs =>
    match m fs with
    | (Ok a, fs') => k a fs'
    | (Throw e, fs') => (Throw e, fs')
    end.

(** A read: the tree stays as it is. *)
Definition read {A : Type} (r : node -> result A) : M A := fun fs => (r fs, fs).

(** [try { m } catch (e) { handler(e) }] *)
Definition try_catch {A : Type} (m : M A) (handler : Error -> M A) : M A :=
  fun fs =>
    match m fs with
    | (Ok a, fs') => (Ok a, fs')
    | (Throw e, fs') => handler e fs'
    end.

Declare Scope fs_scope.
Delimit Scope fs_scope with fs.
Notation "x <- m ;; k" := (bind m (fun x => k))
  (at level 61, m at next level, right associativity) : fs_scope.
Notation "m ;; k" := (bind m (fun _ => k))
  (at level 61, right associativity) : fs_scope.

(** Sequencing of results without state *)
Definition and_then {A B : Type} (r : result A) (k : A -> result B) : result B :=
  match r with
  | Ok a => k a
  | Throw e => Throw e
  end.

Definition errno_name (e : errno) : string :=
  match e with
  | ENOENT => "ENOENT: no such file or directory"
  | ENOTDIR => "ENOTDIR: not a directory"
  | EISDIR => "EISDIR: illegal operation on a directory"
  | EACCES => "EACCES: permission denied"
  | EEXIST => "EEXIST: file already exists"
  end.

Definition fs_error (e : errno) (syscall : string) (p : fspath) : Error :=
  mkError (errno_name e ++ ", " ++ syscall ++ " '" ++ path_string p ++ "'") (Some e).

Definition fs_stat (fs : node) (p : fspath) : result node :=
  match resolve p fs with
  | Found n => Ok n
  | Missing e => Throw (fs_error e "stat" p)
  end.

Definition fs_access (fs : node) (p : fspath) : result unit :=
  match resolve p fs with
  | Found _ => Ok tt
  | Missing e => Throw (fs_error e "access" p)
  end.

(** [fse.pathExists]: [fs.access] with both outcomes turned into a
    boolean. *)
Definition pathExists (fs : node) (p : fspath) : bool :=
  match fs_access fs p with
  | Ok _ => true
  | Throw _ => false
  end.

(** [fs.readFile(p, "utf-8")] *)
Definition fs_readFile (fs : node) (p : fspath) : result string :=
  match resolve p fs with
  | Found (File true data) | Found (Locked true data) => Ok data
  | Found (File false _) | Found (Locked false _) => Throw (fs_error EACCES "open" p)
  | Found (Dir _) => Throw (fs_error EISDIR "read" p)
  | Missing e => Throw (fs_error e "open" p)
  end.

(** [fs.readdir(p, { withFileTypes: true })]: the names with the nodes
    that carry their types. *)
Definition fs_readdir (fs : node) (p : fspath) : result (list (string * node)) :=
  match resolve p fs with
  | Found (Dir es) => Ok es
  | Found (File _ _) | Found (Locked _ _) => Throw (fs_error ENOTDIR "scandir" p)
  | Missing e => Throw (fs_error e "scandir" p)
  end.

(** [fs.writeFile(p, data, "utf-8")]: create the file or replace its
    content, which the mode of a file that exists must allow. *)
Definition fs_writeFile (p : fspath) (data : string) : M unit :=
  fun fs =>
    match resolve p fs with
    | Found (Dir _) => (Throw (fs_error EISDIR "open" p), fs)
    | Found (Locked _ _) => (Throw (fs_error EACCES "open" p), fs)
    | Found (File r _) =>
        match put p (File r data) fs with
        | Found fs' => (Ok tt, fs')
        | Missing e => (Throw (fs_error e "open" p), fs)
        end
    | Missing ENOENT =>
        match put p (File true data) fs with
        | Found fs' => (Ok tt, fs')
        | Missing e => (Throw (fs_error e "open" p), fs)
        end
    | Missing e => (Throw (fs_error e "open" p), fs)
    end.

(** Whether the mode of what is at a path lets it be written *)
Definition writable (fs : node) (p : fspath) : bool :=
  match resolve p fs with
  | Found (Locked _ _) => false
  | _ => true
  end.

(** The copy of a file that was read: its content, and its mode *)
Definition copy_of (fs : node) (src : fspath) (data : string) : node :=
  if writable fs src then File true data else Locked true data.

(** [fs.copyFile(src, dest)]: the copy has the content and the mode of the
    source; a file at the destination is written over, which its mode
    must allow. *)
Definition fs_copyFile (src dest : fspath) : M unit :=
  fun fs =>
    match fs_readFile fs src with
    | Ok data =>
        match resolve dest fs with
        | Found (Dir _) => (Throw (fs_error EISDIR "copyfile" dest), fs)
        | Found (Locked _ _) => (Throw (fs_error EACCES "copyfile" dest), fs)
        | Missing ENOTDIR => (Throw (fs_error ENOTDIR "copyfile" dest), fs)
        | _ =>
            match put dest (copy_of fs src data) fs with
            | Found fs' => (Ok tt, fs')
            | Missing e => (Throw (fs_error e "copyfile" dest), fs)
            end
        end
    | Throw e => (Throw e, fs)
    end.

(** fs-extra copies a file with [copyFile] after it has removed the file
    that is at the destination ([overwrite] is its default), so that the
    mode of that file does not count. *)
Definition fse_copyFile (src dest : fspath) : M unit :=
  fun fs =>
    match fs_readFile fs src, resolve dest fs with
    | Ok data, Found (Locked _ _) =>
        match put dest (copy_of fs src data) fs with
        | Found fs' => (Ok tt, fs')
        | Missing e => (Throw (fs_error e "copyfile" dest), fs)
        end
    | _, _ => fs_copyFile src dest fs
    end.

(** ** templates.ts *)

Definition MANIFEST_FILENAME : string := "manifest.json".

(** A parsed JSON value. *)
Inductive json : Type :=
| JNull
| JBool (b : bool)
| JNumber (n : number)
| JString (s : string)
| JArray (items : list json)
| JObject (fields : list (string * json)).

(** [!v || typeof v !== "object"] is false: an object or an array. *)
Definition is_object_value (v : json) : bool :=
  match v with
  | JArray _ | JObject _ => true
  | _ => false
  end.

(** The one number that is falsy *)
Definition is_zero (n : number) : bool :=
  match n with
  | Finite q => Qeq_bool q 0%Q
  | _ => false
  end.

(** [v.k]; a missing property is [undefined] *)
Definition prop (v : json) (k : string) : option json :=
  match v with
  | JObject fields => alookup k fields
  | _ => None
  end.

(** The optional fields of an entry, read at the types the interface
    [TemplateManifestEntryInput] declares for them.  The source passes
    them on as they are and looks at one of them only, [order], in
    [sortTemplates]; the embedding covers the manifests that keep to the
    interface, and reads a value of another type as absent. *)
Definition prop_number (v : json) (k : string) : option number :=
  match prop v k with
  | Some (JNumber n) => Some n
  | _ => None
  end.

Definition prop_string (v : json) (k : string) : option string :=
  match prop v k with
  | Some (JString s) => Some s
  | _ => None
  end.

Definition prop_bool (v : json) (k : string) : option bool :=
  match prop v k with
  | Some (JBool b) => Some b
  | _ => None
  end.

Definition json_string (v : json) : list string :=
  match v with
  | JString s => [s]
  | _ => []
  end.

Definition prop_strings (v : json) (k : string) : option (list string) :=
  match prop v k with
  | Some (JArray items) => Some (flat_map json_string items)
  | _ => None
  end.

(** [xs.map((x, index) => f(index, x))], stopping at the first exception *)
Fixpoint map_from {A B : Type} (index : nat) (f : nat -> A -> result B) (xs : list A)
  : result (list B) :=
  match xs with
  | [] => Ok []
  | x :: rest =>
      and_then (f index x) (fun y =>
      and_then (map_from (S index) f rest) (fun ys => Ok (y :: ys)))
  end.

Definition getManifestPath (startersPath : fspath) : fspath :=
  path_join (path_join startersPath TEMPLATES_DIR) MANIFEST_FILENAME.

Definition isNotFoundError (e : Error) : bool :=
  match code e with
  | Some ENOENT => true
  | _ => false
  end.

Definition isDirectory (fs : node) (targetPath : fspath) : bool :=
  match fs_stat fs targetPath with
  | Ok n => is_dir n
  | Throw _ => false
  end.

Definition normalizeManifestFlavor (flavor : json) (templateId : string)
  (flavorIndex : nat) (manifestPath : fspath) : result TemplateManifestFlavor :=
  match flavor with
  | JString s => Ok (mkFlavor s None)
  | _ =>
      if negb (is_object_value flavor) then
        Throw (new_Error ("Invalid flavor entry for " ++ templateId ++ " at index "
                            ++ string_of_nat flavorIndex ++ ": " ++ path_string manifestPath))
      else
        match prop flavor "id" with
        | Some (JString fid) =>
            if String.eqb (trim fid) "" then
              Throw (new_Error ("Flavor entry missing id for " ++ templateId ++ " at index "
                                  ++ string_of_nat flavorIndex ++ ": "
                                  ++ path_string manifestPath))
            else
              match prop flavor "path" with
              | Some (JString p) =>
                  if truthy p && isAbsolute p then
                    Throw (new_Error ("Flavor path must be relative for " ++ templateId
                                        ++ "/" ++ fid ++ ": " ++ path_string manifestPath))
                  else Ok (mkFlavor fid (Some p))
              | None | Some JNull | Some (JBool false) =>
                  (* falsy: [flavor.path && ...] stops here, and every later
                     use is [flavor.path || flavor.id] *)
                  Ok (mkFlavor fid None)
              | Some (JNumber n) =>
                  if is_zero n then Ok (mkFlavor fid None)
                  else Throw (new_Error ("The " ++ dq ++ "path" ++ dq
                                           ++ " argument must be of type string."))
              | Some _ =>
                  (* [path.isAbsolute] rejects an argument that is not a string *)
                  Throw (new_Error ("The " ++ dq ++ "path" ++ dq
                                      ++ " argument must be of type string."))
              end
        | _ =>
            Throw (new_Error ("Flavor entry missing id for " ++ templateId ++ " at index "
                                ++ string_of_nat flavorIndex ++ ": "
                                ++ path_string manifestPath))
        end
  end.

Definition normalizeManifestEntry (entry : json) (manifestPath : fspath) (index : nat)
  : result TemplateManifestEntry :=
  if negb (is_object_value entry) then
    Throw (new_Error ("Invalid template entry at index " ++ string_of_nat index ++ ": "
                        ++ path_string manifestPath))
  else
    match prop_string entry "id" with
    | None =>
        Throw (new_Error ("Template entry missing id at index " ++ string_of_nat index
                            ++ ": " ++ path_string manifestPath))
    | Some eid =>
        if String.eqb (trim eid) "" then
          Throw (new_Error ("Template entry missing id at index " ++ string_of_nat index
                              ++ ": " ++ path_string manifestPath))
        else
          match prop_string entry "name" with
          | None =>
              Throw (new_Error ("Template entry missing name for " ++ eid ++ ": "
                                  ++ path_string manifestPath))
          | Some ename =>
              if String.eqb (trim ename) "" then
                Throw (new_Error ("Template entry missing name for " ++ eid ++ ": "
                                    ++ path_string manifestPath))
              else
                match prop_string entry "description" with
                | None =>
                    Throw (new_Error ("Template entry missing description for " ++ eid
                                        ++ ": " ++ path_string manifestPath))
                | Some edesc =>
                    if String.eqb (trim edesc) "" then
                      Throw (new_Error ("Template entry missing description for " ++ eid
                                          ++ ": " ++ path_string manifestPath))
                    else
                      match prop entry "flavors" with
                      | Some (JArray (f :: fs)) =>
                          and_then
                            (map_from 0
                               (fun flavorIndex fl =>
                                  normalizeManifestFlavor fl eid flavorIndex manifestPath)
                               (f :: fs))
                            (fun normalizedFlavors =>
                               Ok (mkEntry eid ename edesc normalizedFlavors
                                     (prop_number entry "order")
                                     (prop_string entry "category")
                                     (prop_strings entry "aliases")
                                     (prop_bool entry "hidden")
                                     (prop_bool entry "deprecated")))
                      | _ =>
                          Throw (new_Error ("Template entry missing flavors for " ++ eid
                                              ++ ": " ++ path_string manifestPath))
                      end
                end
          end
    end.

Definition normalizeManifest (data : json) (manifestPath : fspath) : result TemplateManifest :=
  if negb (is_object_value data) then
    Throw (new_Error ("Manifest must be an object: " ++ path_string manifestPath))
  else
    match prop data "templates" with
    | Some (JArray items) =>
        and_then
          (map_from 0 (fun index entry => normalizeManifestEntry entry manifestPath index) items)
          (fun entries => Ok (mkManifest (prop_number data "version") entries))
    | _ =>
        Throw (new_Error ("Manifest must include a templates array: "
                            ++ path_string manifestPath))
    end.

Definition buildManifestWarning (startersPath : fspath) (error : Error) : string :=
  let manifestPath := getManifestPath startersPath in
  "Warning: Unable to read " ++ path_string manifestPath ++ " (" ++ message error
    ++ "). Falling back to directory scan.".

(** [flavor.path || flavor.id] *)
Definition relativePath_of (fl : TemplateManifestFlavor) : string :=
  match flavor_path fl with
  | Some p => or_else p (flavor_id fl)
  | None => flavor_id fl
  end.

(** The inner loop of [templatesFromManifest]: the flavors whose directory
    exists, and the paths that differ from the flavor id. *)
Fixpoint surviving_flavors (fs : node) (templatePath : fspath)
  (declared : list TemplateManifestFlavor) (flavors : list string)
  (flavorPaths : list (string * string)) : list string * list (string * string) :=
  match declared with
  | [] => (flavors, flavorPaths)
  | fl :: rest =>
      let relativePath := relativePath_of fl in
      let fullPath := path_join templatePath relativePath in
      if isDirectory fs fullPath then
        surviving_flavors fs templatePath rest
          (flavors ++ [flavor_id fl])%list
          (if negb (String.eqb relativePath (flavor_id fl))
           then aset (flavor_id fl) relativePath flavorPaths
           else flavorPaths)
      else surviving_flavors fs templatePath rest flavors flavorPaths
  end.

Fixpoint templatesFromManifest_loop (fs : node) (templatesDir : fspath)
  (entries : list TemplateManifestEntry) : list TemplateInfo :=
  match entries with
  | [] => []
  | entry :: rest =>
      let templatePath := path_join templatesDir (entry_id entry) in
      if negb (isDirectory fs templatePath) then
        templatesFromManifest_loop fs templatesDir rest
      else
        let '(flavors, flavorPaths) :=
          surviving_flavors fs templatePath (entry_flavors entry) [] [] in
        match flavors with
        | [] => templatesFromManifest_loop fs templatesDir rest
        | _ :: _ =>
            mkTemplateInfo (entry_id entry) (Some (entry_name entry))
              (Some (entry_description entry)) flavors
              (match flavorPaths with
               | [] => None
               | _ :: _ => Some flavorPaths
               end)
              templatePath (entry_order entry) (entry_category entry)
              (entry_aliases entry) (entry_hidden entry) (entry_deprecated entry)
            :: templatesFromManifest_loop fs templatesDir rest
        end
  end.

Definition templatesFromManifest (fs : node) (startersPath : fspath)
  (manifest : TemplateManifest) : list TemplateInfo :=
  let templatesDir := path_join startersPath TEMPLATES_DIR in
  templatesFromManifest_loop fs templatesDir (templates manifest).

(** [dirents.filter((d) => d.isDirectory()).map((d) => d.name)] *)
Definition directory_names (dirents : list (string * node)) : list string :=
  map fst (filter (fun d => is_dir (snd d)) dirents).

Fixpoint scanTemplates_loop (fs : node) (templatesDir : fspath)
  (templateDirs : list (string * node)) : result (list TemplateInfo) :=
  match templateDirs with
  | [] => Ok []
  | dir :: rest =>
      if negb (is_dir (snd dir)) then scanTemplates_loop fs templatesDir rest
      else
        let templateId := fst dir in
        let templatePath := path_join templatesDir templateId in
        and_then (fs_readdir fs templatePath) (fun flavorDirs =>
        let flavors := directory_names flavorDirs in
        and_then (scanTemplates_loop fs templatesDir rest) (fun templates =>
        match flavors with
        | _ :: _ =>
            Ok (mkTemplateInfo templateId (Some templateId) None flavors None
                  templatePath None None None None None :: templates)
        | [] => Ok templates
        end))
  end.

Definition scanTemplates (fs : node) (startersPath : fspath) : result (list TemplateInfo) :=
  let templatesDir := path_join startersPath TEMPLATES_DIR in
  match fs_access fs templatesDir with
  | Throw _ =>
      Throw (new_Error ("Templates directory not found: " ++ path_string templatesDir ++ nl
                          ++ "Make sure NAYLENCE_STARTERS_PATH points to the starters repo root."))
  | Ok _ =>
      and_then (fs_readdir fs templatesDir) (fun templateDirs =>
      scanTemplates_loop fs templatesDir templateDirs)
  end.

(** [getTemplatePath] *)
Definition getTemplatePath (startersPath : fspath) (templateId flavor : string) : fspath :=
  path_join (path_join (path_join startersPath TEMPLATES_DIR) templateId) flavor.

Section Discovery.

(** [JSON.parse]; [None] is its [SyntaxError]. *)
Variable JSON_parse : string -> option json.

(** [a.localeCompare(b)], by the sign of its value. *)
Variable localeCompare : string -> string -> comparison.

Definition readTemplateManifest (fs : node) (startersPath : fspath)
  : result (option TemplateManifest) :=
  let manifestPath := getManifestPath startersPath in
  match fs_readFile fs manifestPath with
  | Throw error =>
      if isNotFoundError error then Ok None
      else Throw (new_Error ("Unable to read manifest: " ++ path_string manifestPath))
  | Ok raw =>
      match JSON_parse raw with
      | None => Throw (new_Error ("Invalid JSON in manifest: " ++ path_string manifestPath))
      | Some parsed =>
          and_then (normalizeManifest parsed manifestPath) (fun manifest => Ok (Some manifest))
      end
  end.

(** The sign of [x - y] for two numbers that are not [===]; two that are
    compare [Eq]. *)
Definition compare_number (x y : number) : comparison :=
  match x, y with
  | Finite p, Finite q => Qcompare p q
  | NegInfinity, NegInfinity => Eq
  | NegInfinity, _ => Lt
  | Finite _, NegInfinity => Gt
  | Finite _, PosInfinity => Lt
  | PosInfinity, PosInfinity => Eq
  | PosInfinity, _ => Gt
  end.

(** [order ?? Number.POSITIVE_INFINITY] *)
Definition or_infinity (o : option number) : number :=
  match o with
  | Some n => n
  | None => PosInfinity
  end.

(** [aOrder !== bOrder] and then the sign of [aOrder - bOrder]: a template
    without an order is compared as one of order [Infinity]. *)
Definition compare_order (a b : option number) : comparison :=
  compare_number (or_infinity a) (or_infinity b).

(** [(t.name || t.id).toLowerCase()] *)
Definition sort_name (t : TemplateInfo) : string :=
  toLowerCase (match name t with
               | Some n => or_else n (id t)
               | None => id t
               end).

(** The comparator of [sortTemplates] *)
Definition compare_templates (a b : TemplateInfo) : comparison :=
  match compare_order (order a) (order b) with
  | Eq => localeCompare (sort_name a) (sort_name b)
  | c => c
  end.

(** [Array.prototype.sort] is stable: an element stays behind the
    elements it does not precede. *)
Fixpoint insert_template (t : TemplateInfo) (sorted : list TemplateInfo) : list TemplateInfo :=
  match sorted with
  | [] => [t]
  | u :: rest =>
      match compare_templates t u with
      | Gt => u :: insert_template t rest
      | _ => t :: u :: rest
      end
  end.

Definition sortTemplates (templates : list TemplateInfo) : list TemplateInfo :=
  fold_right insert_template [] templates.

(** Whether the caller supplied [options.onWarning]. *)
Record TemplateDiscoveryOptions : Type := mkDiscoveryOptions {
  onWarning : bool
}.

(** The second component is the log of the messages [onWarning] was called
    with. *)
Definition discoverTemplates (fs : node) (startersPath : fspath)
  (options : TemplateDiscoveryOptions) : result (list TemplateInfo) * list string :=
  let '(manifest, warnings) :=
    match readTemplateManifest fs startersPath with
    | Ok m => (m, [])
    | Throw error =>
        (None, if onWarning options then [buildManifestWarning startersPath error] else [])
    end in
  match manifest with
  | Some m => (Ok (sortTemplates (templatesFromManifest fs startersPath m)), warnings)
  | None => (and_then (scanTemplates fs startersPath) (fun ts => Ok (sortTemplates ts)), warnings)
  end.

(** [resolveTemplateFlavorPath]: every exception of the manifest is
    caught, and the plain layout is the fallback. *)
Definition resolveTemplateFlavorPath (fs : node) (startersPath : fspath)
  (templateId flavor : string) : fspath :=
  let fallback := getTemplatePath startersPath templateId flavor in
  match readTemplateManifest fs startersPath with
  | Ok (Some manifest) =>
      match find (fun template => String.eqb (entry_id template) templateId)
                 (templates manifest) with
      | Some entry =>
          match find (fun item => String.eqb (flavor_id item) flavor) (entry_flavors entry) with
          | Some flavorInfo =>
              path_join (path_join (path_join startersPath TEMPLATES_DIR) templateId)
                (relativePath_of flavorInfo)
          | None => fallback
          end
      | None => fallback
      end
  | _ => fallback
  end.

Definition templateExists (fs : node) (startersPath : fspath) (templateId flavor : string)
  : bool :=
  isDirectory fs (resolveTemplateFlavorPath fs startersPath templateId flavor).

End Discovery.

(** ** generator.ts *)

(** [validateTargetDir]: both errors of the [try] block reach the [catch]
    clause, which lets only a missing path pass. *)
Definition validateTargetDir (fs : node) (targetPath : fspath) : result unit :=
  let attempt :=
    and_then (fs_stat fs targetPath) (fun stat =>
    if negb (is_dir stat) then
      Throw (new_Error ("Target path exists but is not a directory: "
                          ++ path_string targetPath))
    else
      and_then (fs_readdir fs targetPath) (fun contents =>
      match contents with
      | _ :: _ =>
          Throw (new_Error ("Target directory is not empty: " ++ path_string targetPath ++ nl
                              ++ "Please choose an empty directory or a new path."))
      | [] => Ok tt
      end)) in
  match attempt with
  | Ok u => Ok u
  | Throw err => if isNotFoundError err then Ok tt else Throw err
  end.

Definition EXCLUDE_DIRS : list string :=
  [".git"; "node_modules"; "dist"; ".tmp"; "__pycache__"; ".venv"; "venv"].

Definition EXCLUDE_FILES : list string :=
  ["package-lock.json"; "pnpm-lock.yaml"; "yarn.lock"; "bun.lockb"; ".env"].

(** The [filter] callback of [copyTemplate], on the parts of the path
    relative to the source root. *)
Definition copy_filter (parts : list string) : bool :=
  match parts with
  | [] => true
  | _ :: _ =>
      let filename := last parts "" in
      if Nat.eqb (List.length parts) 1 && array_includes EXCLUDE_FILES filename then false
      else if startsWith filename ".env." && endsWith filename ".template" then false
      else negb (existsb (fun part => array_includes EXCLUDE_DIRS part) parts)
  end.

Definition fs_mkdir (p : fspath) : M unit :=
  fun fs =>
    match resolve p fs with
    | Found _ => (Throw (fs_error EEXIST "mkdir" p), fs)
    | Missing ENOENT =>
        match put p (Dir []) fs with
        | Found fs' => (Ok tt, fs')
        | Missing e => (Throw (fs_error e "mkdir" p), fs)
        end
    | Missing e => (Throw (fs_error e "mkdir" p), fs)
    end.

Definition fse_mkdirs (p : fspath) : M unit :=
  fun fs =>
    match mkdirp p fs with
    | Found fs' => (Ok tt, fs')
    | Missing e => (Throw (fs_error e "mkdir" p), fs)
    end.

(** The recursion of fs-extra's [copy] (a dependency of the repository,
    embedded after its documentation): a directory is created when the
    destination lacks it and its items are copied one after the other,
    those the filter rejects left out with all they contain; a file is
    copied with [copyFile], in place of the file that may be there. *)
Fixpoint copy_item (src : fspath) (n : node) (parts : list string) (dest : fspath)
  {struct n} : M unit :=
  match n with
  | File _ _ | Locked _ _ => fse_copyFile src dest
  | Dir items =>
      bind (fun fs => if pathExists fs dest then (Ok tt, fs) else fs_mkdir dest fs)
        (fun _ =>
           (fix copy_items (items : list (string * node)) : M unit :=
              match items with
              | [] => ret tt
              | (item, child) :: rest =>
                  bind (if copy_filter (parts ++ [item])%list
                        then copy_item (src ++ [item])%list child
                               (parts ++ [item])%list (dest ++ [item])%list
                        else ret tt)
                    (fun _ => copy_items rest)
              end) items)
  end.

(** [src] is [dest] or one of its ancestors. *)
Fixpoint is_prefix (src dest : fspath) : bool :=
  match src, dest with
  | [], _ => true
  | _ :: _, [] => false
  | a :: src', b :: dest' => String.eqb a b && is_prefix src' dest'
  end.

(** The checks fs-extra makes on the two paths before it copies. *)
Definition checkPaths (fs : node) (src dest : fspath) : result node :=
  and_then (fs_stat fs src) (fun srcStat =>
  let subdir_check :=
    if is_dir srcStat && is_prefix src dest then
      Throw (new_Error ("Cannot copy '" ++ path_string src
                          ++ "' to a subdirectory of itself, '" ++ path_string dest ++ "'."))
    else Ok srcStat in
  match resolve dest fs with
  | Missing ENOENT => subdir_check
  | Missing e => Throw (fs_error e "stat" dest)
  | Found destStat =>
      if is_prefix src dest && is_prefix dest src then
        Throw (new_Error "Source and destination must not be the same.")
      else if is_dir srcStat && negb (is_dir destStat) then
        Throw (new_Error ("Cannot overwrite non-directory '" ++ path_string dest
                            ++ "' with directory '" ++ path_string src ++ "'."))
      else if negb (is_dir srcStat) && is_dir destStat then
        Throw (new_Error ("Cannot overwrite directory '" ++ path_string dest
                            ++ "' with non-directory '" ++ path_string src ++ "'."))
      else subdir_check
  end).

(** [fse.copy(src, dest, { filter })]: the checks, then the parent of the
    destination, then the recursion.  The filter accepts the root. *)
Definition fse_copy (src dest : fspath) : M unit :=
  bind (read (fun fs => checkPaths fs src dest)) (fun srcStat =>
  bind (fun fs => if pathExists fs (removelast dest) then (Ok tt, fs)
                  else fse_mkdirs (removelast dest) fs) (fun _ =>
  copy_item src srcStat [] dest)).

Definition copyTemplate (src dest : fspath) : M unit := fse_copy src dest.

(** [ensureEnvFiles]: the body of the loop for one name, then the loop. *)
Definition ensureEnvFile (templateDir destDir : fspath) (name : string) : M unit :=
  fun fs =>
    let templatePath := path_join templateDir (".env." ++ name ++ ".template") in
    let outPath := path_join destDir (".env." ++ name) in
    if pathExists fs outPath then (Ok tt, fs)
    else if pathExists fs templatePath then fs_copyFile templatePath outPath fs
    else (* console.warn *) (Ok tt, fs).

Fixpoint for_each {A : Type} (xs : list A) (body : A -> M unit) : M unit :=
  match xs with
  | [] => ret tt
  | x :: rest => bind (body x) (fun _ => for_each rest body)
  end.

Definition ensureEnvFiles (templateDir destDir : fspath) : M unit :=
  let envNames := ["agent"; "client"] in
  for_each envNames (ensureEnvFile templateDir destDir).

Definition gitignore_entries : list string := [".env.agent"; ".env.client"].

Definition ensureGitignoreHasEnvEntries (destDir : fspath) : M unit :=
  fun fs =>
    let gitignorePath := path_join destDir ".gitignore" in
    let entries := gitignore_entries in
    if negb (pathExists fs gitignorePath) then
      fs_writeFile gitignorePath (join nl entries ++ nl) fs
    else
      match fs_readFile fs gitignorePath with
      | Throw e => (Throw e, fs)
      | Ok content =>
          let lines := split_lines content in
          let existing := filter (fun line => negb (Nat.eqb (String.length line) 0))
                            (map trim lines) in
          let missing := filter (fun entry => negb (array_includes existing entry)) entries in
          match missing with
          | [] => (Ok tt, fs)
          | _ :: _ =>
              let separator := if endsWith content nl then "" else nl in
              let updated := content ++ separator ++ join nl missing ++ nl in
              fs_writeFile gitignorePath updated fs
          end
      end.

(** [buildSubstitutions]: the entries of the map in insertion order *)
Definition buildSubstitutions (projectName : string) : list (string * string) :=
  [(PROJECT_NAME, projectName);
   (PACKAGE_NAME, toPackageName projectName);
   (PY_PACKAGE, toPythonPackage projectName)].

(** The loop of [substituteInFile] over the map: the content and the
    [modified] flag. *)
Fixpoint substitute_content (substitutions : list (string * string)) (content : string)
  (modified : bool) : string * bool :=
  match substitutions with
  | [] => (content, modified)
  | (placeholder, value) :: rest =>
      if includes content placeholder
      then substitute_content rest (replaceAll content placeholder value) true
      else substitute_content rest content modified
  end.

(** [substituteInFile] on the node of the file.  A binary extension
    leaves the file as it is, and so does a read that fails and a write
    that fails: the one [try] holds [readFile], the loop and [writeFile],
    and its [catch] is empty.  The file is written only when a
    placeholder was found. *)
Definition substituteInFile (filename : string) (substitutions : list (string * string))
  (n : node) : node :=
  if isBinaryFile filename BINARY_EXTENSIONS then n
  else
    match n with
    | File true data =>
        let '(content, modified) := substitute_content substitutions data false in
        if modified then File true content else n
    | Locked true _ =>
        (* the loop runs on the content that was read, and where a
           placeholder was found [writeFile] throws: the [catch] takes it *)
        n
    | File false _ | Locked false _ => (* [readFile] throws *) n
    | Dir _ => n
    end.

(** [substituteInDirectory] on the entries of the directory: each call of
    the source rewrites the subtree of its directory in place and touches
    nothing else, and no step of the walk can fail, so the walk is the
    map of the subtree. *)
Fixpoint substitute_node (substitutions : list (string * string)) (filename : string)
  (n : node) {struct n} : node :=
  match n with
  | File _ _ | Locked _ _ => substituteInFile filename substitutions n
  | Dir entries =>
      if String.eqb filename "node_modules" || String.eqb filename ".git" then n
      else
        Dir ((fix walk (entries : list (string * node)) : list (string * node) :=
                match entries with
                | [] => []
                | (entry, child) :: rest =>
                    (entry, substitute_node substitutions entry child) :: walk rest
                end) entries)
  end.

Definition substitute_entries (substitutions : list (string * string))
  (entries : list (string * node)) : list (string * node) :=
  map (fun e => (fst e, substitute_node substitutions (fst e) (snd e))) entries.

Definition substituteInDirectory (dirPath : fspath) (substitutions : list (string * string))
  : M unit :=
  fun fs =>
    match fs_readdir fs dirPath with
    | Throw e => (Throw e, fs)
    | Ok entries =>
        match put dirPath (Dir (substitute_entries substitutions entries)) fs with
        | Found fs' => (Ok tt, fs')
        | Missing e => (Throw (fs_error e "open" dirPath), fs)
        end
    end.

Section Generator.

Variable JSON_parse : string -> option json.

Open Scope fs_scope.

(** The source path [generateProject] resolves *)
Definition template_path_of (fs : node) (options : GeneratorOptions) : fspath :=
  resolveTemplateFlavorPath JSON_parse fs (startersPath options)
    (templateId options) (flavor options).

Definition generateProject (options : GeneratorOptions) : M unit :=
  templatePath <- read (fun fs => Ok (template_path_of fs options)) ;;
  let targetPath := targetDir options in
  (* Validate template exists *)
  try_catch (read (fun fs => fs_access fs templatePath))
    (fun _ =>
       throw (new_Error ("Template not found: " ++ templateId options ++ "/"
                           ++ flavor options ++ nl
                           ++ "Path: " ++ path_string templatePath ++ nl
                           ++ "Run with --list to see available templates."))) ;;
  (* Check target directory *)
  read (fun fs => validateTargetDir fs targetPath) ;;
  (* Copy template *)
  copyTemplate templatePath targetPath ;;
  (* Substitute placeholders *)
  let substitutions := buildSubstitutions (projectName options) in
  substituteInDirectory targetPath substitutions ;;
  ensureEnvFiles templatePath targetPath ;;
  ensureGitignoreHasEnvEntries targetPath.

Close Scope fs_scope.

End Generator.

(** ** Notions and fixtures of the statements *)

(** The number of occurrences of a character *)
Fixpoint count_char (c : ascii) (s : string) : nat :=
  match s with
  | "" => 0
  | String d r => (if Ascii.eqb c d then 1 else 0) + count_char c r
  end.

(** No explicit flavor was requested: [cliFlavor] is absent, or it is the
    empty string, which [if (cliFlavor)] takes for absent. *)
Definition no_cli_flavor (options : FlavorSelectionOptions) : Prop :=
  cliFlavor options = None \/ cliFlavor options = Some "".

(** [buildTemplate("sample", flavors)] of the test suite *)
Definition sample (flavors : list string) : TemplateInfo :=
  mkTemplateInfo "sample" None None flavors None ["tmp"; "sample"]
    None None None None None.

(** A starters root with one template, and a target directory that holds
    a file: the setting of the test "fails if target directory is not
    empty". *)
Definition starters_and_target : node :=
  Dir [("starters",
        Dir [("templates",
              Dir [("agent-on-sentinel",
                    Dir [("ts", Dir [("README.md", File true "# __PROJECT_NAME__")])])])]);
       ("test-non-empty", Dir [("existing.txt", File true "content")])].

(** A [JSON.parse] that rejects every text *)
Definition no_json (raw : string) : option json := None.


(** The two paths of [ensureEnvFiles] for a name *)
Definition env_out (destDir : fspath) (name : string) : fspath :=
  path_join destDir (".env." ++ name).

Definition env_template (templateDir : fspath) (name : string) : fspath :=
  path_join templateDir (".env." ++ name ++ ".template").

(** The content of a regular file that can be read *)
Definition readable_content (n : node) : option string :=
  match n with
  | File true data | Locked true data => Some data
  | _ => None
  end.

(** The template of a name is absent, or it is a regular file that can
    be read. *)
Definition env_template_ok (fs : node) (templateDir : fspath) (name : string) : Prop :=
  match resolve (env_template templateDir name) fs with
  | Found (File true _) | Found (Locked true _) => True
  | Found _ => False
  | Missing _ => True
  end.

(** The round of [ensureEnvFiles] for a name has nothing to do, or has a
    template it can copy. *)
Definition env_round_ok (fs : node) (templateDir destDir : fspath) (name : string) : Prop :=
  pathExists fs (env_out destDir name) = true \/ env_template_ok fs templateDir name.

(** What is no directory is after a round for the name [a] what it was before, or it was
    missing and is missing. *)
Definition kept_apart_from (a : string) (fs fs1 : node) : Prop :=
  forall (q : fspath) (b : string), a <> b ->
    (forall es, resolve (q ++ [b])%list fs <> Found (Dir es)) ->
    resolve (q ++ [b])%list fs1 = resolve (q ++ [b])%list fs
    \/ ((exists e, resolve (q ++ [b])%list fs = Missing e)
        /\ (exists e, resolve (q ++ [b])%list fs1 = Missing e)).

(** A template directory where [.env.agent.template] is a directory, and
    a target without env files *)
Definition env_blocked_fixture : node :=
  Dir [("target", Dir []);
       ("template", Dir [(".env.agent.template", Dir []);
                         (".env.client.template", File true "client=created")])].

(** Templates without a target directory, and a template that cannot be
    read *)
Definition env_no_target_fixture : node :=
  Dir [("template", Dir [(".env.agent.template", File true "agent=created")])].

Definition env_unreadable_fixture : node :=
  Dir [("target", Dir []);
       ("template", Dir [(".env.agent.template", File false "agent=created")])].

(** The setting of the test "does not overwrite existing env files" *)
Definition env_fixture : node :=
  Dir [("target", Dir [(".env.agent", File true "existing=keep")]);
       ("template", Dir [(".env.agent.template", File true "existing=replace");
                         (".env.client.template", File true "client=created")])].


(** An entry is present in a text when one of its lines, trimmed, is the
    entry. *)
Definition line_present (content entry : string) : bool :=
  existsb (fun line => String.eqb (trim line) entry) (split_lines content).

(** What [ensureGitignoreHasEnvEntries] is to append to an existing
    text: nothing when both entries are present, else a newline unless
    the text ends with one, then the missing entries, one per line. *)
Definition gitignore_suffix (content : string) : string :=
  match filter (fun entry => negb (line_present content entry)) gitignore_entries with
  | [] => ""
  | missing => (if endsWith content nl then "" else nl) ++ join nl missing ++ nl
  end.

(** Apply a function to the last element of a list. *)
Fixpoint map_last {A : Type} (f : A -> A) (l : list A) : list A :=
  match l with
  | [] => []
  | [x] => [f x]
  | x :: r => x :: map_last f r
  end.

(** The [.gitignore] of a template lets [ensureGitignoreHasEnvEntries]
    return on its copy: there is none, or it is a file that can be
    written, or a file that cannot be written and lacks no entry. *)
Definition gitignore_template_ok (items : list (string * node)) : Prop :=
  match alookup ".gitignore" items with
  | Some (Dir _) => False
  | Some (Locked _ data) => gitignore_suffix data = ""
  | _ => True
  end.


(** A project directory with a [.gitignore] that names one entry, with
    blanks around it and no newline at the end. *)
Definition gitignore_fixture : node :=
  Dir [("project", Dir [(".gitignore", File true ("node_modules" ++ nl ++ "  .env.agent "))]);
       ("fresh", Dir [])].


(** *** Well-formed trees *)

Fixpoint all_chars (p : ascii -> bool) (s : string) : bool :=
  match s with
  | "" => true
  | String c r => p c && all_chars p r
  end.

(** A name a directory can hold: not empty, not [.] or [..], without a
    slash. *)
Definition valid_name (s : string) : bool :=
  negb (String.eqb s "") && negb (String.eqb s ".") && negb (String.eqb s "..")
  && all_chars (fun c => negb (Ascii.eqb c "/")) s.

Fixpoint unique_names (names : list string) : bool :=
  match names with
  | [] => true
  | x :: r => negb (existsb (String.eqb x) r) && unique_names r
  end.

(** The trees that are filesystems: in every directory the names are
    valid and no name occurs twice. *)
Fixpoint valid_fs (n : node) {struct n} : bool :=
  match n with
  | File _ _ | Locked _ _ => true
  | Dir entries =>
      unique_names (map fst entries)
      && (fix all_valid (entries : list (string * node)) : bool :=
            match entries with
            | [] => true
            | (k, c) :: r => valid_name k && valid_fs c && all_valid r
            end) entries
  end.


(** The templates of the directory convention [templates/<id>/<flavor>/]:
    one for every subdirectory that has a subdirectory, named after it,
    without description, its flavors the names of its subdirectories. *)
Definition scanned_template (templatesDir : fspath) (entry : string * node)
  : list TemplateInfo :=
  match snd entry with
  | Dir flavorDirs =>
      match directory_names flavorDirs with
      | [] => []
      | flavors =>
          [mkTemplateInfo (fst entry) (Some (fst entry)) None flavors None
             (templatesDir ++ [fst entry])%list None None None None None]
      end
  | File _ _ | Locked _ _ => []
  end.

Definition scanned_templates (templatesDir : fspath) (entries : list (string * node))
  : list TemplateInfo :=
  flat_map (scanned_template templatesDir) entries.

(** The setting of the test "warns and falls back when manifest is
    invalid" *)
Definition invalid_manifest_fixture : node :=
  Dir [("starters",
        Dir [("templates",
              Dir [("manifest.json", File true "{ invalid");
                   ("sample-template", Dir [("ts", Dir [])])])])].

(** A starters root whose manifest declares a template with three
    flavors: one at its id, one at another path, one without directory. *)
Definition manifest_fixture : node :=
  Dir [("starters",
        Dir [("templates",
              Dir [("manifest.json", File true "manifest");
                   ("alpha", Dir [("ts", Dir []); ("python", Dir [])]);
                   ("beta", Dir [])])])].

Definition manifest_fixture_json (raw : string) : option json :=
  Some (JObject
          [("templates",
            JArray
              [JObject [("id", JString "alpha"); ("name", JString "Alpha");
                        ("description", JString "The first");
                        ("flavors",
                         JArray [JString "ts";
                                 JObject [("id", JString "py"); ("path", JString "python")];
                                 JString "go"])];
               JObject [("id", JString "beta"); ("name", JString "Beta");
                        ("description", JString "The second");
                        ("flavors", JArray [JString "ts"])]])]).

Definition compare_strings (a b : string) : comparison := String.compare a b.


(** *** The placeholders and the values that replace them *)

(** The characters the placeholder tokens are made of: capitals and the
    underscore. *)
Definition token_char (c : ascii) : bool := is_upper c || Ascii.eqb c "_".

Definition ends_in (cls : ascii -> bool) (s : string) : bool :=
  match last_char s with
  | Some c => cls c
  | None => false
  end.

(** A value that no replacement can turn into part of a token: it is not
    empty, has no [$] (which [replaceAll] would expand), and neither
    begins nor ends with a character of the tokens. *)
Definition inert (v : string) : bool :=
  negb (String.eqb v "")
  && all_chars (fun c => negb (Ascii.eqb c "$")) v
  && negb (starts_in token_char v)
  && negb (ends_in token_char v).

(** A replacement text that [replaceAll] inserts as it is: no [$] stands
    before a [$], a [&], a backtick or a quote. *)
Fixpoint plain_template (v : string) : bool :=
  match v with
  | "" => true
  | String c t =>
      if Ascii.eqb c "$" then
        match t with
        | String c' _ =>
            negb (Ascii.eqb c' "$" || Ascii.eqb c' "&" || Ascii.eqb c' "`"
                  || Ascii.eqb c' "'")
            && plain_template t
        | "" => true
        end
      else plain_template t
  end.

(** The ways to cut a text in two *)
Fixpoint splits (t : string) : list (string * string) :=
  ("", t) :: match t with
             | "" => []
             | String c r => map (fun p => (String c (fst p), snd p)) (splits r)
             end.

(** A value that the text around it can complete to an occurrence of the
    token, when it stands where the first occurrence of the token
    stood: the value is empty or holds the token; or, for a cut of the
    token in two parts [a] and [b], the value ends with [a], or it
    begins with [b] or lies at the beginning of [b] while [a] can stand
    before the token without making an earlier occurrence of it. *)
Definition completes (token v : string) : bool :=
  String.eqb v ""
  || includes v token
  || existsb (fun p =>
                negb (String.eqb (fst p) "") && negb (String.eqb (snd p) "")
                && (endsWith v (fst p)
                    || (negb (prefix token (fst p ++ token))
                        && (prefix (snd p) v
                            || (prefix v (snd p) && negb (String.eqb v (snd p)))))))
       (splits token).

(** The project names for which the substitution leaves no token and
    puts the name as it is: [replaceAll] expands nothing in the name,
    nothing around the name can complete it to [__PROJECT_NAME__], and
    both sanitized forms are non-empty. *)
Definition substitutable (projectName : string) : bool :=
  plain_template projectName
  && negb (completes PROJECT_NAME projectName)
  && negb (String.eqb (toPackageName projectName) "")
  && negb (String.eqb (toPythonPackage projectName) "").

(** The replacement as the specification words it: every occurrence of
    the token, taken from left to right, gives way to the value. *)
Fixpoint replace_each_from (fuel : nat) (token value s : string) : string :=
  match fuel with
  | 0 => s
  | S fuel' =>
      match find_first token s with
      | None => s
      | Some (u, rest) => u ++ value ++ replace_each_from fuel' token value rest
      end
  end.

Definition replace_each (s token value : string) : string :=
  replace_each_from (String.length s) token value s.

(** Where two texts meet, one of the two characters is not a character
    of the tokens. *)
Definition apart_at_seam (a b : string) : bool :=
  match last_char a, head_char b with
  | Some x, Some y => negb (token_char x) || negb (token_char y)
  | _, _ => true
  end.

(** No two adjacent occurrences of a character *)
Fixpoint no_double (d : ascii) (s : string) : bool :=
  match s with
  | "" => true
  | String c r => negb (Ascii.eqb c d && starts_in (Ascii.eqb d) r) && no_double d r
  end.

(** A generated tree with a text file, a text file in a directory, an
    image and a vendored directory. *)
Definition generated_fixture : node :=
  Dir [("my-awesome-project",
        Dir [("README.md", File true "# __PROJECT_NAME__");
             ("package.json", File true "name: __PACKAGE_NAME__, module: __PY_PACKAGE__");
             ("src", Dir [("main.py", File true "import __PY_PACKAGE__")]);
             ("logo.png", File true "__PROJECT_NAME__");
             ("node_modules", Dir [("dep.js", File true "__PROJECT_NAME__")])])].

(** One round of the loop of [substituteInFile] *)
Definition substitute_step (content placeholder value : string) : string :=
  if includes content placeholder then replaceAll content placeholder value else content.

(** A directory with one text file *)
Definition one_file (filename content : string) : node :=
  Dir [("target", Dir [(filename, File true content)])].

(** After the substitution for a project name, a placeholder is left in
    a text file [README.md] that had the given content. *)
Definition placeholder_left (projectName content : string) : Prop :=
  exists fs' left,
    substituteInDirectory ["target"] (buildSubstitutions projectName)
      (one_file "README.md" content) = (Ok tt, fs')
    /\ resolve ["target"; "README.md"] fs' = Found (File true left)
    /\ includes left PROJECT_NAME = true.

(** A directory with one text file that cannot be written *)
Definition locked_file (filename content : string) : node :=
  Dir [("target", Dir [(filename, Locked true content)])].


(** ** templates.ts: the list of the templates as text *)

(** [template.name && template.name !== template.id
      ? `${template.name} (${template.id})` : template.id] *)
Definition template_label (template : TemplateInfo) : string :=
  match name template with
  | Some n =>
      if truthy n && negb (String.eqb n (id template))
      then n ++ " (" ++ id template ++ ")"
      else id template
  | None => id template
  end.

(** The lines one round of the loop of [formatTemplateList] pushes *)
Definition template_lines (template : TemplateInfo) : list string :=
  (("  " ++ template_label template)
   :: match description template with
      | Some d => if truthy d then ["    " ++ d] else []
      | None => []
      end)
  ++ ["    flavors: " ++ join ", " (flavors template)].

Definition formatTemplateList (templates : list TemplateInfo) : string :=
  match templates with
  | [] => "No templates found."
  | _ :: _ => join nl ("Available templates:" :: "" :: flat_map template_lines templates)
  end.

(** *** Notions of the statements about a manifest *)

(** No two entries of a manifest have the same id, and no two flavors of
    an entry. *)
Definition unique_ids (manifest : TemplateManifest) : Prop :=
  NoDup (map entry_id (templates manifest))
  /\ forall entry, In entry (templates manifest) ->
       NoDup (map flavor_id (entry_flavors entry)).

(** What [normalizeManifest] requires of an entry: an id, a name and a
    description that are not blank, at least one flavor, and no
    absolute flavor path. *)
Definition entry_complete (entry : TemplateManifestEntry) : Prop :=
  trim (entry_id entry) <> ""
  /\ trim (entry_name entry) <> ""
  /\ trim (entry_description entry) <> ""
  /\ entry_flavors entry <> []
  /\ forall fl p, In fl (entry_flavors entry) -> flavor_path fl = Some p ->
       isAbsolute p = false /\ trim (flavor_id fl) <> "".

(** What [normalizeManifest] requires, said of the parsed value: a
    string that is not blank; a flavor that is a string, or an object
    with an id that is not blank and a path that is falsy or a relative
    string; an entry that is an object with an id, a name and a
    description that are not blank and a non-empty array of such
    flavors. *)
Definition nonblank_string (v : option json) : bool :=
  match v with
  | Some (JString s) => negb (String.eqb (trim s) "")
  | _ => false
  end.

Definition acceptable_flavor (flavor : json) : bool :=
  match flavor with
  | JString _ => true
  | JObject _ =>
      nonblank_string (prop flavor "id")
      && match prop flavor "path" with
         | Some (JString p) => negb (truthy p && isAbsolute p)
         | None | Some JNull | Some (JBool false) => true
         | Some (JNumber n) => is_zero n
         | Some _ => false
         end
  | _ => false
  end.

Definition acceptable_entry (entry : json) : bool :=
  match entry with
  | JObject _ =>
      nonblank_string (prop entry "id")
      && nonblank_string (prop entry "name")
      && nonblank_string (prop entry "description")
      && match prop entry "flavors" with
         | Some (JArray (f :: fs)) => forallb acceptable_flavor (f :: fs)
         | _ => false
         end
  | _ => false
  end.

(** A parsed manifest whose second entry has a blank name *)
Definition blank_name_fixture : json :=
  JObject
    [("templates",
      JArray
        [JObject [("id", JString "agent"); ("name", JString "Agent");
                  ("description", JString "An agent");
                  ("flavors", JArray [JString "ts"])];
         JObject [("id", JString "client"); ("name", JString "  ");
                  ("description", JString "A client");
                  ("flavors", JArray [JString "ts"])]])].

(** A starters root without manifest, with one directory that is a
    template and one that has no flavor. *)
Definition scan_fixture : node :=
  Dir [("starters",
        Dir [("templates",
              Dir [("README.md", File true "templates");
                   ("empty", Dir [("notes.txt", File true "")]);
                   ("agent", Dir [("ts", Dir []); ("py", Dir [])])])])].

(** A parsed manifest with one template, whose second flavor lives in a
    directory of another name *)
Definition manifest_data_fixture : json :=
  JObject
    [("version", JNumber (Finite 1%Q));
     ("templates",
      JArray
        [JObject [("id", JString "agent"); ("name", JString "Agent");
                  ("description", JString "An agent"); ("order", JNumber (Finite 2%Q));
                  ("flavors",
                   JArray [JString "ts";
                           JObject [("id", JString "py"); ("path", JString "python")]])]])].

(** A template that has only an id and, possibly, an order *)
Definition titled (i : string) (o : option number) : TemplateInfo :=
  mkTemplateInfo i (Some i) None ["ts"] None ["starters"; "templates"; i]
    o None None None None.

(** ** utils.ts: the name of the project *)

(** [path.resolve(p)] where the working directory is [cwd] *)
Definition path_resolve (cwd : fspath) (p : string) : fspath :=
  if isAbsolute p then path_join [] p else path_join cwd p.

(** [path.basename] of a resolved path; the name of the root is empty *)
Definition basename (p : fspath) : string := last p "".

Definition getProjectName (cwd : fspath) (targetDir : string) : string :=
  basename (path_resolve cwd targetDir).


(** *** The structure of a tree *)

(** A tree without the contents of its files: the names, their order,
    the kinds and the permissions. *)
Fixpoint skeleton (n : node) {struct n} : node :=
  match n with
  | File r _ => File r ""
  | Locked r _ => Locked r ""
  | Dir entries =>
      Dir ((fix bones (entries : list (string * node)) : list (string * node) :=
              match entries with
              | [] => []
              | (k, c) :: r => (k, skeleton c) :: bones r
              end) entries)
  end.


(** *** What a copy is to leave at the destination *)

(** The tree [copyTemplate] is to make of a tree: the items the filter
    rejects are left out with all they hold, and a file comes with its
    content and its mode. *)
Fixpoint copied (parts : list string) (n : node) {struct n} : node :=
  match n with
  | File _ data => File true data
  | Locked _ data => Locked true data
  | Dir items =>
      Dir ((fix keep (items : list (string * node)) : list (string * node) :=
              match items with
              | [] => []
              | (item, child) :: rest =>
                  if copy_filter (parts ++ [item])%list
                  then (item, copied (parts ++ [item])%list child) :: keep rest
                  else keep rest
              end) items)
  end.

Definition copied_entries (parts : list string) (items : list (string * node))
  : list (string * node) :=
  flat_map (fun e => if copy_filter (parts ++ [fst e])%list
                     then [(fst e, copied (parts ++ [fst e])%list (snd e))]
                     else []) items.

(** Every file the filter lets through can be read. *)
Fixpoint copyable (parts : list string) (n : node) {struct n} : bool :=
  match n with
  | File r _ | Locked r _ => r
  | Dir items =>
      (fix all_copyable (items : list (string * node)) : bool :=
         match items with
         | [] => true
         | (item, child) :: rest =>
             (if copy_filter (parts ++ [item])%list
              then copyable (parts ++ [item])%list child
              else true)
             && all_copyable rest
         end) items
  end.

(** The loop of [copy_item] over the items of a directory, by its
    name *)
Fixpoint copy_items (src : fspath) (parts : list string) (dest : fspath)
  (items : list (string * node)) : M unit :=
  match items with
  | [] => ret tt
  | (item, child) :: rest =>
      bind (if copy_filter (parts ++ [item])%list
            then copy_item (src ++ [item])%list child (parts ++ [item])%list
                   (dest ++ [item])%list
            else ret tt)
        (fun _ => copy_items src parts dest rest)
  end.

(** [copy_item] does at a node what [copied] says, wherever the node is
    and wherever the copy goes, as long as the place of the copy is
    free and apart from the source. *)
Definition copies_well (n : node) : Prop :=
  forall (parts : list string) (src d : fspath) (a : string)
         (es : list (string * node)) (fs : node),
    valid_fs n = true -> copyable parts n = true ->
    resolve src fs = Found n ->
    is_prefix src (d ++ [a])%list = false -> is_prefix (d ++ [a])%list src = false ->
    resolve d fs = Found (Dir es) -> alookup a es = None ->
    exists fs',
      copy_item src n parts (d ++ [a])%list fs = (Ok tt, fs')
      /\ put (d ++ [a])%list (copied parts n) fs = Found fs'.

(** A template with all that is to stay behind, and a free place for
    the project *)
Definition template_fixture : node :=
  Dir [("starters",
        Dir [("templates",
              Dir [("agent",
                    Dir [("ts",
                          Dir [("README.md", File true "# __PROJECT_NAME__");
                               (".git", Dir [("config", File false "")]);
                               ("package-lock.json", File true "{}");
                               (".env", File true "SECRET=1");
                               (".env.agent.template", File true "KEY=");
                               ("src",
                                Dir [("index.ts", File true "// __PACKAGE_NAME__");
                                     ("node_modules", Dir [("dep.js", File true "")]);
                                     ("package-lock.json", File true "{}")])])])])]);
       ("work", Dir [])].

(** A template whose files cannot be written, as a checkout without
    write permission leaves them, and a free place for the project *)
Definition locked_template_fixture : node :=
  Dir [("starters",
        Dir [("templates",
              Dir [("agent",
                    Dir [("ts",
                          Dir [("README.md", Locked true "# __PROJECT_NAME__");
                               (".gitignore", Locked true "node_modules")])])])]);
       ("work", Dir [])].

(** ** generator.ts: the package manager *)

(** [detectPackageManager]: the lock files in their order, then whether
    [pnpm --version] runs, which is the argument [pnpm_found]. *)
Definition detectPackageManager (fs : node) (targetDir : fspath) (pnpm_found : bool)
  : string :=
  match fs_access fs (path_join targetDir "pnpm-lock.yaml") with
  | Ok _ => "pnpm"
  | Throw _ =>
      match fs_access fs (path_join targetDir "yarn.lock") with
      | Ok _ => "yarn"
      | Throw _ =>
          match fs_access fs (path_join targetDir "bun.lockb") with
          | Ok _ => "bun"
          | Throw _ => if pnpm_found then "pnpm" else "npm"
          end
      end
  end.


(* ================================================================= *)
(** * Part II: properties *)
(* ================================================================= *)

(** ** Strings *)

Lemma append_assoc (a b c : string) : (a ++ b) ++ c = a ++ (b ++ c).
Proof. induction a as [|x a IH]; simpl; [reflexivity | now rewrite IH]. Qed.

Lemma append_nil_r (a : string) : a ++ "" = a.
Proof. induction a as [|x a IH]; simpl; [reflexivity | now rewrite IH]. Qed.

Lemma length_append (a b : string) :
  String.length (a ++ b) = String.length a + String.length b.
Proof. induction a as [|x a IH]; simpl; [reflexivity | now rewrite IH]. Qed.

Lemma prefix_nil (s : string) : prefix "" s = true.
Proof. now destruct s. Qed.

Lemma prefix_cons (c d : ascii) (t s : string) :
  prefix (String c t) (String d s) = Ascii.eqb c d && prefix t s.
Proof.
  simpl. destruct (ascii_dec c d) as [->|ne].
  - now rewrite Ascii.eqb_refl.
  - apply Ascii.eqb_neq in ne. now rewrite ne.
Qed.

Lemma prefix_append (t b : string) : prefix t (t ++ b) = true.
Proof.
  induction t as [|c t IH]; [apply prefix_nil|].
  cbn [append]. rewrite prefix_cons, Ascii.eqb_refl. exact IH.
Qed.

Lemma includes_of_prefix (s t : string) : prefix t s = true -> includes s t = true.
Proof. intros H. destruct s; cbn [includes]; now rewrite H. Qed.

Lemma includes_cons (c : ascii) (s t : string) :
  includes s t = true -> includes (String c s) t = true.
Proof. intros H. cbn [includes]. now destruct (prefix t (String c s)). Qed.

Lemma includes_append_r (a b t : string) :
  includes b t = true -> includes (a ++ b) t = true.
Proof.
  intros H. induction a as [|c a IH]; [exact H|].
  cbn [append]. now apply includes_cons.
Qed.

Lemma includes_here (t b : string) : includes (t ++ b) t = true.
Proof. apply includes_of_prefix, prefix_append. Qed.

(** Find the piece [t] among the operands of a chain of appends. *)
Ltac find_piece :=
  repeat first [ apply includes_here
               | reflexivity
               | apply includes_append_r ].

Lemma truthy_iff (s : string) : truthy s = true <-> s <> "".
Proof.
  unfold truthy. destruct (String.eqb_spec s ""); simpl; split; congruence.
Qed.

Lemma array_includes_In (xs : list string) (x : string) :
  array_includes xs x = true <-> In x xs.
Proof.
  unfold array_includes. rewrite existsb_exists. split.
  - intros (y & Hy & E). apply String.eqb_eq in E. now subst.
  - intros H. exists x. split; [exact H | apply String.eqb_refl].
Qed.

Lemma array_includes_not_In (xs : list string) (x : string) :
  array_includes xs x = false <-> ~ In x xs.
Proof.
  rewrite <- array_includes_In. destruct (array_includes xs x); split; congruence.
Qed.

Lemma count_char_append (c : ascii) (a b : string) :
  count_char c (a ++ b) = count_char c a + count_char c b.
Proof. induction a as [|d a IH]; simpl; [reflexivity | rewrite IH; lia]. Qed.

(** ** utils.ts *)

(** The cases of the test suite *)
Example toPackageName_tests :
  toPackageName "MyProject" = "myproject"
  /\ toPackageName "my project" = "my-project"
  /\ toPackageName "my_project" = "my-project"
  /\ toPackageName "my$project!" = "myproject"
  /\ toPackageName "@scope/my-pkg" = "@scope/my-pkg".
Proof. repeat split; reflexivity. Qed.

Example toPythonPackage_tests :
  toPythonPackage "MyProject" = "myproject"
  /\ toPythonPackage "my-project" = "my_project"
  /\ toPythonPackage "my project" = "my_project".
Proof. repeat split; reflexivity. Qed.

(** C2 at the input ["11a"].  The pattern that is to make the name start
    with a letter removes one character only, so the result ["1a"] still
    starts with a digit, and a second application removes it: neither
    sanitizer is idempotent. *)
Theorem sanitizers_not_idempotent :
  toPackageName "11a" = "1a"
  /\ toPackageName (toPackageName "11a") = "a"
  /\ toPackageName (toPackageName "11a") <> toPackageName "11a"
  /\ toPythonPackage "11a" = "1a"
  /\ toPythonPackage (toPythonPackage "11a") = "a"
  /\ toPythonPackage (toPythonPackage "11a") <> toPythonPackage "11a".
Proof. repeat split; try reflexivity; vm_compute; discriminate. Qed.

(** ** flavor-selection.ts *)

Lemma selectFlavor_no_cli (t : TemplateInfo) (o : FlavorSelectionOptions) :
  flavors t <> [] -> no_cli_flavor o -> selectFlavor t o = select_without_cli t o.
Proof.
  intros Hne Hcli. unfold selectFlavor.
  destruct (flavors t) as [|f fs]; [congruence|].
  destruct Hcli as [-> | ->]; reflexivity.
Qed.

(** C1, as the code has it.  For a template with at least one flavor:
    a non-empty [cliFlavor] that is in the list is selected with reason
    [cli], whatever the default, and the prompt is not called, and one
    that is not in the list is an error; when no flavor is requested
    (absent or empty [cliFlavor]) a [defaultFlavor] in the list is
    selected with reason [default] and no prompt; else a single flavor
    is selected with reason [only] and no prompt; else a
    supplied prompt is called exactly once, with the template, and a
    non-empty answer that is in the list is selected with reason
    [prompt]. *)
Theorem selectFlavor_precedence (t : TemplateInfo) (o : FlavorSelectionOptions) :
  flavors t <> [] ->
  (forall c, cliFlavor o = Some c -> c <> "" -> In c (flavors t) ->
     selectFlavor t o = (Ok (mkSelection c Cli), []))
  /\ (forall c, cliFlavor o = Some c -> c <> "" -> ~ In c (flavors t) ->
     selectFlavor t o = (Throw (new_Error (flavor_not_found_cli c t)), []))
  /\ (no_cli_flavor o -> In (defaultFlavor o) (flavors t) ->
     selectFlavor t o = (Ok (mkSelection (defaultFlavor o) Default), []))
  /\ (no_cli_flavor o -> ~ In (defaultFlavor o) (flavors t) ->
     forall f, flavors t = [f] ->
     selectFlavor t o = (Ok (mkSelection f Only), []))
  /\ (no_cli_flavor o -> ~ In (defaultFlavor o) (flavors t) ->
     List.length (flavors t) <> 1 ->
     forall ask, prompt o = Some ask ->
     snd (selectFlavor t o) = [t]
     /\ forall s, ask t = Some s -> s <> "" -> In s (flavors t) ->
        fst (selectFlavor t o) = Ok (mkSelection s Prompt)).
Proof.
  intros Hne. split; [|split; [|split; [|split]]].
  - intros c Hc Hnon Hin. unfold selectFlavor.
    destruct (flavors t) as [|f fs] eqn:E; [congruence|].
    rewrite Hc. apply truthy_iff in Hnon. rewrite Hnon.
    apply array_includes_In in Hin. now rewrite Hin.
  - intros c Hc Hnon Hnin. unfold selectFlavor.
    destruct (flavors t) as [|f fs] eqn:E; [congruence|].
    rewrite Hc. apply truthy_iff in Hnon. rewrite Hnon.
    apply array_includes_not_In in Hnin. now rewrite Hnin.
  - intros Hcli Hin. rewrite selectFlavor_no_cli by assumption.
    unfold select_without_cli. apply array_includes_In in Hin. now rewrite Hin.
  - intros Hcli Hnin f Hf. rewrite selectFlavor_no_cli by assumption.
    unfold select_without_cli. apply array_includes_not_In in Hnin.
    now rewrite Hnin, Hf.
  - intros Hcli Hnin Hlen ask Hask. rewrite selectFlavor_no_cli by assumption.
    unfold select_without_cli. apply array_includes_not_In in Hnin.
    rewrite Hnin, Hask. split.
    + destruct (flavors t) as [|f [|g fs]]; cbn [List.length] in *; try congruence.
      destruct (ask t) as [s|]; [|reflexivity].
      destruct (negb (truthy s)); [reflexivity|].
      now destruct (negb (array_includes (f :: g :: fs) s)).
    + intros s Hs Hnon Hin. rewrite Hs.
      apply truthy_iff in Hnon. apply array_includes_In in Hin. rewrite Hnon, Hin.
      destruct (flavors t) as [|f [|g fs]]; cbn [List.length] in *;
        [congruence | congruence | reflexivity].
Qed.

(** The cases of the test suite, through the theorem. *)
Lemma selectFlavor_precedence_witness :
  selectFlavor (sample ["ts"; "py"])
    (mkSelectionOptions (Some "py") "ts" (Some (fun _ => Some "ts")))
  = (Ok (mkSelection "py" Cli), [])
  /\ selectFlavor (sample ["ts"; "py"])
       (mkSelectionOptions None "ts" (Some (fun _ => Some "py")))
     = (Ok (mkSelection "ts" Default), [])
  /\ selectFlavor (sample ["py"])
       (mkSelectionOptions None "ts" (Some (fun _ => Some "py")))
     = (Ok (mkSelection "py" Only), [])
  /\ snd (selectFlavor (sample ["py"; "go"])
            (mkSelectionOptions None "ts" (Some (fun _ => Some "py"))))
     = [sample ["py"; "go"]]
  /\ fst (selectFlavor (sample ["py"; "go"])
            (mkSelectionOptions None "ts" (Some (fun _ => Some "py"))))
     = Ok (mkSelection "py" Prompt).
Proof.
  split; [|split; [|split]].
  - apply (selectFlavor_precedence (sample ["ts"; "py"])
             (mkSelectionOptions (Some "py") "ts" (Some (fun _ => Some "ts")))).
    + discriminate.
    + reflexivity.
    + discriminate.
    + simpl. auto.
  - apply (selectFlavor_precedence (sample ["ts"; "py"])
             (mkSelectionOptions None "ts" (Some (fun _ => Some "py")))).
    + discriminate.
    + now left.
    + simpl. auto.
  - apply (selectFlavor_precedence (sample ["py"])
             (mkSelectionOptions None "ts" (Some (fun _ => Some "py")))).
    + discriminate.
    + now left.
    + simpl. intros [H|[]]. discriminate.
    + reflexivity.
  - destruct (selectFlavor_precedence (sample ["py"; "go"])
                (mkSelectionOptions None "ts" (Some (fun _ => Some "py"))))
      as (_ & _ & _ & _ & Hprompt).
    + discriminate.
    + destruct (Hprompt (or_introl eq_refl)) with (ask := fun _ : TemplateInfo => Some "py")
        as [Hlog Hsel].
      * simpl. intros [H|[H|[]]]; discriminate.
      * simpl. discriminate.
      * reflexivity.
      * split; [exact Hlog|]. apply Hsel.
        -- reflexivity.
        -- discriminate.
        -- simpl. auto.
Defined.

(** C1, as stated, fails on the code in three places.  (a) An explicit
    flavor that is not in the list is an error, also when the default is
    in the list: this is the last case of the test suite.  (b) An empty
    [cliFlavor] is not selected even when the empty string is a flavor.
    (c) An empty answer of the prompt is a cancellation even when the
    empty string is a flavor. *)
Lemma selectFlavor_precedence_counterexample :
  (let t := sample ["ts"] in
   let o := mkSelectionOptions (Some "py") "ts" None in
   flavors t <> [] /\ ~ In "py" (flavors t) /\ In (defaultFlavor o) (flavors t)
   /\ fst (selectFlavor t o) <> Ok (mkSelection "ts" Default))
  /\ (let t := sample [""; "ts"] in
      let o := mkSelectionOptions (Some "") "ts" None in
      flavors t <> [] /\ In "" (flavors t)
      /\ selectFlavor t o = (Ok (mkSelection "ts" Default), []))
  /\ (let t := sample [""; "py"] in
      let o := mkSelectionOptions None "ts" (Some (fun _ => Some "")) in
      flavors t <> [] /\ ~ In (defaultFlavor o) (flavors t)
      /\ List.length (flavors t) <> 1 /\ In "" (flavors t)
      /\ selectFlavor t o = (Throw (new_Error "Flavor selection cancelled"), [t])).
Proof.
  cbv zeta. repeat split; simpl; try discriminate; auto.
  - intros [H|[]]; discriminate.
  - intros [H|[H|[]]]; discriminate.
Qed.

(** ** The messages of the failures *)

Lemma flavor_not_found_cli_lists (c : string) (t : TemplateInfo) :
  includes (flavor_not_found_cli c t) (join ", " (flavors t)) = true
  /\ includes (flavor_not_found_cli c t) "--list" = true.
Proof. unfold flavor_not_found_cli. split; find_piece. Qed.

Lemma flavor_not_found_prompt_lists (s : string) (t : TemplateInfo) :
  includes (flavor_not_found_prompt s t) (join ", " (flavors t)) = true.
Proof. unfold flavor_not_found_prompt. find_piece. Qed.

(** The two not-found messages differ for every non-empty selection: the
    first has one double quote more than its selection has, the second
    starts with one. *)
Lemma not_found_messages_differ (s : string) (t : TemplateInfo) :
  s <> "" -> flavor_not_found_prompt s t <> flavor_not_found_cli "" t.
Proof.
  intros Hs E. unfold flavor_not_found_prompt, flavor_not_found_cli in E.
  cbn [append dq] in E. injection E as E.
  assert (Hcount := f_equal (count_char (ascii_of_nat 34)) E).
  rewrite !count_char_append in Hcount. cbn in Hcount.
  rewrite !count_char_append in Hcount. cbn in Hcount.
  destruct s as [|c s]; [congruence|].
  cbn [append] in E. injection E as Hc _. subst c.
  cbn in Hcount. rewrite !count_char_append in Hcount. cbn in Hcount. lia.
Qed.

(** C10.  A call with the empty string for [cliFlavor] is the call
    without [cliFlavor], for every template, default and prompt; and when
    it fails, its error is not the not-found error of the [--flavor]
    check for the empty string. *)
Theorem selectFlavor_empty_cli_is_absent (t : TemplateInfo) (d : string)
  (p : option (TemplateInfo -> option string)) :
  selectFlavor t (mkSelectionOptions (Some "") d p)
  = selectFlavor t (mkSelectionOptions None d p)
  /\ forall e, fst (selectFlavor t (mkSelectionOptions (Some "") d p)) = Throw e ->
               message e <> flavor_not_found_cli "" t.
Proof.
  split.
  - unfold selectFlavor. now destruct (flavors t).
  - intros e. unfold selectFlavor. destruct (flavors t) as [|f fs] eqn:Efl.
    + cbn. intros [= <-]. cbn. unfold flavor_not_found_cli. discriminate.
    + cbn [cliFlavor truthy String.eqb negb]. unfold select_without_cli.
      cbn [defaultFlavor prompt]. rewrite Efl.
      destruct (array_includes (f :: fs) d); [discriminate|].
      destruct fs as [|g fs]; [discriminate|].
      destruct p as [ask|].
      * destruct (ask t) as [s|].
        -- destruct (truthy s) eqn:Hs; cbn [negb].
           ++ destruct (negb (array_includes (f :: g :: fs) s)); [|discriminate].
              cbn. intros [= <-]. cbn [message new_Error].
              apply not_found_messages_differ. now apply truthy_iff.
           ++ cbn. intros [= <-]. cbn. unfold flavor_not_found_cli. discriminate.
        -- cbn. intros [= <-]. cbn. unfold flavor_not_found_cli. discriminate.
      * cbn. intros [= <-]. cbn. unfold flavor_not_found_cli, selection_required.
        discriminate.
Qed.

(** C9, as the code has it.  Of the failures of a flavor selection, the
    one for a requested flavor that is not in the template's list has a
    message that enumerates the list and names [--list]; the one for a
    prompt answer that is not in the list enumerates the list; the one
    for a missing prompt names the template only; the cancellation has a
    fixed message. *)
Theorem flavor_error_messages (t : TemplateInfo) (o : FlavorSelectionOptions) :
  flavors t <> [] ->
  (forall c, cliFlavor o = Some c -> c <> "" -> ~ In c (flavors t) ->
     exists e, fst (selectFlavor t o) = Throw e
               /\ includes (message e) (join ", " (flavors t)) = true
               /\ includes (message e) "--list" = true)
  /\ (no_cli_flavor o -> ~ In (defaultFlavor o) (flavors t) ->
      List.length (flavors t) <> 1 ->
      (prompt o = None ->
         fst (selectFlavor t o) = Throw (new_Error (selection_required t)))
      /\ forall ask, prompt o = Some ask ->
           (ask t = None \/ ask t = Some "" ->
              fst (selectFlavor t o) = Throw (new_Error "Flavor selection cancelled"))
           /\ forall s, ask t = Some s -> s <> "" -> ~ In s (flavors t) ->
                fst (selectFlavor t o) = Throw (new_Error (flavor_not_found_prompt s t))
                /\ includes (flavor_not_found_prompt s t) (join ", " (flavors t)) = true).
Proof.
  intros Hne. split.
  - intros c Hc Hnon Hnin. unfold selectFlavor.
    destruct (flavors t) as [|f fs] eqn:Efl; [congruence|].
    rewrite Hc. apply truthy_iff in Hnon. rewrite Hnon.
    apply array_includes_not_In in Hnin. rewrite Hnin. cbn [negb fst].
    eexists. split; [reflexivity|]. cbn [message new_Error].
    rewrite <- Efl. apply flavor_not_found_cli_lists.
  - intros Hcli Hnin Hlen. rewrite selectFlavor_no_cli by assumption.
    unfold select_without_cli. apply array_includes_not_In in Hnin. rewrite Hnin.
    assert (Hmany : exists f g fs, flavors t = f :: g :: fs).
    { destruct (flavors t) as [|f [|g fs]]; cbn in *; try congruence. eauto. }
    destruct Hmany as (f & g & fs & Efl). split.
    + intros ->. now rewrite Efl.
    + intros ask ->. split.
      * intros [-> | ->]; now rewrite Efl.
      * intros s -> Hnon Hs. apply truthy_iff in Hnon.
        apply array_includes_not_In in Hs. rewrite Hnon, Hs, Efl. cbn [negb fst].
        split; [reflexivity|]. rewrite <- Efl. apply flavor_not_found_prompt_lists.
Qed.

Lemma flavor_error_messages_witness :
  (exists e, fst (selectFlavor (sample ["ts"]) (mkSelectionOptions (Some "py") "ts" None))
             = Throw e
             /\ includes (message e) "ts" = true
             /\ includes (message e) "--list" = true)
  /\ fst (selectFlavor (sample ["py"; "go"])
            (mkSelectionOptions None "ts" (Some (fun _ => Some "rb"))))
     = Throw (new_Error (flavor_not_found_prompt "rb" (sample ["py"; "go"]))).
Proof.
  split.
  - destruct (flavor_error_messages (sample ["ts"])
                (mkSelectionOptions (Some "py") "ts" None)) as [Hcli _].
    + discriminate.
    + apply (Hcli "py").
      * reflexivity.
      * discriminate.
      * simpl. intros [H|[]]. discriminate.
  - destruct (flavor_error_messages (sample ["py"; "go"])
                (mkSelectionOptions None "ts" (Some (fun _ => Some "rb"))))
      as [_ Hrest].
    + discriminate.
    + destruct Hrest as [_ Hask].
      * now left.
      * simpl. intros [H|[H|[]]]; discriminate.
      * simpl. discriminate.
      * destruct (Hask (fun _ => Some "rb") eq_refl) as [_ Hbad].
        apply (Hbad "rb" eq_refl).
        -- discriminate.
        -- simpl. intros [H|[H|[]]]; discriminate.
Defined.

(** C9, as stated, fails on the code: for the flavors [py] and [go] and
    the default [ts], the error for a missing prompt and the error of a
    cancelled prompt neither enumerate the flavors nor name [--list], and
    the error for an answer outside the list does not name [--list]. *)
Lemma flavor_error_messages_counterexample :
  let t := sample ["py"; "go"] in
  (exists e, fst (selectFlavor t (mkSelectionOptions None "ts" None)) = Throw e
             /\ includes (message e) (join ", " (flavors t)) = false
             /\ includes (message e) "--list" = false)
  /\ (exists e, fst (selectFlavor t (mkSelectionOptions None "ts" (Some (fun _ => None))))
                = Throw e
                /\ includes (message e) (join ", " (flavors t)) = false
                /\ includes (message e) "--list" = false)
  /\ (exists e, fst (selectFlavor t (mkSelectionOptions None "ts" (Some (fun _ => Some "rb"))))
                = Throw e
                /\ includes (message e) "--list" = false).
Proof.
  cbv zeta. repeat split; eexists; repeat split; vm_compute; reflexivity.
Qed.

(** ** The filesystem *)

Lemma alookup_aset_same {A : Type} (k : string) (v : A) (l : list (string * A)) :
  alookup k (aset k v l) = Some v.
Proof.
  induction l as [|[k' v'] l IH]; simpl.
  - now rewrite String.eqb_refl.
  - destruct (String.eqb k k') eqn:E; simpl.
    + now rewrite String.eqb_refl.
    + now rewrite E.
Qed.

Lemma alookup_aset_other {A : Type} (k k' : string) (v : A) (l : list (string * A)) :
  k <> k' -> alookup k' (aset k v l) = alookup k' l.
Proof.
  intros Hne. induction l as [|[k0 v0] l IH]; simpl.
  - apply String.eqb_neq in Hne. now rewrite String.eqb_sym, Hne.
  - destruct (String.eqb k k0) eqn:E; simpl.
    + apply String.eqb_eq in E. subst k0.
      apply String.eqb_neq in Hne. now rewrite String.eqb_sym, Hne.
    + now rewrite IH.
Qed.

Lemma is_prefix_refl (p : fspath) : is_prefix p p = true.
Proof. induction p as [|s p IH]; simpl; [reflexivity|]. now rewrite String.eqb_refl. Qed.

Lemma is_prefix_app (p q : fspath) : is_prefix p (p ++ q)%list = true.
Proof. induction p as [|s p IH]; simpl; [reflexivity|]. now rewrite String.eqb_refl. Qed.

Lemma is_prefix_spec (p q : fspath) :
  is_prefix p q = true <-> exists r, q = (p ++ r)%list.
Proof.
  revert q. induction p as [|s p IH]; intros q; simpl.
  - split; [intros _; now exists q | reflexivity].
  - destruct q as [|t q].
    + split; [discriminate | intros [r Hr]; discriminate].
    + rewrite andb_true_iff, String.eqb_eq, IH. split.
      * intros [-> [r ->]]. now exists r.
      * intros [r [= -> ->]]. split; [reflexivity | now exists r].
Qed.

(** What is found has all its ancestors, and they are directories. *)
Lemma resolve_app (p q : fspath) (fs : node) :
  resolve (p ++ q)%list fs =
  match resolve p fs with
  | Found n => resolve q n
  | Missing e => Missing e
  end.
Proof.
  revert fs. induction p as [|s p IH]; intros fs; simpl; [reflexivity|].
  destruct fs as [r d|r d|es]; [reflexivity|reflexivity|].
  destruct (alookup s es); [apply IH | reflexivity].
Qed.

Lemma resolve_file_below (r : bool) (d : string) (q : fspath) :
  q <> [] -> resolve q (File r d) = Missing ENOTDIR.
Proof. destruct q; [congruence | reflexivity]. Qed.

(** [put] succeeds exactly below a directory. *)
Lemma put_app_dir (d : fspath) (a : string) (new : node) (fs : node) (es : list (string * node)) :
  resolve d fs = Found (Dir es) ->
  exists fs', put (d ++ [a])%list new fs = Found fs'.
Proof.
  revert fs. induction d as [|s d IH]; intros fs; simpl.
  - intros [= ->]. destruct (alookup a es); eauto.
  - destruct fs as [r c|r c|es0]; [discriminate|discriminate|].
    destruct (alookup s es0) as [c|] eqn:E; [|discriminate].
    intros H. destruct (IH _ H) as [c' Hc']. rewrite Hc'. eauto.
Qed.

Lemma put_ancestor_dir (p : fspath) (new : node) (fs fs' : node) :
  put p new fs = Found fs' ->
  forall q r, p = (q ++ r)%list -> r <> [] -> exists es, resolve q fs = Found (Dir es).
Proof.
  revert fs fs'. induction p as [|s p IH]; intros fs fs' Hput q r Hp Hr.
  - destruct q; destruct r; simpl in Hp; congruence.
  - simpl in Hput. destruct fs as [rd c|rd c|es]; [discriminate|discriminate|].
    destruct q as [|t q]; [simpl; eauto|].
    simpl in Hp. injection Hp as <- ->. simpl.
    destruct (alookup s es) as [c|] eqn:E.
    + destruct (put (q ++ r)%list new c) as [c'|e] eqn:Ec; [|discriminate].
      eapply IH; eauto.
    + destruct q; destruct r; simpl in Hput; congruence.
Qed.

Lemma resolve_put_same (p : fspath) (new : node) (fs fs' : node) :
  put p new fs = Found fs' -> resolve p fs' = Found new.
Proof.
  revert fs fs'. induction p as [|s p IH]; intros fs fs'; simpl.
  - now intros [= ->].
  - destruct fs as [r c|r c|es]; [discriminate|discriminate|].
    destruct (alookup s es) as [c|] eqn:E.
    + destruct (put p new c) as [c'|e] eqn:Ec; [|discriminate].
      intros [= <-]. simpl. rewrite alookup_aset_same. eapply IH; eauto.
    + destruct p; [|discriminate]. intros [= <-]. simpl.
      now rewrite alookup_aset_same.
Qed.

(** A path that neither leads to the place of the [put] nor passes
    through it resolves as before. *)
Lemma resolve_put_apart (p : fspath) (new : node) (fs fs' : node) (q : fspath) :
  put p new fs = Found fs' ->
  is_prefix p q = false -> is_prefix q p = false ->
  resolve q fs' = resolve q fs.
Proof.
  revert fs fs' q. induction p as [|s p IH]; intros fs fs' q Hput Hpq Hqp.
  - discriminate.
  - destruct q as [|t q]; [discriminate|].
    simpl in Hput. destruct fs as [r c|r c|es]; [discriminate|discriminate|].
    simpl in Hpq, Hqp. destruct (String.eqb_spec s t) as [->|Hne].
    + rewrite String.eqb_refl in Hqp. simpl in Hpq, Hqp.
      destruct (alookup t es) as [c|] eqn:E.
      * destruct (put p new c) as [c'|e] eqn:Ec; [|discriminate].
        injection Hput as <-. simpl. rewrite alookup_aset_same, E.
        eapply IH; eauto.
      * destruct p; [|discriminate]. destruct q; discriminate.
    + assert (Hfs' : exists v, fs' = Dir (aset s v es)).
      { destruct (alookup s es) as [c|].
        - destruct (put p new c); [|discriminate]. injection Hput as <-. eauto.
        - destruct p; [|discriminate]. injection Hput as <-. eauto. }
      destruct Hfs' as [v ->]. simpl. now rewrite alookup_aset_other.
Qed.

Lemma resolve_prefix_found (p r : fspath) (fs : node) (n : node) :
  resolve (p ++ r)%list fs = Found n -> exists m, resolve p fs = Found m.
Proof.
  rewrite resolve_app. destruct (resolve p fs); [eauto | discriminate].
Qed.

(** Two paths with the same parent and different last names are apart. *)
Lemma siblings_apart (d : fspath) (a b : string) :
  a <> b -> is_prefix (d ++ [a])%list (d ++ [b])%list = false.
Proof.
  intros Hne. induction d as [|s d IH]; simpl.
  - apply String.eqb_neq in Hne. now rewrite Hne.
  - now rewrite String.eqb_refl.
Qed.

Lemma path_join_name (base : fspath) (s : string) :
  split_on "/" s = [s] -> s <> "" -> s <> "." -> s <> ".." ->
  path_join base s = (base ++ [s])%list.
Proof.
  intros Hs H1 H2 H3. unfold path_join. rewrite Hs. simpl. unfold path_step.
  apply String.eqb_neq in H1, H2, H3. now rewrite H1, H2, H3.
Qed.

Lemma pathExists_found (fs : node) (p : fspath) :
  pathExists fs p = true <-> exists n, resolve p fs = Found n.
Proof.
  unfold pathExists, fs_access. destruct (resolve p fs); split; eauto; try discriminate.
  intros [n H]. discriminate.
Qed.

Lemma pathExists_missing (fs : node) (p : fspath) :
  pathExists fs p = false <-> exists e, resolve p fs = Missing e.
Proof.
  unfold pathExists, fs_access. destruct (resolve p fs); split; eauto; try discriminate.
  intros [e' H]. discriminate.
Qed.

(** ** generator.ts: the target directory *)

Lemma validateTargetDir_file (fs : node) (targetPath : fspath) (n : node) :
  resolve targetPath fs = Found n -> is_file n = true ->
  validateTargetDir fs targetPath
  = Throw (new_Error ("Target path exists but is not a directory: "
                        ++ path_string targetPath)).
Proof.
  intros H Hn. unfold validateTargetDir, fs_stat. rewrite H.
  now destruct n as [r d|r d|es].
Qed.

Lemma validateTargetDir_nonempty (fs : node) (targetPath : fspath)
  (e : string * node) (es : list (string * node)) :
  resolve targetPath fs = Found (Dir (e :: es)) ->
  validateTargetDir fs targetPath
  = Throw (new_Error ("Target directory is not empty: " ++ path_string targetPath ++ nl
                        ++ "Please choose an empty directory or a new path.")).
Proof. intros H. unfold validateTargetDir, fs_stat, fs_readdir. now rewrite H. Qed.

Lemma validateTargetDir_free (fs : node) (targetPath : fspath) :
  resolve targetPath fs = Missing ENOENT \/ resolve targetPath fs = Found (Dir []) ->
  validateTargetDir fs targetPath = Ok tt.
Proof.
  intros [H|H]; unfold validateTargetDir, fs_stat, fs_readdir; now rewrite H.
Qed.

Section GeneratorTarget.

Variable JSON_parse : string -> option json.

(** Up to the check of the target, [generateProject] only reads. *)
Lemma generateProject_gates (options : GeneratorOptions) (fs : node) (err : Error) :
  pathExists fs (template_path_of JSON_parse fs options) = true ->
  validateTargetDir fs (targetDir options) = Throw err ->
  generateProject JSON_parse options fs = (Throw err, fs).
Proof.
  intros Htpl Hval. unfold generateProject, bind, read, try_catch, throw.
  unfold pathExists in Htpl.
  destruct (fs_access fs (template_path_of JSON_parse fs options)); [|discriminate].
  now rewrite Hval.
Qed.

Lemma generateProject_template_missing (options : GeneratorOptions) (fs : node) :
  pathExists fs (template_path_of JSON_parse fs options) = false ->
  generateProject JSON_parse options fs
  = (Throw (new_Error ("Template not found: " ++ templateId options ++ "/"
                         ++ flavor options ++ nl
                         ++ "Path: " ++ path_string (template_path_of JSON_parse fs options) ++ nl
                         ++ "Run with --list to see available templates.")), fs).
Proof.
  intros Htpl. unfold generateProject, bind, read, try_catch, throw.
  unfold pathExists in Htpl.
  now destruct (fs_access fs (template_path_of JSON_parse fs options)).
Qed.

(** C5, as the code has it.  When the target path is a file, or a
    directory with at least one entry, [generateProject] fails and leaves
    the filesystem as it was.  When moreover the template path exists, the
    error is the one of the target check, and for a non-empty directory
    its message contains "not empty"; when the template path does not
    exist the error is "Template not found", raised by the earlier
    check. *)
Theorem generateProject_rejects_occupied_target (options : GeneratorOptions) (fs : node) :
  (exists n, resolve (targetDir options) fs = Found n /\ is_file n = true)
  \/ (exists e es, resolve (targetDir options) fs = Found (Dir (e :: es))) ->
  exists err,
    generateProject JSON_parse options fs = (Throw err, fs)
    /\ (pathExists fs (template_path_of JSON_parse fs options) = true ->
        validateTargetDir fs (targetDir options) = Throw err
        /\ ((exists e es, resolve (targetDir options) fs = Found (Dir (e :: es))) ->
            includes (message err) "not empty" = true))
    /\ (pathExists fs (template_path_of JSON_parse fs options) = false ->
        startsWith (message err) "Template not found" = true).
Proof.
  intros Htarget.
  destruct (pathExists fs (template_path_of JSON_parse fs options)) eqn:Htpl.
  - destruct Htarget as [(n & H & Hn) | (e & es & H)].
    + eexists. split; [|split].
      * apply generateProject_gates; [exact Htpl|].
        eapply validateTargetDir_file; eauto.
      * intros _. split; [eapply validateTargetDir_file; eauto|].
        intros (e & es & H'). rewrite H in H'. injection H' as ->. discriminate.
      * discriminate.
    + eexists. split; [|split].
      * apply generateProject_gates; [exact Htpl|].
        eapply validateTargetDir_nonempty; eauto.
      * intros _. split; [eapply validateTargetDir_nonempty; eauto|].
        intros _. cbn [message new_Error]. find_piece.
      * discriminate.
  - eexists. split; [|split].
    + now apply generateProject_template_missing.
    + discriminate.
    + intros _. reflexivity.
Qed.

End GeneratorTarget.

Lemma generateProject_rejects_occupied_target_witness :
  exists err,
    generateProject no_json
      (mkGeneratorOptions ["test-non-empty"] "agent-on-sentinel" "ts" "test-non-empty"
         ["starters"] false) starters_and_target
    = (Throw err, starters_and_target)
    /\ includes (message err) "not empty" = true.
Proof.
  destruct (generateProject_rejects_occupied_target no_json
              (mkGeneratorOptions ["test-non-empty"] "agent-on-sentinel" "ts"
                 "test-non-empty" ["starters"] false) starters_and_target)
    as (err & Hrun & Hfound & _).
  - right. do 2 eexists. reflexivity.
  - exists err. split; [exact Hrun|].
    destruct Hfound as [_ Hmsg]; [reflexivity|].
    apply Hmsg. do 2 eexists. reflexivity.
Defined.

(** C5, as stated, fails on the code: with a non-empty target directory
    and a template that does not exist, the error is the one of the
    template check, and its message does not contain "not empty". *)
Lemma generateProject_rejects_occupied_target_counterexample :
  let options := mkGeneratorOptions ["test-non-empty"] "no-such-template" "ts"
                   "test-non-empty" ["starters"] false in
  (exists e es, resolve (targetDir options) starters_and_target = Found (Dir (e :: es)))
  /\ exists err,
       generateProject no_json options starters_and_target = (Throw err, starters_and_target)
       /\ includes (message err) "not empty" = false.
Proof.
  cbv zeta. split.
  - do 2 eexists. reflexivity.
  - eexists. split; [vm_compute; reflexivity | vm_compute; reflexivity].
Qed.

(** ** generator.ts: the environment files *)

Lemma resolve_put_below (p r : fspath) (new : node) (fs fs' : node) :
  put p new fs = Found fs' -> resolve (p ++ r)%list fs' = resolve r new.
Proof. intros H. rewrite resolve_app. now rewrite (resolve_put_same _ _ _ _ H). Qed.

Lemma resolve_put_parent (d : fspath) (a : string) (new : node) (fs fs' : node)
  (es : list (string * node)) :
  resolve d fs = Found (Dir es) ->
  put (d ++ [a])%list new fs = Found fs' ->
  resolve d fs' = Found (Dir (aset a new es)).
Proof.
  revert fs fs'. induction d as [|s d IH]; intros fs fs'; simpl.
  - intros [= ->]. destruct (alookup a es); now intros [= <-].
  - destruct fs as [r c|r c|es0]; [discriminate|discriminate|].
    destruct (alookup s es0) as [c|] eqn:E; [|discriminate].
    intros Hd. destruct (put (d ++ [a])%list new c) as [c'|e] eqn:Ec; [|discriminate].
    intros [= <-]. simpl. rewrite alookup_aset_same. eapply IH; eauto.
Qed.

Lemma resolve_child_of_dir (d : fspath) (a : string) (fs : node) (es : list (string * node)) :
  resolve d fs = Found (Dir es) ->
  resolve (d ++ [a])%list fs
  = match alookup a es with
    | Some c => Found c
    | None => Missing ENOENT
    end.
Proof. intros H. rewrite resolve_app, H. simpl. now destruct (alookup a es). Qed.

(** One round of the loop of [ensureEnvFiles] *)
Lemma ensureEnvFile_shape (templateDir destDir : fspath) (name : string) (fs : node) :
  let out := env_out destDir name in
  let tpl := env_template templateDir name in
  (pathExists fs out = true /\ ensureEnvFile templateDir destDir name fs = (Ok tt, fs))
  \/ (pathExists fs out = false /\ pathExists fs tpl = false
      /\ ensureEnvFile templateDir destDir name fs = (Ok tt, fs))
  \/ (pathExists fs out = false /\ pathExists fs tpl = true
      /\ ensureEnvFile templateDir destDir name fs = fs_copyFile tpl out fs).
Proof.
  cbv zeta. unfold ensureEnvFile. fold (env_out destDir name) (env_template templateDir name).
  destruct (pathExists fs (env_out destDir name)); [now left | right].
  destruct (pathExists fs (env_template templateDir name)); [now right | now left].
Qed.

Lemma readable_content_file (n : node) (c : string) :
  readable_content n = Some c -> is_file n = true.
Proof. destruct n as [[|] d|[|] d|es]; cbn; congruence. Qed.

Lemma readable_content_read (p : fspath) (fs : node) (n : node) (c : string) :
  resolve p fs = Found n -> readable_content n = Some c -> fs_readFile fs p = Ok c.
Proof.
  unfold fs_readFile. intros ->. destruct n as [[|] d|[|] d|es]; cbn; congruence.
Qed.

(** The copy of a file that can be read is the file. *)
Lemma copy_of_node (src : fspath) (fs : node) (n : node) (c : string) :
  resolve src fs = Found n -> readable_content n = Some c -> copy_of fs src c = n.
Proof.
  unfold copy_of, writable. intros ->.
  destruct n as [[|] d|[|] d|es]; cbn; congruence.
Qed.

(** [copyFile] changes nothing or puts the source, a file that can be
    read, at the destination. *)
Lemma fs_copyFile_shape (src dest : fspath) (fs : node) :
  (exists e, fs_copyFile src dest fs = (Throw e, fs))
  \/ (exists n c fs', resolve src fs = Found n /\ readable_content n = Some c
                       /\ put dest n fs = Found fs'
                       /\ fs_copyFile src dest fs = (Ok tt, fs')).
Proof.
  unfold fs_copyFile.
  destruct (fs_readFile fs src) as [c|e] eqn:Eread; [|left; eauto].
  assert (Hn : exists n, resolve src fs = Found n /\ readable_content n = Some c).
  { unfold fs_readFile in Eread.
    destruct (resolve src fs) as [[[|] d|[|] d|es]|e]; try discriminate;
      injection Eread as ->; eauto. }
  destruct Hn as (n & Hn & Hc). rewrite (copy_of_node _ _ _ _ Hn Hc).
  destruct (resolve dest fs) as [[r d|r d|es]|[]];
    try (left; eauto; fail);
    (destruct (put dest n fs) as [fs'|e'] eqn:Eput;
     [right; exists n, c, fs'; auto | left; eauto]).
Qed.

Lemma fs_copyFile_creates (src d : fspath) (a : string) (fs : node) (n : node) (c : string)
  (es : list (string * node)) :
  resolve src fs = Found n -> readable_content n = Some c ->
  resolve d fs = Found (Dir es) ->
  pathExists fs (d ++ [a])%list = false ->
  exists fs', put (d ++ [a])%list n fs = Found fs'
              /\ fs_copyFile src (d ++ [a])%list fs = (Ok tt, fs').
Proof.
  intros Hsrc Hc Hd Hout. destruct (put_app_dir d a n fs es Hd) as [fs' Hput].
  exists fs'. split; [exact Hput|].
  unfold fs_copyFile. rewrite (readable_content_read _ _ _ _ Hsrc Hc).
  rewrite (copy_of_node _ _ _ _ Hsrc Hc).
  apply pathExists_missing in Hout. destruct Hout as [e He].
  rewrite (resolve_child_of_dir _ _ _ _ Hd) in He |- *.
  destruct (alookup a es); [discriminate|]. now rewrite Hput.
Qed.

Lemma env_out_agent (destDir : fspath) : env_out destDir "agent" = (destDir ++ [".env.agent"])%list.
Proof. apply path_join_name; [reflexivity | discriminate ..]. Qed.

Lemma env_out_client (destDir : fspath) :
  env_out destDir "client" = (destDir ++ [".env.client"])%list.
Proof. apply path_join_name; [reflexivity | discriminate ..]. Qed.

Lemma env_template_agent (templateDir : fspath) :
  env_template templateDir "agent" = (templateDir ++ [".env.agent.template"])%list.
Proof. apply path_join_name; [reflexivity | discriminate ..]. Qed.

Lemma env_template_client (templateDir : fspath) :
  env_template templateDir "client" = (templateDir ++ [".env.client.template"])%list.
Proof. apply path_join_name; [reflexivity | discriminate ..]. Qed.

(** A file put under a new name leaves every path with another last name
    as it was, unless that path runs through the new file or was a
    directory above it. *)
Lemma resolve_put_other_name (d q : fspath) (a b : string) (new : node) (fs fs' : node) :
  a <> b ->
  pathExists fs (d ++ [a])%list = false ->
  put (d ++ [a])%list new fs = Found fs' ->
  (resolve (q ++ [b])%list fs' = resolve (q ++ [b])%list fs)
  \/ (exists r, r <> [] /\ resolve (q ++ [b])%list fs' = resolve r new
                /\ exists e, resolve (q ++ [b])%list fs = Missing e)
  \/ (exists es, resolve (q ++ [b])%list fs = Found (Dir es)).
Proof.
  intros Hab Hout Hput.
  destruct (is_prefix (d ++ [a])%list (q ++ [b])%list) eqn:Hpq.
  - right; left. apply is_prefix_spec in Hpq. destruct Hpq as [r Hr].
    assert (Hnil : r <> []).
    { intros ->. rewrite app_nil_r in Hr. apply app_inj_tail in Hr. intuition congruence. }
    exists r. split; [exact Hnil|]. rewrite Hr. split.
    + eapply resolve_put_below; eauto.
    + apply pathExists_missing in Hout. destruct Hout as [e He].
      rewrite resolve_app, He. eauto.
  - destruct (is_prefix (q ++ [b])%list (d ++ [a])%list) eqn:Hqp.
    + right; right. apply is_prefix_spec in Hqp. destruct Hqp as [r Hr].
      eapply put_ancestor_dir; [exact Hput | exact Hr |].
      intros ->. rewrite app_nil_r in Hr. apply app_inj_tail in Hr. intuition congruence.
    + left. eapply resolve_put_apart; eauto.
Qed.

(** What a round of the loop leaves of a path with another last name *)
Lemma ensureEnvFile_frame (templateDir destDir : fspath) (name : string) (a : string)
  (fs : node) (q : fspath) (b : string) (n : node) :
  env_out destDir name = (destDir ++ [a])%list ->
  a <> b ->
  resolve (q ++ [b])%list fs = Found n ->
  is_file n = true \/ q = destDir ->
  resolve (q ++ [b])%list (snd (ensureEnvFile templateDir destDir name fs)) = Found n.
Proof.
  intros Hout Hab Hq Hkind.
  destruct (ensureEnvFile_shape templateDir destDir name fs)
    as [[_ ->] | [(_ & _ & ->) | (Hnone & _ & ->)]]; try exact Hq.
  destruct (fs_copyFile_shape (env_template templateDir name) (env_out destDir name) fs)
    as [[e ->] | (n0 & c & fs' & _ & _ & Hput & ->)]; [exact Hq|].
  cbn [snd]. rewrite Hout in Hput, Hnone.
  destruct Hkind as [Hfile | ->].
  - destruct (resolve_put_other_name destDir q a b _ fs fs' Hab Hnone Hput)
      as [-> | [(r & _ & _ & e & He) | (es & Hes)]]; [exact Hq | congruence |].
    rewrite Hq in Hes. injection Hes as ->. discriminate.
  - rewrite (resolve_put_apart _ _ _ _ _ Hput); [exact Hq | |];
      now apply siblings_apart; congruence.
Qed.

Lemma env_template_ok_kept (a : string) (fs fs1 : node) (templateDir : fspath) (name b : string) :
  kept_apart_from a fs fs1 ->
  env_template templateDir name = (templateDir ++ [b])%list -> a <> b ->
  env_template_ok fs templateDir name -> env_template_ok fs1 templateDir name.
Proof.
  unfold env_template_ok. intros Hkeep -> Hab Hok.
  destruct (Hkeep templateDir b Hab) as [-> | [_ [e ->]]]; [|exact Hok|exact I].
  intros es E. now rewrite E in Hok.
Qed.

Lemma readable_content_ok (fs : node) (templateDir : fspath) (name : string) (n : node)
    (c : string) :
  resolve (env_template templateDir name) fs = Found n -> readable_content n = Some c ->
  env_template_ok fs templateDir name.
Proof.
  unfold env_template_ok. intros ->.
  destruct n as [[|] d|[|] d|es]; cbn; intros; try exact I; discriminate.
Qed.

(** A round of the loop, when the destination is a directory and the
    round has nothing to do or a template it can copy: the round
    returns, creates the file from the template when the file is missing
    and the template is there, and leaves the rest of the directory and
    what is no directory as they were. *)
Lemma ensureEnvFile_round (templateDir destDir : fspath) (name a : string) (fs : node)
  (es : list (string * node)) :
  env_out destDir name = (destDir ++ [a])%list ->
  resolve destDir fs = Found (Dir es) ->
  env_round_ok fs templateDir destDir name ->
  exists fs1,
    ensureEnvFile templateDir destDir name fs = (Ok tt, fs1)
    /\ (exists es1, resolve destDir fs1 = Found (Dir es1))
    /\ (forall n c, pathExists fs (destDir ++ [a])%list = false ->
                    resolve (env_template templateDir name) fs = Found n ->
                    readable_content n = Some c ->
                    resolve (destDir ++ [a])%list fs1 = Found n)
    /\ (forall b, a <> b ->
                  resolve (destDir ++ [b])%list fs1 = resolve (destDir ++ [b])%list fs)
    /\ kept_apart_from a fs fs1.
Proof.
  intros Hout Hd Hok.
  assert (Hsame : (exists es1, resolve destDir fs = Found (Dir es1))
                  /\ (forall b, a <> b ->
                        resolve (destDir ++ [b])%list fs = resolve (destDir ++ [b])%list fs)
                  /\ kept_apart_from a fs fs).
  { split; [eauto|]. split; [reflexivity|]. intros q b _ _. now left. }
  destruct Hsame as (H1 & H2 & H3).
  destruct (ensureEnvFile_shape templateDir destDir name fs)
    as [[Hex ->] | [(Hnone & Hnot & ->) | (Hnone & Htpl & ->)]].
  - exists fs. split; [reflexivity|].
    split; [exact H1|]. split; [|split; assumption].
    intros n c Hc. rewrite Hout in Hex. congruence.
  - exists fs. split; [reflexivity|].
    split; [exact H1|]. split; [|split; assumption].
    intros n c _ Hc. apply pathExists_missing in Hnot. destruct Hnot as [e He]. congruence.
  - destruct Hok as [Hex | Hok]; [congruence|].
    unfold env_template_ok in Hok. apply pathExists_found in Htpl.
    destruct Htpl as [n Hn]. rewrite Hn in Hok.
    assert (Hc : exists c, readable_content n = Some c)
      by (destruct n as [[|] c|[|] c|es']; try contradiction; cbn; eauto).
    destruct Hc as [c Hc].
    rewrite Hout in Hnone |- *.
    destruct (fs_copyFile_creates _ destDir a fs n c es Hn Hc Hd Hnone) as (fs1 & Hput & Hrun).
    exists fs1. split; [exact Hrun|]. split; [|split; [|split]].
    + eexists. eapply resolve_put_parent; eauto.
    + intros n' c' _ Hn' _. rewrite Hn in Hn'. injection Hn' as <-.
      eapply resolve_put_same; eauto.
    + intros b Hab. apply (resolve_put_apart _ _ _ _ _ Hput);
        apply siblings_apart; congruence.
    + intros q b Hab Hq.
      destruct (resolve_put_other_name destDir q a b _ fs fs1 Hab Hnone Hput)
        as [E | [(r & Hr & E & e & He) | (es' & Hes)]].
      * now left.
      * right. split; [eauto|]. rewrite E.
        apply readable_content_file in Hc.
        destruct r as [|x r]; [congruence|].
        destruct n as [r0 d0|r0 d0|es0]; [| |discriminate]; cbn [resolve]; eauto.
      * now apply Hq in Hes.
Qed.

(** The loop is the two rounds. *)
Lemma ensureEnvFiles_rounds_eq (templateDir destDir : fspath) (fs : node) :
  ensureEnvFiles templateDir destDir fs
  = match ensureEnvFile templateDir destDir "agent" fs with
    | (Ok _, fs1) =>
        match ensureEnvFile templateDir destDir "client" fs1 with
        | (Ok _, fs2) => (Ok tt, fs2)
        | (Throw e, fs2) => (Throw e, fs2)
        end
    | (Throw e, fs1) => (Throw e, fs1)
    end.
Proof.
  unfold ensureEnvFiles, for_each, bind, ret.
  destruct (ensureEnvFile templateDir destDir "agent" fs) as [[u|e] fs1]; [|reflexivity].
  now destruct (ensureEnvFile templateDir destDir "client" fs1) as [[u'|e] fs2].
Qed.

Lemma ensureEnvFiles_snd (templateDir destDir : fspath) (fs : node) :
  snd (ensureEnvFiles templateDir destDir fs)
  = match ensureEnvFile templateDir destDir "agent" fs with
    | (Ok _, fs1) => snd (ensureEnvFile templateDir destDir "client" fs1)
    | (Throw e, fs1) => fs1
    end.
Proof.
  rewrite ensureEnvFiles_rounds_eq.
  destruct (ensureEnvFile templateDir destDir "agent" fs) as [[u|e] fs1]; [|reflexivity].
  now destruct (ensureEnvFile templateDir destDir "client" fs1) as [[u'|e] fs2].
Qed.

(** C7.  [ensureEnvFiles] never changes an [.env.<name>] that is there,
    whatever the templates are.  An [.env.<name>] that is missing in a
    destination directory, while its template is a regular file that can
    be read, becomes that file, content and mode, with no substitution;
    for [.env.client] this needs the round of [agent] before it not to
    fail, which has then nothing to do or a template it can copy.  Where
    both rounds are so, the call returns. *)
Theorem ensureEnvFiles_non_destructive (templateDir destDir : fspath) (fs : node) :
  (forall name n, In name ["agent"; "client"] ->
     resolve (env_out destDir name) fs = Found n ->
     resolve (env_out destDir name) (snd (ensureEnvFiles templateDir destDir fs)) = Found n)
  /\ (forall name n c es, In name ["agent"; "client"] ->
        resolve destDir fs = Found (Dir es) ->
        pathExists fs (env_out destDir name) = false ->
        resolve (env_template templateDir name) fs = Found n ->
        readable_content n = Some c ->
        (name = "client" -> env_round_ok fs templateDir destDir "agent") ->
        resolve (env_out destDir name) (snd (ensureEnvFiles templateDir destDir fs))
        = Found n)
  /\ ((exists es, resolve destDir fs = Found (Dir es)) ->
      (forall name, In name ["agent"; "client"] ->
                    env_round_ok fs templateDir destDir name) ->
      fst (ensureEnvFiles templateDir destDir fs) = Ok tt).
Proof.
  split; [|split].
  - intros name n [<- | [<- | []]] Hn; rewrite ensureEnvFiles_snd.
    + (* agent: the first round finds the file, the second writes elsewhere *)
      destruct (ensureEnvFile_shape templateDir destDir "agent" fs)
        as [[_ ->] | [(Hnone & _) | (Hnone & _)]].
      * rewrite env_out_agent in Hn |- *.
        eapply ensureEnvFile_frame;
          [apply env_out_client | discriminate | exact Hn | now right].
      * apply pathExists_missing in Hnone. destruct Hnone as [e He]. congruence.
      * apply pathExists_missing in Hnone. destruct Hnone as [e He]. congruence.
    + (* client: the first round writes elsewhere, the second finds the file *)
      assert (H1 : resolve (env_out destDir "client")
                     (snd (ensureEnvFile templateDir destDir "agent" fs)) = Found n).
      { rewrite env_out_client in Hn |- *.
        eapply ensureEnvFile_frame;
          [apply env_out_agent | discriminate | exact Hn | now right]. }
      destruct (ensureEnvFile templateDir destDir "agent" fs) as [[u|e] fs1];
        cbn [snd] in H1; [|exact H1].
      destruct (ensureEnvFile_shape templateDir destDir "client" fs1)
        as [[_ ->] | [(Hnone & _) | (Hnone & _)]]; [exact H1 | |];
        apply pathExists_missing in Hnone; destruct Hnone as [e He]; congruence.
  - intros name n c es [<- | [<- | []]] Hd Hnone Htpl Hc Hagent; rewrite ensureEnvFiles_snd.
    + (* agent: made by the first round, and the second writes elsewhere *)
      destruct (ensureEnvFile_round templateDir destDir "agent" ".env.agent" fs es
                  (env_out_agent destDir) Hd
                  (or_intror (readable_content_ok _ _ _ _ _ Htpl Hc)))
        as (fs1 & Hrun1 & _ & Hmade1 & _).
      rewrite Hrun1. rewrite env_out_agent in Hnone |- *.
      eapply ensureEnvFile_frame;
        [apply env_out_client | discriminate | | now right].
      eapply Hmade1; eauto.
    + (* client: the first round returns, and leaves the template *)
      destruct (ensureEnvFile_round templateDir destDir "agent" ".env.agent" fs es
                  (env_out_agent destDir) Hd (Hagent eq_refl))
        as (fs1 & Hrun1 & [es1 Hd1] & _ & Hsib1 & Hkeep1).
      rewrite Hrun1. rewrite env_out_client in Hnone |- *.
      assert (Htpl1 : resolve (env_template templateDir "client") fs1 = Found n).
      { rewrite env_template_client in Htpl |- *.
        destruct (Hkeep1 templateDir ".env.client.template" ltac:(discriminate))
          as [-> | [[e He] _]]; [|exact Htpl|congruence].
        intros es' E. rewrite Htpl in E. injection E as ->. discriminate. }
      destruct (ensureEnvFile_round templateDir destDir "client" ".env.client" fs1 es1
                  (env_out_client destDir) Hd1
                  (or_intror (readable_content_ok _ _ _ _ _ Htpl1 Hc)))
        as (fs2 & Hrun2 & _ & Hmade2 & _).
      rewrite Hrun2. cbn [snd]. eapply Hmade2; eauto.
      unfold pathExists, fs_access in Hnone |- *.
      now rewrite Hsib1 by discriminate.
  - intros [es Hd] Hok. rewrite ensureEnvFiles_rounds_eq.
    destruct (ensureEnvFile_round templateDir destDir "agent" ".env.agent" fs es
                (env_out_agent destDir) Hd (Hok "agent" (or_introl eq_refl)))
      as (fs1 & Hrun1 & [es1 Hd1] & _ & Hsib1 & Hkeep1).
    assert (Hok1 : env_round_ok fs1 templateDir destDir "client").
    { destruct (Hok "client" (or_intror (or_introl eq_refl))) as [Hex | Ht].
      - left. rewrite env_out_client in Hex |- *.
        unfold pathExists, fs_access in Hex |- *. now rewrite Hsib1 by discriminate.
      - right. eapply env_template_ok_kept;
          [exact Hkeep1 | apply env_template_client | discriminate | exact Ht]. }
    destruct (ensureEnvFile_round templateDir destDir "client" ".env.client" fs1 es1
                (env_out_client destDir) Hd1 Hok1)
      as (fs2 & Hrun2 & _).
    now rewrite Hrun1, Hrun2.
Qed.

(** The test "does not overwrite existing env files", through the
    theorem. *)
Lemma ensureEnvFiles_non_destructive_witness :
  resolve ["target"; ".env.agent"]
    (snd (ensureEnvFiles ["template"] ["target"] env_fixture))
  = Found (File true "existing=keep")
  /\ resolve ["target"; ".env.client"]
       (snd (ensureEnvFiles ["template"] ["target"] env_fixture))
     = Found (File true "client=created").
Proof.
  destruct (ensureEnvFiles_non_destructive ["template"] ["target"] env_fixture)
    as (Hkeep & Hmake & _).
  split.
  - apply (Hkeep "agent"); [simpl; auto | reflexivity].
  - apply (Hmake "client" _ "client=created"
             [(".env.agent", File true "existing=keep")]);
      [simpl; auto | reflexivity | reflexivity | reflexivity | reflexivity |].
    intros _. left. reflexivity.
Defined.

(** C7, as stated, fails on the code: the creation needs more than a
    template that is there.  (a) The template of [agent] is a
    directory: the first round throws, and the [.env.client] that is
    missing is not made from the template that is there.  (b) The
    target directory is missing.  (c) The template cannot be read.  In
    each case the call throws and creates nothing. *)
Lemma ensureEnvFiles_non_destructive_counterexample :
  (pathExists env_blocked_fixture (env_out ["target"] "client") = false
   /\ resolve (env_template ["template"] "client") env_blocked_fixture
      = Found (File true "client=created")
   /\ fst (ensureEnvFiles ["template"] ["target"] env_blocked_fixture)
      = Throw (fs_error EISDIR "read" ["template"; ".env.agent.template"])
   /\ resolve (env_out ["target"] "client")
        (snd (ensureEnvFiles ["template"] ["target"] env_blocked_fixture))
      = Missing ENOENT)
  /\ (pathExists env_no_target_fixture (env_out ["target"] "agent") = false
      /\ resolve (env_template ["template"] "agent") env_no_target_fixture
         = Found (File true "agent=created")
      /\ fst (ensureEnvFiles ["template"] ["target"] env_no_target_fixture)
         = Throw (fs_error ENOENT "copyfile" ["target"; ".env.agent"])
      /\ snd (ensureEnvFiles ["template"] ["target"] env_no_target_fixture)
         = env_no_target_fixture)
  /\ (pathExists env_unreadable_fixture (env_out ["target"] "agent") = false
      /\ pathExists env_unreadable_fixture (env_template ["template"] "agent") = true
      /\ fst (ensureEnvFiles ["template"] ["target"] env_unreadable_fixture)
         = Throw (fs_error EACCES "open" ["template"; ".env.agent.template"])
      /\ snd (ensureEnvFiles ["template"] ["target"] env_unreadable_fixture)
         = env_unreadable_fixture).
Proof. repeat split. Qed.

(** ** Lines and trimming *)

Lemma split_lines_LF (r : string) : split_lines (String LF r) = "" :: split_lines r.
Proof. reflexivity. Qed.

Lemma split_lines_not_nil (s : string) : split_lines s <> [].
Proof.
  induction s as [|c r IH]; [discriminate|].
  cbn [split_lines]. destruct (Ascii.eqb c LF); [discriminate|].
  destruct r as [|c' r']; [discriminate|].
  destruct (Ascii.eqb c CR && Ascii.eqb c' LF); [discriminate|].
  destruct (split_lines (String c' r')); discriminate.
Qed.

(** Only the empty text has the one empty line. *)
Lemma split_lines_single_empty (s : string) : split_lines s = [""] -> s = "".
Proof.
  destruct s as [|c r]; [reflexivity|]. cbn [split_lines].
  destruct (Ascii.eqb c LF).
  - intros [= H]. now apply split_lines_not_nil in H.
  - destruct r as [|c' r']; [discriminate|].
    destruct (Ascii.eqb c CR && Ascii.eqb c' LF).
    + intros [= H]. now apply split_lines_not_nil in H.
    + destruct (split_lines (String c' r')); discriminate.
Qed.

Lemma map_last_cons {A : Type} (f : A -> A) (x : A) (l : list A) :
  l <> [] -> map_last f (x :: l) = x :: map_last f l.
Proof. destruct l; [congruence | reflexivity]. Qed.

Lemma map_last_In {A : Type} (f : A -> A) (l : list A) (x : A) :
  In x l -> In x (map_last f l) \/ In (f x) (map_last f l).
Proof.
  induction l as [|y l IH]; [contradiction|].
  destruct l as [|z l].
  - intros [<- | []]. right. now left.
  - intros [<- | H].
    + left. now left.
    + destruct (IH H) as [H'|H']; [left | right]; now right.
Qed.

Lemma drop_last_if_cons (d c : ascii) (l : string) :
  l <> "" -> drop_last_if d (String c l) = String c (drop_last_if d l).
Proof. destruct l; [congruence | reflexivity]. Qed.

Lemma drop_last_if_cases (d : ascii) (l : string) :
  drop_last_if d l = l \/ l = drop_last_if d l ++ String d "".
Proof.
  induction l as [|c l IH]; [now left|].
  destruct l as [|c' l'].
  - cbn. destruct (Ascii.eqb_spec c d) as [->|]; [now right | now left].
  - rewrite drop_last_if_cons by discriminate.
    destruct IH as [-> | E]; [now left | right]. cbn [append]. now rewrite <- E.
Qed.

Lemma split_lines_cons (c : ascii) (r : string) :
  split_lines (String c r)
  = if Ascii.eqb c LF then "" :: split_lines r
    else if Ascii.eqb c CR && starts_in (Ascii.eqb LF) r then "" :: split_lines (drop 1 r)
    else match split_lines r with
         | l :: ls => String c l :: ls
         | [] => [String c ""]
         end.
Proof.
  cbn [split_lines]. destruct (Ascii.eqb c LF); [reflexivity|].
  destruct r as [|c' r']; [now rewrite andb_false_r|].
  cbn [starts_in drop]. now rewrite (Ascii.eqb_sym LF c').
Qed.

(** The lines of a text that is continued on a new line: the lines of
    the text, its last line without a CR at its end, then the lines of
    the continuation. *)
Lemma split_lines_continued (a y : string) :
  split_lines (a ++ nl ++ y)
  = (map_last (drop_last_if CR) (split_lines a) ++ split_lines y)%list.
Proof.
  induction a as [|c r IH]; [reflexivity|].
  change (String c r ++ nl ++ y) with (String c (r ++ nl ++ y)).
  rewrite !split_lines_cons.
  destruct (Ascii.eqb c LF) eqn:Ec.
  - rewrite IH, map_last_cons by apply split_lines_not_nil. reflexivity.
  - destruct r as [|c' r'].
    + (* the text ends here, and the new line follows *)
      cbn [append nl starts_in drop split_lines map_last drop_last_if app].
      change (Ascii.eqb LF LF) with true. rewrite andb_true_r, andb_false_r.
      destruct (Ascii.eqb_spec c CR) as [->|Hc]; [reflexivity|].
      cbn [map_last drop_last_if app]. apply Ascii.eqb_neq in Hc. now rewrite Hc.
    + change (String c' r' ++ nl ++ y) with (String c' (r' ++ nl ++ y)) in *.
      cbn [starts_in drop].
      destruct (Ascii.eqb c CR && Ascii.eqb LF c') eqn:Ecr.
      * (* CR LF inside the text *)
        apply andb_true_iff in Ecr. destruct Ecr as [_ Ec'].
        apply Ascii.eqb_eq in Ec'. subst c'.
        rewrite !split_lines_LF in IH.
        rewrite map_last_cons in IH by apply split_lines_not_nil.
        injection IH as IH.
        change (r' ++ nl ++ y) with (r' ++ String LF y).
        rewrite IH, map_last_cons by apply split_lines_not_nil. reflexivity.
      * rewrite IH.
        destruct (split_lines (String c' r')) as [|l0 ls0] eqn:Er;
          [now apply split_lines_not_nil in Er|].
        destruct ls0 as [|l1 ls1].
        -- cbn [map_last app]. f_equal.
           destruct l0 as [|x l0]; [|reflexivity].
           now apply split_lines_single_empty in Er.
        -- reflexivity.
Qed.

Lemma trimEnd_snoc_space (s : string) (c : ascii) :
  is_space c = true -> trimEnd (s ++ String c "") = trimEnd s.
Proof.
  intros Hc. induction s as [|d s IH]; cbn [append trimEnd].
  - now rewrite Hc.
  - now rewrite IH.
Qed.

Lemma trimStart_snoc_space (s : string) (c : ascii) :
  is_space c = true ->
  trimStart (s ++ String c "")
  = match trimStart s with
    | "" => ""
    | t => t ++ String c ""
    end.
Proof.
  intros Hc. induction s as [|d s IH]; cbn [append trimStart].
  - now rewrite Hc.
  - destruct (is_space d); [exact IH | reflexivity].
Qed.

Lemma trim_snoc_space (s : string) (c : ascii) :
  is_space c = true -> trim (s ++ String c "") = trim s.
Proof.
  intros Hc. unfold trim. rewrite trimStart_snoc_space by exact Hc.
  destruct (trimStart s) as [|d t]; [reflexivity|].
  now apply trimEnd_snoc_space.
Qed.

Lemma trim_drop_CR (l : string) : trim (drop_last_if CR l) = trim l.
Proof.
  destruct (drop_last_if_cases CR l) as [-> | E]; [reflexivity|].
  rewrite E at 2. symmetry. now apply trim_snoc_space.
Qed.

(** A text that ends with a newline is a text followed by the newline. *)
Lemma endsWith_nl (s : string) : endsWith s nl = true -> exists a, s = a ++ nl.
Proof.
  unfold endsWith. intros H. apply andb_true_iff in H. destruct H as [_ H].
  apply String.eqb_eq in H. change (String.length nl) with 1 in H.
  induction s as [|c s IH]; [discriminate|].
  destruct s as [|c' s'].
  - exists "". exact H.
  - destruct IH as [a Ha].
    + cbn [String.length] in H |- *.
      replace (S (S (String.length s')) - 1) with (S (String.length s')) in H by lia.
      replace (S (String.length s') - 1) with (String.length s') by lia.
      exact H.
    + exists (String c a). cbn [append]. now rewrite <- Ha.
Qed.

(** ** generator.ts: the [.gitignore] *)

(** The set [existing] of the source holds an entry exactly when a line
    of the text, trimmed, is the entry. *)
Lemma existing_includes (lines : list string) (entry : string) :
  entry <> "" ->
  array_includes
    (filter (fun line => negb (Nat.eqb (String.length line) 0)) (map trim lines)) entry
  = existsb (fun line => String.eqb (trim line) entry) lines.
Proof.
  intros Hne. unfold array_includes.
  induction lines as [|l lines IH]; [reflexivity|].
  cbn [map filter existsb]. rewrite <- IH.
  destruct (trim l) as [|c t] eqn:El.
  - cbn. destruct entry; [congruence | reflexivity].
  - cbn [String.length Nat.eqb negb existsb]. now rewrite String.eqb_sym.
Qed.

Lemma gitignore_missing_eq (content : string) :
  filter (fun entry =>
            negb (array_includes
                    (filter (fun line => negb (Nat.eqb (String.length line) 0))
                       (map trim (split_lines content))) entry))
    gitignore_entries
  = filter (fun entry => negb (line_present content entry)) gitignore_entries.
Proof.
  unfold gitignore_entries, line_present. cbn [filter].
  rewrite !existing_includes by discriminate. reflexivity.
Qed.

Lemma line_present_iff (content entry : string) :
  line_present content entry = true
  <-> exists line, In line (split_lines content) /\ trim line = entry.
Proof.
  unfold line_present. rewrite existsb_exists.
  split; intros (l & Hl & E); exists l; (split; [exact Hl|]);
    now apply String.eqb_eq.
Qed.

(** The text with its separator is a text continued on a new line. *)
Lemma with_separator (content m : string) :
  exists a, content ++ (if endsWith content nl then "" else nl) ++ m = a ++ nl ++ m
            /\ (forall entry, entry <> "" -> line_present content entry = true ->
                  exists line, In line (map_last (drop_last_if CR) (split_lines a))
                               /\ trim line = entry).
Proof.
  destruct (endsWith content nl) eqn:E.
  - apply endsWith_nl in E. destruct E as [a ->]. exists a. split.
    + cbn [append]. now rewrite append_assoc.
    + intros entry Hne Hp. apply line_present_iff in Hp.
      destruct Hp as (line & Hin & Ht).
      replace (a ++ nl) with (a ++ nl ++ "") in Hin by reflexivity.
      rewrite split_lines_continued in Hin. apply in_app_or in Hin.
      destruct Hin as [Hin | [<- | []]]; [eauto|].
      cbn in Ht. congruence.
  - exists content. split; [reflexivity|].
    intros entry _ Hp. apply line_present_iff in Hp. destruct Hp as (line & Hin & Ht).
    destruct (map_last_In (drop_last_if CR) _ _ Hin) as [H|H]; [eauto|].
    eexists. split; [exact H|]. now rewrite trim_drop_CR.
Qed.

(** After the append, what was present is present, and so is what the
    appended text holds. *)
Lemma line_present_after_append (content m entry : string) :
  entry <> "" ->
  line_present content entry = true \/ line_present m entry = true ->
  line_present (content ++ (if endsWith content nl then "" else nl) ++ m) entry = true.
Proof.
  intros Hne H. destruct (with_separator content m) as (a & -> & Hold).
  apply line_present_iff. rewrite split_lines_continued.
  destruct H as [H|H].
  - destruct (Hold entry Hne H) as (line & Hin & Ht).
    exists line. split; [apply in_or_app; now left | exact Ht].
  - apply line_present_iff in H. destruct H as (line & Hin & Ht).
    exists line. split; [apply in_or_app; now right | exact Ht].
Qed.

(** Nothing is missing from the text the function has written. *)
Lemma gitignore_suffix_complete (content : string) :
  gitignore_suffix (content ++ gitignore_suffix content) = "".
Proof.
  unfold gitignore_suffix at 2.
  destruct (filter (fun entry => negb (line_present content entry)) gitignore_entries)
    as [|m ms] eqn:Em.
  - rewrite append_nil_r. unfold gitignore_suffix. now rewrite Em.
  - assert (Hall : forall entry, In entry gitignore_entries ->
              line_present (content ++ (if endsWith content nl then "" else nl)
                              ++ join nl (m :: ms) ++ nl) entry = true).
    { intros entry Hin. apply line_present_after_append.
      - destruct Hin as [<- | [<- | []]]; discriminate.
      - destruct (line_present content entry) eqn:Hp; [now left | right].
        assert (Hm : In entry (m :: ms)).
        { rewrite <- Em. apply filter_In. split; [exact Hin | now rewrite Hp]. }
        revert Em Hm. unfold gitignore_entries. cbn [filter].
        destruct (negb (line_present content ".env.agent"));
          destruct (negb (line_present content ".env.client"));
          intros [= <- <-] Hm; cbn in Hm;
          repeat (destruct Hm as [<- | Hm]; [reflexivity|]); contradiction. }
    unfold gitignore_suffix, gitignore_entries. cbn [filter].
    rewrite !Hall by (cbn; auto). reflexivity.
Qed.

Lemma put_existing (p : fspath) (new : node) (fs : node) (n : node) :
  resolve p fs = Found n -> exists fs', put p new fs = Found fs'.
Proof.
  revert fs. induction p as [|s p IH]; intros fs; simpl; [eauto|].
  destruct fs as [r c|r c|es]; [discriminate|discriminate|].
  destruct (alookup s es) as [c|]; [|discriminate].
  intros H. destruct (IH _ H) as [c' ->]. eauto.
Qed.

Lemma gitignore_path (destDir : fspath) :
  path_join destDir ".gitignore" = (destDir ++ [".gitignore"])%list.
Proof. apply path_join_name; [reflexivity | discriminate ..]. Qed.

(** The run of the function on a [.gitignore] that is a readable file *)
Lemma ensureGitignore_on_file (destDir : fspath) (fs : node) (content : string) :
  resolve (destDir ++ [".gitignore"])%list fs = Found (File true content) ->
  exists fs',
    ensureGitignoreHasEnvEntries destDir fs = (Ok tt, fs')
    /\ (gitignore_suffix content = "" -> fs' = fs)
    /\ (gitignore_suffix content <> "" ->
        put (destDir ++ [".gitignore"])%list
          (File true (content ++ gitignore_suffix content)) fs = Found fs').
Proof.
  intros Hgi. unfold ensureGitignoreHasEnvEntries. rewrite gitignore_path.
  unfold pathExists, fs_access, fs_readFile. rewrite Hgi. cbn [negb].
  rewrite gitignore_missing_eq. unfold gitignore_suffix.
  destruct (filter (fun entry => negb (line_present content entry)) gitignore_entries)
    as [|m ms].
  - exists fs. split; [reflexivity|]. split; [reflexivity | congruence].
  - destruct (put_existing _ (File true (content ++ (if endsWith content nl then "" else nl)
                                           ++ join nl (m :: ms) ++ nl)) fs _ Hgi)
      as [fs' Hput].
    exists fs'. unfold fs_writeFile. rewrite Hgi, Hput.
    split; [reflexivity|]. split; [|intros _; reflexivity].
    intros H. exfalso. destruct (endsWith content nl); destruct ms; destruct m; discriminate.
Qed.

(** The run of the function on a [.gitignore] that can be read and not
    written: it returns when nothing is missing, and else [writeFile]
    throws. *)
Lemma ensureGitignore_on_locked (destDir : fspath) (fs : node) (content : string) :
  resolve (destDir ++ [".gitignore"])%list fs = Found (Locked true content) ->
  ensureGitignoreHasEnvEntries destDir fs
  = (if String.eqb (gitignore_suffix content) "" then Ok tt
     else Throw (fs_error EACCES "open" (destDir ++ [".gitignore"])%list), fs).
Proof.
  intros Hgi. unfold ensureGitignoreHasEnvEntries. rewrite gitignore_path.
  unfold pathExists, fs_access, fs_readFile. rewrite Hgi. cbn [negb].
  rewrite gitignore_missing_eq. unfold gitignore_suffix.
  destruct (filter (fun entry => negb (line_present content entry)) gitignore_entries)
    as [|m ms]; [reflexivity|].
  unfold fs_writeFile. rewrite Hgi.
  destruct (endsWith content nl); destruct ms; destruct m; reflexivity.
Qed.

(** A [.gitignore] that is a directory, or a file that cannot be read,
    stops the function before it writes, and one that cannot be written
    where it writes, unless nothing is missing from it. *)
Lemma ensureGitignore_stuck (destDir : fspath) (fs : node) (n : node) :
  resolve (destDir ++ [".gitignore"])%list fs = Found n ->
  (exists content, n = File true content)
  \/ (exists content, n = Locked true content /\ gitignore_suffix content = ""
                      /\ ensureGitignoreHasEnvEntries destDir fs = (Ok tt, fs))
  \/ (exists e, ensureGitignoreHasEnvEntries destDir fs = (Throw e, fs)).
Proof.
  intros Hgi. destruct n as [[|] content|[|] content|es]; [left; eauto | | | |].
  2: { rewrite (ensureGitignore_on_locked _ _ _ Hgi).
       destruct (String.eqb_spec (gitignore_suffix content) "") as [E|E];
         [right; left; eauto | right; right; eauto]. }
  all: right; right;
    unfold ensureGitignoreHasEnvEntries; rewrite gitignore_path;
    unfold pathExists, fs_access, fs_readFile; rewrite Hgi; cbn [negb]; eauto.
Qed.

(** The run of the function where there is no [.gitignore] *)
Lemma ensureGitignore_on_nothing (destDir : fspath) (fs : node) :
  pathExists fs (destDir ++ [".gitignore"])%list = false ->
  ensureGitignoreHasEnvEntries destDir fs
  = fs_writeFile (destDir ++ [".gitignore"])%list
      (".env.agent" ++ nl ++ ".env.client" ++ nl) fs.
Proof.
  intros H. unfold ensureGitignoreHasEnvEntries. rewrite gitignore_path, H. reflexivity.
Qed.




(** ** templates.ts *)

Lemma valid_fs_dir (entries : list (string * node)) :
  valid_fs (Dir entries)
  = unique_names (map fst entries)
    && forallb (fun e => valid_name (fst e) && valid_fs (snd e)) entries.
Proof.
  cbn [valid_fs]. f_equal.
  induction entries as [|[k c] r IH]; [reflexivity|].
  cbn [forallb fst snd]. now rewrite <- IH.
Qed.

Lemma alookup_unique {A : Type} (k : string) (v : A) (l : list (string * A)) :
  unique_names (map fst l) = true -> In (k, v) l -> alookup k l = Some v.
Proof.
  induction l as [|[k' v'] l IH]; [contradiction|].
  cbn [map fst unique_names alookup]. intros Hu [E | Hin].
  - injection E as -> ->. now rewrite String.eqb_refl.
  - apply andb_true_iff in Hu. destruct Hu as [Hk Hu].
    destruct (String.eqb_spec k k') as [->|_]; [|now apply IH].
    exfalso. apply negb_true_iff in Hk.
    assert (Hex : existsb (String.eqb k') (map fst l) = true).
    { apply existsb_exists. exists k'. split; [|apply String.eqb_refl].
      change k' with (fst (k', v)). now apply in_map. }
    congruence.
Qed.

Lemma alookup_In {A : Type} (k : string) (v : A) (l : list (string * A)) :
  alookup k l = Some v -> In (k, v) l.
Proof.
  induction l as [|[k' v'] l IH]; [discriminate|]. cbn [alookup].
  destruct (String.eqb_spec k k') as [->|_].
  - intros [= ->]. now left.
  - intros H. right. now apply IH.
Qed.

Lemma valid_dir_entry (entries : list (string * node)) (k : string) (n : node) :
  valid_fs (Dir entries) = true -> In (k, n) entries ->
  valid_name k = true /\ valid_fs n = true /\ alookup k entries = Some n.
Proof.
  rewrite valid_fs_dir. intros Hv Hin. apply andb_true_iff in Hv. destruct Hv as [Hu Ha].
  rewrite forallb_forall in Ha. specialize (Ha _ Hin). cbn [fst snd] in Ha.
  apply andb_true_iff in Ha. destruct Ha as [Hk Hn].
  repeat split; try assumption. now apply alookup_unique.
Qed.

Lemma valid_fs_resolve (p : fspath) (fs n : node) :
  valid_fs fs = true -> resolve p fs = Found n -> valid_fs n = true.
Proof.
  revert fs. induction p as [|s p IH]; intros fs Hv; simpl.
  - now intros [= <-].
  - destruct fs as [r d|r d|es]; [discriminate|discriminate|].
    destruct (alookup s es) as [c|] eqn:E; [|discriminate].
    apply IH. apply alookup_In in E.
    now destruct (valid_dir_entry es s c Hv E) as (_ & Hc & _).
Qed.

Lemma split_on_no_sep (sep : ascii) (s : string) :
  all_chars (fun c => negb (Ascii.eqb c sep)) s = true -> split_on sep s = [s].
Proof.
  induction s as [|c r IH]; [reflexivity|]. cbn [all_chars split_on].
  intros H. apply andb_true_iff in H. destruct H as [Hc Hr].
  apply negb_true_iff in Hc. now rewrite Hc, (IH Hr).
Qed.

Lemma path_join_valid_name (base : fspath) (k : string) :
  valid_name k = true -> path_join base k = (base ++ [k])%list.
Proof.
  unfold valid_name. intros H.
  apply andb_true_iff in H. destruct H as [H Hs].
  apply andb_true_iff in H. destruct H as [H H3].
  apply andb_true_iff in H. destruct H as [H1 H2].
  apply negb_true_iff, String.eqb_neq in H1, H2, H3.
  apply path_join_name; try assumption. now apply split_on_no_sep.
Qed.


Lemma isDirectory_dir (fs : node) (p : fspath) :
  isDirectory fs p = true <-> exists es, resolve p fs = Found (Dir es).
Proof.
  unfold isDirectory, fs_stat. destruct (resolve p fs) as [[r d|r d|es]|e]; cbn; split;
    eauto; try discriminate; intros [es' H]; discriminate.
Qed.

Lemma directory_names_In (dirents : list (string * node)) (f : string) :
  In f (directory_names dirents) <-> exists es, In (f, Dir es) dirents.
Proof.
  unfold directory_names. rewrite in_map_iff. split.
  - intros ([k n] & <- & Hin). apply filter_In in Hin. destruct Hin as [Hin Hd].
    destruct n as [r d|r d|es]; [discriminate|discriminate|]. eauto.
  - intros [es Hin]. exists (f, Dir es). split; [reflexivity|].
    apply filter_In. now split.
Qed.

(** *** The loop over the declared flavors *)

Lemma surviving_flavors_spec (fs : node) (templatePath : fspath)
  (declared : list TemplateManifestFlavor) (acc : list string)
  (paths : list (string * string)) (f : string) :
  In f (fst (surviving_flavors fs templatePath declared acc paths)) ->
  In f acc
  \/ exists fl, In fl declared /\ flavor_id fl = f
                /\ isDirectory fs (path_join templatePath (relativePath_of fl)) = true.
Proof.
  revert acc paths. induction declared as [|fl rest IH]; intros acc paths; cbn [surviving_flavors].
  - now left.
  - destruct (isDirectory fs (path_join templatePath (relativePath_of fl))) eqn:Hd.
    + intros H. destruct (IH _ _ H) as [Hacc | (fl' & Hin & Hid & Hdir)].
      * apply in_app_or in Hacc. destruct Hacc as [Hacc | [<- | []]]; [now left|].
        right. exists fl. repeat split; [now left | exact Hd].
      * right. exists fl'. repeat split; [now right | exact Hid | exact Hdir].
    + intros H. destruct (IH _ _ H) as [Hacc | (fl' & Hin & Hid & Hdir)]; [now left|].
      right. exists fl'. repeat split; [now right | exact Hid | exact Hdir].
Qed.


Lemma templatesFromManifest_loop_spec (fs : node) (templatesDir : fspath)
  (entries : list TemplateManifestEntry) (t : TemplateInfo) :
  In t (templatesFromManifest_loop fs templatesDir entries) ->
  exists entry,
    In entry entries /\ entry_id entry = id t
    /\ path t = path_join templatesDir (entry_id entry)
    /\ isDirectory fs (path t) = true
    /\ flavors t <> []
    /\ flavors t = fst (surviving_flavors fs (path t) (entry_flavors entry) [] []).
Proof.
  induction entries as [|entry rest IH]; [contradiction|].
  cbn [templatesFromManifest_loop].
  assert (Hrest : In t (templatesFromManifest_loop fs templatesDir rest) ->
                  exists e, In e (entry :: rest) /\ entry_id e = id t
                    /\ path t = path_join templatesDir (entry_id e)
                    /\ isDirectory fs (path t) = true
                    /\ flavors t <> []
                    /\ flavors t = fst (surviving_flavors fs (path t) (entry_flavors e) [] [])).
  { intros H. destruct (IH H) as (e & Hin & Hrest). exists e. split; [now right | exact Hrest]. }
  destruct (isDirectory fs (path_join templatesDir (entry_id entry))) eqn:Hd;
    cbn [negb]; [|exact Hrest].
  destruct (surviving_flavors fs (path_join templatesDir (entry_id entry))
              (entry_flavors entry) [] []) as [fls paths] eqn:Es.
  destruct fls as [|f0 fls]; [exact Hrest|].
  intros [<- | H]; [|exact (Hrest H)].
  exists entry. cbn [id path flavors]. rewrite Es.
  repeat split; try reflexivity; [now left | exact Hd | discriminate].
Qed.

(** *** The scan *)

Lemma scanTemplates_loop_valid (fs : node) (templatesDir : fspath)
  (all rest : list (string * node)) :
  valid_fs (Dir all) = true ->
  resolve templatesDir fs = Found (Dir all) ->
  (forall e, In e rest -> In e all) ->
  scanTemplates_loop fs templatesDir rest = Ok (scanned_templates templatesDir rest).
Proof.
  intros Hv Hd. induction rest as [|[k n] rest IH]; intros Hsub; [reflexivity|].
  cbn [scanTemplates_loop scanned_templates flat_map fst snd].
  fold (scanned_templates templatesDir rest).
  rewrite IH by (intros e He; apply Hsub; now right).
  destruct (valid_dir_entry all k n Hv (Hsub _ (or_introl eq_refl))) as (Hk & _ & Hlook).
  destruct n as [r d|r d|flavorDirs]; [reflexivity|reflexivity|]. cbn [is_dir negb].
  rewrite (path_join_valid_name _ _ Hk).
  unfold fs_readdir. rewrite (resolve_child_of_dir _ _ _ _ Hd), Hlook.
  cbn [and_then]. unfold scanned_template. cbn [fst snd].
  now destruct (directory_names flavorDirs).
Qed.

Lemma scanTemplates_valid (fs : node) (startersPath : fspath) (entries : list (string * node)) :
  valid_fs fs = true ->
  resolve (startersPath ++ [TEMPLATES_DIR])%list fs = Found (Dir entries) ->
  scanTemplates fs startersPath
  = Ok (scanned_templates (startersPath ++ [TEMPLATES_DIR])%list entries).
Proof.
  intros Hv Hd. unfold scanTemplates.
  replace (path_join startersPath TEMPLATES_DIR) with (startersPath ++ [TEMPLATES_DIR])%list
    by (symmetry; apply path_join_name; [reflexivity | discriminate ..]).
  unfold fs_access, fs_readdir. rewrite Hd. cbn [and_then].
  apply (scanTemplates_loop_valid fs _ entries entries); auto.
  eapply valid_fs_resolve; eauto.
Qed.

Lemma scanned_templates_In (templatesDir : fspath) (entries : list (string * node))
  (t : TemplateInfo) :
  In t (scanned_templates templatesDir entries)
  <-> exists k flavorDirs,
        In (k, Dir flavorDirs) entries /\ directory_names flavorDirs <> []
        /\ t = mkTemplateInfo k (Some k) None (directory_names flavorDirs) None
                 (templatesDir ++ [k])%list None None None None None.
Proof.
  unfold scanned_templates. rewrite in_flat_map. split.
  - intros ([k n] & Hin & Ht). unfold scanned_template in Ht. cbn [fst snd] in Ht.
    destruct n as [r d|r d|flavorDirs]; [contradiction|contradiction|].
    destruct (directory_names flavorDirs) as [|f fl] eqn:E; [contradiction|].
    destruct Ht as [<- | []]. exists k, flavorDirs. rewrite E.
    repeat split; [exact Hin | discriminate].
  - intros (k & flavorDirs & Hin & Hne & ->). exists (k, Dir flavorDirs).
    split; [exact Hin|]. unfold scanned_template. cbn [fst snd].
    destruct (directory_names flavorDirs); [congruence | now left].
Qed.

Lemma templates_dir_path (startersPath : fspath) :
  path_join startersPath TEMPLATES_DIR = (startersPath ++ [TEMPLATES_DIR])%list.
Proof. apply path_join_name; [reflexivity | discriminate ..]. Qed.

Lemma manifest_path (startersPath : fspath) :
  getManifestPath startersPath
  = ((startersPath ++ [TEMPLATES_DIR]) ++ [MANIFEST_FILENAME])%list.
Proof.
  unfold getManifestPath. rewrite templates_dir_path.
  apply path_join_name; [reflexivity | discriminate ..].
Qed.

Lemma buildManifestWarning_prefix (startersPath : fspath) (error : Error) :
  startsWith (buildManifestWarning startersPath error) "Warning:" = true
  /\ includes (buildManifestWarning startersPath error) "Warning:" = true.
Proof.
  assert (H : startsWith (buildManifestWarning startersPath error) "Warning:" = true)
    by reflexivity.
  split; [exact H | now apply includes_of_prefix].
Qed.

Section DiscoveryProperties.

Variable JSON_parse : string -> option json.
Variable localeCompare : string -> string -> comparison.

Lemma insert_template_perm (t : TemplateInfo) (l : list TemplateInfo) :
  Permutation (insert_template localeCompare t l) (t :: l).
Proof.
  induction l as [|u l IH]; [reflexivity|]. cbn [insert_template].
  destruct (compare_templates localeCompare t u); try reflexivity.
  rewrite IH. apply perm_swap.
Qed.

(** [sortTemplates] only reorders. *)
Lemma sortTemplates_perm (l : list TemplateInfo) :
  Permutation (sortTemplates localeCompare l) l.
Proof.
  induction l as [|t l IH]; [reflexivity|].
  unfold sortTemplates in *. cbn [fold_right].
  rewrite insert_template_perm. now apply perm_skip.
Qed.

(** What the scan returns, when it returns, in a well-formed tree *)
Lemma scanTemplates_Ok (fs : node) (startersPath : fspath) (ts : list TemplateInfo) :
  valid_fs fs = true ->
  scanTemplates fs startersPath = Ok ts ->
  exists entries,
    resolve (startersPath ++ [TEMPLATES_DIR])%list fs = Found (Dir entries)
    /\ ts = scanned_templates (startersPath ++ [TEMPLATES_DIR])%list entries.
Proof.
  intros Hv Hscan.
  assert (Hd : exists entries,
             resolve (startersPath ++ [TEMPLATES_DIR])%list fs = Found (Dir entries)).
  { unfold scanTemplates in Hscan. rewrite templates_dir_path in Hscan.
    unfold fs_access, fs_readdir in Hscan.
    destruct (resolve (startersPath ++ [TEMPLATES_DIR])%list fs) as [[r d|r d|es]|e];
      try discriminate. eauto. }
  destruct Hd as [entries Hd]. exists entries. split; [exact Hd|].
  rewrite (scanTemplates_valid fs startersPath entries Hv Hd) in Hscan. congruence.
Qed.

(** The flavors of a scanned template are directories under it. *)
Lemma scanned_flavor_dir (fs : node) (templatesDir : fspath) (entries : list (string * node))
  (k : string) (flavorDirs : list (string * node)) :
  valid_fs fs = true ->
  resolve templatesDir fs = Found (Dir entries) ->
  In (k, Dir flavorDirs) entries ->
  isDirectory fs (templatesDir ++ [k])%list = true
  /\ forall f, In f (directory_names flavorDirs) ->
       isDirectory fs (path_join (templatesDir ++ [k])%list f) = true.
Proof.
  intros Hv Hd Hin.
  assert (Hvd : valid_fs (Dir entries) = true) by (eapply valid_fs_resolve; eauto).
  destruct (valid_dir_entry entries k _ Hvd Hin) as (_ & Hvk & Hlook).
  assert (Hk : resolve (templatesDir ++ [k])%list fs = Found (Dir flavorDirs)).
  { now rewrite (resolve_child_of_dir _ _ _ _ Hd), Hlook. }
  split; [apply isDirectory_dir; eauto|].
  intros f Hf. apply directory_names_In in Hf. destruct Hf as [es Hf].
  destruct (valid_dir_entry flavorDirs f _ Hvk Hf) as (Hname & _ & Hlookf).
  rewrite (path_join_valid_name _ _ Hname). apply isDirectory_dir. exists es.
  now rewrite (resolve_child_of_dir _ _ _ _ Hk), Hlookf.
Qed.


(** A manifest that is there and cannot be used makes
    [readTemplateManifest] throw. *)
Lemma readTemplateManifest_invalid (fs : node) (startersPath : fspath) (n : node)
    (raw : string) :
  resolve (getManifestPath startersPath) fs = Found n ->
  readable_content n = Some raw ->
  match JSON_parse raw with
  | None => True
  | Some parsed => exists e, normalizeManifest parsed (getManifestPath startersPath) = Throw e
  end ->
  exists error, readTemplateManifest JSON_parse fs startersPath = Throw error.
Proof.
  intros Hfile Hraw Hbad. unfold readTemplateManifest.
  rewrite (readable_content_read _ _ _ _ Hfile Hraw).
  destruct (JSON_parse raw) as [parsed|]; [|eauto].
  destruct Hbad as [e ->]. cbn. eauto.
Qed.

(** C4.  In a well-formed tree where [templates/manifest.json] is a
    file whose text [JSON.parse] rejects or [normalizeManifest] rejects,
    [discoverTemplates] returns; it calls [onWarning], when supplied,
    once, with a message that starts with "Warning:"; and its result is
    the sorted list of the templates of the directory convention, one
    for every subdirectory of [templates] that has a subdirectory, with
    the directory name as id and name, no description, and the
    subdirectories as flavors. *)
Theorem discoverTemplates_falls_back (fs : node) (startersPath : fspath)
  (options : TemplateDiscoveryOptions) (n : node) (raw : string) :
  valid_fs fs = true ->
  resolve (getManifestPath startersPath) fs = Found n ->
  readable_content n = Some raw ->
  match JSON_parse raw with
  | None => True
  | Some parsed => exists e, normalizeManifest parsed (getManifestPath startersPath) = Throw e
  end ->
  exists entries warning,
    resolve (startersPath ++ [TEMPLATES_DIR])%list fs = Found (Dir entries)
    /\ discoverTemplates JSON_parse localeCompare fs startersPath options
       = (Ok (sortTemplates localeCompare
                (scanned_templates (startersPath ++ [TEMPLATES_DIR])%list entries)),
          if onWarning options then [warning] else [])
    /\ includes warning "Warning:" = true
    /\ forall t,
         In t (sortTemplates localeCompare
                 (scanned_templates (startersPath ++ [TEMPLATES_DIR])%list entries))
         <-> exists k flavorDirs,
               In (k, Dir flavorDirs) entries /\ directory_names flavorDirs <> []
               /\ t = mkTemplateInfo k (Some k) None (directory_names flavorDirs) None
                        ((startersPath ++ [TEMPLATES_DIR]) ++ [k])%list
                        None None None None None.
Proof.
  intros Hv Hfile Hraw Hbad.
  destruct (readTemplateManifest_invalid fs startersPath n raw Hfile Hraw Hbad)
    as [error Hread].
  rewrite manifest_path in Hfile.
  destruct (resolve_prefix_found _ _ _ _ Hfile) as [m Hm].
  assert (Hd : exists entries, m = Dir entries).
  { rewrite resolve_app, Hm in Hfile.
    destruct m as [r d|r d|entries]; [discriminate | discriminate | eauto]. }
  destruct Hd as [entries ->].
  exists entries, (buildManifestWarning startersPath error).
  split; [exact Hm|]. split; [|split].
  - unfold discoverTemplates. rewrite Hread.
    now rewrite (scanTemplates_valid fs startersPath entries Hv Hm).
  - apply buildManifestWarning_prefix.
  - intros t. rewrite <- scanned_templates_In.
    split; apply Permutation_in;
      [apply sortTemplates_perm | symmetry; apply sortTemplates_perm].
Qed.

End DiscoveryProperties.


Lemma discoverTemplates_falls_back_witness :
  exists warning,
    discoverTemplates no_json compare_strings invalid_manifest_fixture ["starters"]
      (mkDiscoveryOptions true)
    = (Ok [mkTemplateInfo "sample-template" (Some "sample-template") None ["ts"] None
             ["starters"; "templates"; "sample-template"] None None None None None],
       [warning])
    /\ includes warning "Warning:" = true.
Proof.
  destruct (discoverTemplates_falls_back no_json compare_strings invalid_manifest_fixture
              ["starters"] (mkDiscoveryOptions true) (File true "{ invalid") "{ invalid"
              eq_refl eq_refl eq_refl I)
    as (entries & warning & Hd & Hrun & Hwarn & _).
  exists warning. injection Hd as <-. split; [exact Hrun | exact Hwarn].
Defined.

(** ** Occurrences and replacement *)

Lemma all_chars_append (p : ascii -> bool) (a b : string) :
  all_chars p (a ++ b) = all_chars p a && all_chars p b.
Proof.
  induction a as [|c a IH]; [reflexivity|]. cbn [append all_chars].
  now rewrite IH, andb_assoc.
Qed.

Lemma all_chars_head (p : ascii -> bool) (s : string) (c : ascii) :
  all_chars p s = true -> head_char s = Some c -> p c = true.
Proof.
  destruct s as [|d s]; [discriminate|]. cbn. intros H [= <-].
  now apply andb_true_iff in H.
Qed.

Lemma all_chars_last (p : ascii -> bool) (s : string) (c : ascii) :
  all_chars p s = true -> last_char s = Some c -> p c = true.
Proof.
  induction s as [|d s IH]; [discriminate|]. cbn [all_chars last_char].
  intros H. apply andb_true_iff in H. destruct H as [Hd Hs].
  destruct s as [|e s]; [now intros [= <-] | now apply IH].
Qed.

Lemma all_chars_imp (p q : ascii -> bool) (s : string) :
  (forall c, p c = true -> q c = true) -> all_chars p s = true -> all_chars q s = true.
Proof.
  intros Hpq. induction s as [|c s IH]; [reflexivity|]. cbn [all_chars].
  intros H. apply andb_true_iff in H. destruct H as [Hc Hs].
  now rewrite (Hpq _ Hc), (IH Hs).
Qed.

(** A prefix is a beginning. *)
Lemma prefix_split (t s : string) : prefix t s = true -> exists r, s = t ++ r.
Proof.
  revert s. induction t as [|c t IH]; intros s; [now exists s|].
  destruct s as [|d s]; [discriminate|]. rewrite prefix_cons.
  intros H. apply andb_true_iff in H. destruct H as [Hc Ht].
  apply Ascii.eqb_eq in Hc. subst d. destruct (IH _ Ht) as [r ->]. now exists r.
Qed.

Lemma prefix_drop (t s : string) : prefix t s = true -> s = t ++ drop (String.length t) s.
Proof.
  revert s. induction t as [|c t IH]; intros s; [reflexivity|].
  destruct s as [|d s]; [discriminate|]. rewrite prefix_cons.
  intros H. apply andb_true_iff in H. destruct H as [Hc Ht].
  apply Ascii.eqb_eq in Hc. subst d. cbn [String.length drop append]. now rewrite <- IH.
Qed.

Lemma prefix_append_l (t a b : string) : prefix t a = true -> prefix t (a ++ b) = true.
Proof.
  intros H. destruct (prefix_split _ _ H) as [r ->]. rewrite append_assoc.
  apply prefix_append.
Qed.

(** A beginning of two texts in a row is a beginning of the first, or it
    takes the whole first text and goes on into the second. *)
Lemma prefix_append_cases (t a b : string) :
  prefix t (a ++ b) = true ->
  prefix t a = true
  \/ exists t2, t = a ++ t2 /\ t2 <> "" /\ prefix t2 b = true.
Proof.
  revert t. induction a as [|c a IH]; intros t H.
  - destruct t as [|d t]; [left; apply prefix_nil|].
    right. exists (String d t). repeat split; [discriminate | exact H].
  - destruct t as [|d t]; [left; reflexivity|].
    cbn [append] in H. rewrite prefix_cons in H |- *.
    apply andb_true_iff in H. destruct H as [Hc Ht]. rewrite Hc. cbn [andb].
    destruct (IH _ Ht) as [Hp | (t2 & -> & Hne & Hp)]; [now left|].
    right. exists t2. apply Ascii.eqb_eq in Hc. subst d. now repeat split.
Qed.

Lemma includes_nil_false (t : string) : t <> "" -> includes "" t = false.
Proof. destruct t; [congruence | reflexivity]. Qed.

Lemma includes_cons_false (c : ascii) (s t : string) :
  includes (String c s) t = false
  <-> prefix t (String c s) = false /\ includes s t = false.
Proof.
  cbn [includes]. destruct (prefix t (String c s)); split; try discriminate.
  - intros [H _]. discriminate.
  - auto.
  - now intros [_ H].
Qed.

Lemma includes_append_l (a b t : string) :
  includes a t = true -> includes (a ++ b) t = true.
Proof.
  induction a as [|c a IH].
  - intros H. destruct t; [destruct b; reflexivity | discriminate].
  - intros H. destruct (includes (String c a ++ b) t) eqn:E; [reflexivity|].
    cbn [append] in E. apply includes_cons_false in E. destruct E as [Ep Ei].
    destruct (includes (String c a) t) eqn:E'; [|discriminate].
    cbn [includes] in E'. destruct (prefix t (String c a)) eqn:Hp.
    + apply (prefix_append_l _ _ b) in Hp. cbn [append] in Hp. congruence.
    + rewrite (IH E') in Ei. discriminate.
Qed.

Lemma includes_append_false (a b t : string) :
  includes (a ++ b) t = false -> includes a t = false /\ includes b t = false.
Proof.
  intros H. split.
  - destruct (includes a t) eqn:E; [|reflexivity].
    now rewrite (includes_append_l _ b _ E) in H.
  - destruct (includes b t) eqn:E; [|reflexivity].
    now rewrite (includes_append_r a _ _ E) in H.
Qed.

(** An occurrence is made of characters of the text. *)
Lemma includes_all_chars (p : ascii -> bool) (s t : string) :
  includes s t = true -> all_chars p s = true -> all_chars p t = true.
Proof.
  induction s as [|c s IH]; intros Hi Hs.
  - destruct t; [reflexivity | discriminate].
  - cbn [includes] in Hi. destruct (prefix t (String c s)) eqn:Hp.
    + destruct (prefix_split _ _ Hp) as [r Hr]. rewrite Hr, all_chars_append in Hs.
      now apply andb_true_iff in Hs.
    + cbn [all_chars] in Hs. apply andb_true_iff in Hs. now apply IH.
Qed.

Lemma last_char_cons (c : ascii) (s : string) :
  s <> "" -> last_char (String c s) = last_char s.
Proof. destruct s; [congruence | reflexivity]. Qed.

Lemma last_char_some (s : string) : s <> "" -> exists c, last_char s = Some c.
Proof.
  induction s as [|c s IH]; [congruence|]. intros _.
  destruct s as [|d s]; [now exists c|]. rewrite last_char_cons by discriminate.
  apply IH. discriminate.
Qed.

Lemma head_char_append (a b : string) : a <> "" -> head_char (a ++ b) = head_char a.
Proof. destruct a; [congruence | reflexivity]. Qed.

(** A token occurs in two texts in a row only where it occurs in one of
    them, when the seam keeps them apart. *)
Lemma includes_seam (a b t : string) :
  t <> "" -> all_chars token_char t = true ->
  includes a t = false -> includes b t = false ->
  apart_at_seam a b = true ->
  includes (a ++ b) t = false.
Proof.
  intros Hne Htok Ha Hb. induction a as [|c a IH]; intros Hseam; [exact Hb|].
  cbn [append]. apply includes_cons_false.
  apply includes_cons_false in Ha. destruct Ha as [Hpa Hia]. split.
  - destruct (prefix t (String c (a ++ b))) eqn:Hp; [exfalso | reflexivity].
    change (String c (a ++ b)) with (String c a ++ b) in Hp.
    destruct (prefix_append_cases _ _ _ Hp) as [Hp' | (t2 & Ht & Ht2 & Hp2)];
      [congruence|].
    rewrite Ht, all_chars_append in Htok. apply andb_true_iff in Htok.
    destruct Htok as [Htok1 Htok2].
    destruct (last_char_some (String c a)) as [x Hx]; [discriminate|].
    destruct t2 as [|y t2]; [congruence|].
    destruct b as [|y' b]; [discriminate|].
    rewrite prefix_cons in Hp2. apply andb_true_iff in Hp2. destruct Hp2 as [Hy _].
    apply Ascii.eqb_eq in Hy. subst y'.
    unfold apart_at_seam in Hseam. rewrite Hx in Hseam. cbn [head_char] in Hseam.
    rewrite (all_chars_last _ _ _ Htok1 Hx) in Hseam.
    cbn [all_chars] in Htok2. apply andb_true_iff in Htok2. destruct Htok2 as [Hy _].
    rewrite Hy in Hseam. discriminate.
  - apply IH; [exact Hia|].
    destruct a as [|d a]; [reflexivity|].
    unfold apart_at_seam in *. now rewrite last_char_cons in Hseam by discriminate.
Qed.

Lemma GetSubstitution_plain (v matched before after : string) :
  all_chars (fun c => negb (Ascii.eqb c "$")) v = true ->
  GetSubstitution v matched before after = v.
Proof.
  induction v as [|c v IH]; [reflexivity|]. cbn [all_chars GetSubstitution].
  intros H. apply andb_true_iff in H. destruct H as [Hc Hv].
  apply negb_true_iff in Hc. rewrite Hc. now rewrite IH.
Qed.

(** [find_first] splits the text at the first occurrence. *)
Lemma find_first_Some (pat s u rest : string) :
  pat <> "" ->
  find_first pat s = Some (u, rest) ->
  s = u ++ pat ++ rest /\ includes u pat = false.
Proof.
  intros Hne. revert u rest. induction s as [|c s IH]; intros u rest.
  - cbn [find_first]. destruct (prefix pat "") eqn:Hp; [|discriminate].
    destruct pat; [congruence | discriminate].
  - cbn [find_first]. destruct (prefix pat (String c s)) eqn:Hp.
    + intros [= <- <-]. split; [now apply prefix_drop | now apply includes_nil_false].
    + destruct (find_first pat s) as [[u' rest']|]; [|discriminate].
      intros [= <- <-]. destruct (IH _ _ eq_refl) as [Hs Hu]. split.
      * cbn [append]. now rewrite <- Hs.
      * apply includes_cons_false. split; [|exact Hu].
        destruct (prefix pat (String c u')) eqn:Hp'; [|reflexivity].
        apply (prefix_append_l _ _ (pat ++ rest')) in Hp'.
        cbn [append] in Hp'. rewrite <- Hs in Hp'. congruence.
Qed.

Lemma find_first_None (pat s : string) :
  find_first pat s = None -> includes s pat = false.
Proof.
  induction s as [|c s IH]; cbn [find_first includes].
  - now destruct (prefix pat "").
  - destruct (prefix pat (String c s)); [discriminate|].
    destruct (find_first pat s) as [[u rest]|]; [discriminate | auto].
Qed.

(** After [replaceAll] with an inert value, a token occurs in the text
    only if it occurred before, and the replaced token does not occur. *)
Lemma replaceAll_from_free (pat v t : string) :
  pat <> "" -> t <> "" -> all_chars token_char t = true ->
  inert v = true -> includes v t = false ->
  forall fuel s before,
    String.length s <= fuel ->
    t = pat \/ includes s t = false ->
    includes (replaceAll_from fuel pat v before s) t = false.
Proof.
  intros Hpat Ht Htok Hv Hvt.
  unfold inert in Hv. apply andb_true_iff in Hv. destruct Hv as [Hv Hend].
  apply andb_true_iff in Hv. destruct Hv as [Hv Hstart].
  apply andb_true_iff in Hv. destruct Hv as [Hvne Hplain].
  apply negb_true_iff, String.eqb_neq in Hvne.
  apply negb_true_iff in Hstart, Hend.
  induction fuel as [|fuel IH]; intros s before Hlen Hs.
  - destruct s; [|cbn in Hlen; lia]. now apply includes_nil_false.
  - cbn [replaceAll_from]. destruct (find_first pat s) as [[u rest]|] eqn:Hf.
    + destruct (find_first_Some _ _ _ _ Hpat Hf) as [Hsplit Hu].
      rewrite (GetSubstitution_plain _ _ _ _ Hplain).
      assert (Hparts : includes u t = false /\ (t = pat \/ includes rest t = false)).
      { destruct Hs as [-> | Hs]; [auto|].
        rewrite Hsplit in Hs. apply includes_append_false in Hs. destruct Hs as [Hu' Hr].
        apply includes_append_false in Hr. intuition. }
      destruct Hparts as [Hut Hrest].
      assert (Hrec : includes (replaceAll_from fuel pat v (before ++ u ++ pat) rest) t = false).
      { apply IH; [|exact Hrest].
        rewrite Hsplit, !length_append in Hlen.
        destruct pat; [congruence|]. cbn [String.length] in Hlen. lia. }
      apply includes_seam; try assumption.
      * apply includes_seam; try assumption.
        unfold apart_at_seam. destruct (last_char_some v Hvne) as [x Hx].
        unfold ends_in in Hend. rewrite Hx in Hend |- *. rewrite Hend.
        now destruct (head_char _).
      * unfold apart_at_seam. rewrite head_char_append by exact Hvne.
        destruct v as [|y v]; [congruence|]. cbn [starts_in head_char] in Hstart |- *.
        rewrite Hstart. destruct (last_char u); [apply orb_true_r | reflexivity].
    + destruct Hs as [-> | Hs]; [now apply find_first_None | exact Hs].
Qed.

Lemma replaceAll_free (s pat v t : string) :
  pat <> "" -> t <> "" -> all_chars token_char t = true ->
  inert v = true -> includes v t = false ->
  t = pat \/ includes s t = false ->
  includes (replaceAll s pat v) t = false.
Proof.
  intros Hpat Ht Htok Hv Hvt Hs. unfold replaceAll.
  destruct pat as [|c pat]; [congruence|].
  now apply replaceAll_from_free.
Qed.

(** *** Values that cannot be completed to the token *)

Lemma GetSubstitution_plain_template (v matched before after : string) :
  plain_template v = true -> GetSubstitution v matched before after = v.
Proof.
  induction v as [|c v IH]; [reflexivity|]. cbn [plain_template GetSubstitution].
  destruct (Ascii.eqb c "$").
  - destruct v as [|c' v']; [reflexivity|].
    intros H. apply andb_true_iff in H. destruct H as [Hc Hv].
    apply negb_true_iff in Hc.
    apply orb_false_iff in Hc. destruct Hc as [Hc H4].
    apply orb_false_iff in Hc. destruct Hc as [Hc H3].
    apply orb_false_iff in Hc. destruct Hc as [H1 H2].
    rewrite H1, H2, H3, H4. now rewrite (IH Hv).
  - intros Hv. now rewrite (IH Hv).
Qed.

Lemma plain_template_no_dollar (v : string) :
  all_chars (fun c => negb (Ascii.eqb c "$")) v = true -> plain_template v = true.
Proof.
  induction v as [|c v IH]; [reflexivity|]. cbn [all_chars plain_template].
  intros H. apply andb_true_iff in H. destruct H as [Hc Hv].
  apply negb_true_iff in Hc. rewrite Hc. now apply IH.
Qed.

Lemma find_first_None_iff (pat s : string) :
  find_first pat s = None <-> includes s pat = false.
Proof.
  split; [apply find_first_None|].
  induction s as [|c s IH]; cbn [find_first includes].
  - now destruct (prefix pat "").
  - destruct (prefix pat (String c s)); [discriminate|].
    intros H. now rewrite (IH H).
Qed.

(** With a plain value, [replaceAll] is the replacement of every
    occurrence by the value as it is. *)
Lemma replaceAll_from_plain (pat v : string) :
  plain_template v = true ->
  forall fuel s before,
    replaceAll_from fuel pat v before s = replace_each_from fuel pat v s.
Proof.
  intros Hv. induction fuel as [|fuel IH]; intros s before; [reflexivity|].
  cbn [replaceAll_from replace_each_from].
  destruct (find_first pat s) as [[u rest]|]; [|reflexivity].
  now rewrite (GetSubstitution_plain_template _ _ _ _ Hv), IH.
Qed.

Lemma replace_each_absent (s pat v : string) :
  includes s pat = false -> replace_each s pat v = s.
Proof.
  intros H. apply find_first_None_iff in H. unfold replace_each.
  destruct (String.length s); cbn [replace_each_from]; [reflexivity|]. now rewrite H.
Qed.

(** An occurrence in two texts in a row lies in one of them, or it
    begins in the first and ends in the second. *)
Lemma includes_append_cases (a b t : string) :
  includes (a ++ b) t = true ->
  includes a t = true \/ includes b t = true
  \/ exists t1 t2 x, t = t1 ++ t2 /\ t1 <> "" /\ t2 <> "" /\ a = x ++ t1
                      /\ prefix t2 b = true.
Proof.
  induction a as [|c a IH]; [auto|]. cbn [append]. intros H.
  destruct (prefix t (String c (a ++ b))) eqn:Hp.
  - change (String c (a ++ b)) with (String c a ++ b) in Hp.
    destruct (prefix_append_cases _ _ _ Hp) as [Hp' | (t2 & Ht & Ht2 & Hp2)].
    + left. now apply includes_of_prefix.
    + right; right. exists (String c a), t2, "". repeat split; auto. discriminate.
  - assert (H' : includes (a ++ b) t = true).
    { cbn [includes] in H. now rewrite Hp in H. }
    destruct (IH H') as [Ha | [Hb | (t1 & t2 & x & Ht & H1 & H2 & Hx & Hp2)]].
    + left. now apply includes_cons.
    + now right; left.
    + right; right. exists t1, t2, (String c x). repeat split; auto.
      cbn [append]. now rewrite <- Hx.
Qed.

(** Before the first occurrence, no occurrence begins. *)
Lemma find_first_early (pat s u rest : string) :
  pat <> "" ->
  find_first pat s = Some (u, rest) ->
  forall x y, u = x ++ y -> y <> "" -> prefix pat (y ++ pat ++ rest) = false.
Proof.
  intros Hne. revert u rest. induction s as [|c s IH]; intros u rest.
  - cbn [find_first]. destruct (prefix pat "") eqn:Hp; [|discriminate].
    destruct pat; [congruence | discriminate].
  - intros Hf. pose proof (find_first_Some _ _ _ _ Hne Hf) as [Hs _].
    cbn [find_first] in Hf. destruct (prefix pat (String c s)) eqn:Hp.
    + injection Hf as <- <-. intros x y Hxy Hy. destruct x; destruct y; try discriminate.
      congruence.
    + destruct (find_first pat s) as [[u' rest']|] eqn:Hf'; [|discriminate].
      injection Hf as <- <-. intros x y Hxy Hy. destruct x as [|d x].
      * cbn [append] in Hxy. subst y. now rewrite <- Hs.
      * cbn [append] in Hxy. injection Hxy as <- Hu. now apply (IH _ _ eq_refl x).
Qed.

Lemma splits_In (a b : string) : In (a, b) (splits (a ++ b)).
Proof.
  induction a as [|c a IH]; cbn [append].
  - destruct b; now left.
  - cbn [splits]. right. apply in_map_iff. exists (a, b). split; [reflexivity | exact IH].
Qed.

Lemma drop_append (a b : string) : drop (String.length a) (a ++ b) = b.
Proof. induction a as [|c a IH]; [now destruct b | exact IH]. Qed.

Lemma endsWith_append (x a : string) : endsWith (x ++ a) a = true.
Proof.
  unfold endsWith. rewrite length_append. apply andb_true_iff. split.
  - apply Nat.leb_le. lia.
  - replace (String.length x + String.length a - String.length a) with (String.length x)
      by lia.
    rewrite drop_append. apply String.eqb_refl.
Qed.

Lemma append_longer (v t : string) : t <> "" -> v <> v ++ t.
Proof.
  intros Ht E. apply (f_equal String.length) in E. rewrite length_append in E.
  destruct t; [congruence | cbn [String.length] in E; lia].
Qed.

(** A cut of the token that the value fits *)
Lemma completes_by_cut (token v a b : string) :
  token = a ++ b -> a <> "" -> b <> "" ->
  endsWith v a = true
  \/ (prefix token (a ++ token) = false
      /\ (prefix b v = true \/ (prefix v b = true /\ v <> b))) ->
  completes token v = true.
Proof.
  intros -> Ha Hb H. unfold completes. apply orb_true_iff. right.
  apply existsb_exists. exists (a, b). split; [apply splits_In|]. cbn [fst snd].
  apply String.eqb_neq in Ha, Hb. rewrite Ha, Hb. cbn [negb andb].
  destruct H as [-> | [-> [-> | [-> Hvb]]]]; [reflexivity | ..]; cbn [negb andb].
  - apply orb_true_r.
  - apply String.eqb_neq in Hvb. rewrite Hvb. cbn [negb andb]. now rewrite !orb_true_r.
Qed.

(** After the replacement by a value that cannot be completed to the
    token, the token does not occur. *)
Lemma replace_each_from_free (token v : string) :
  token <> "" -> completes token v = false ->
  forall fuel s,
    String.length s <= fuel ->
    includes (replace_each_from fuel token v s) token = false.
Proof.
  intros Hne Hv.
  assert (Hvne : v <> "").
  { intros ->. unfold completes in Hv. discriminate. }
  assert (Hvt : includes v token = false).
  { unfold completes in Hv. apply orb_false_iff in Hv. destruct Hv as [Hv _].
    now apply orb_false_iff in Hv. }
  induction fuel as [|fuel IH]; intros s Hlen.
  - destruct s; [|cbn in Hlen; lia]. now apply includes_nil_false.
  - cbn [replace_each_from]. destruct (find_first token s) as [[u rest]|] eqn:Hf;
      [|now apply find_first_None].
    destruct (find_first_Some _ _ _ _ Hne Hf) as [Hsplit Hu].
    pose proof (find_first_early _ _ _ _ Hne Hf) as Hearly.
    assert (Hrec : includes (replace_each_from fuel token v rest) token = false).
    { apply IH. rewrite Hsplit, !length_append in Hlen.
      destruct token; [congruence|]. cbn [String.length] in Hlen. lia. }
    set (r := replace_each_from fuel token v rest) in *.
    destruct (includes (u ++ v ++ r) token) eqn:E; [exfalso | reflexivity].
    destruct (includes_append_cases _ _ _ E)
      as [Hu' | [Hvr | (t1 & t2 & x & Ht & H1 & H2 & Hx & Hp)]]; [congruence | |].
    + destruct (includes_append_cases _ _ _ Hvr)
        as [Hv' | [Hr' | (t1 & t2 & x & Ht & H1 & H2 & Hx & Hp)]]; [congruence ..|].
      rewrite (completes_by_cut token v t1 t2 Ht H1 H2) in Hv; [discriminate|].
      left. rewrite Hx. apply endsWith_append.
    + assert (Hadm : prefix token (t1 ++ token) = false).
      { destruct (prefix token (t1 ++ token)) eqn:Hp1; [|reflexivity].
        apply (prefix_append_l _ _ rest) in Hp1. rewrite append_assoc in Hp1.
        rewrite (Hearly x t1 Hx H1) in Hp1. discriminate. }
      rewrite (completes_by_cut token v t1 t2 Ht H1 H2) in Hv; [discriminate|].
      right. split; [exact Hadm|].
      destruct (prefix_append_cases _ _ _ Hp) as [Hp' | (t3 & Ht3 & H3 & _)]; [now left|].
      right. rewrite Ht3. split; [apply prefix_append | now apply append_longer].
Qed.

Lemma replace_each_free (s token v : string) :
  token <> "" -> completes token v = false ->
  includes (replace_each s token v) token = false.
Proof. intros Hne Hv. now apply replace_each_from_free. Qed.

(** ** The sanitized names *)

Lemma pkg_char_not_token (c : ascii) : pkg_char c = true -> token_char c = false.
Proof. destruct c as [[] [] [] [] [] [] [] []]; vm_compute; congruence. Qed.

Lemma pkg_char_not_dollar (c : ascii) : pkg_char c = true -> negb (Ascii.eqb c "$") = true.
Proof. destruct c as [[] [] [] [] [] [] [] []]; vm_compute; congruence. Qed.

Lemma py_char_token (c : ascii) : py_char c = true -> token_char c = true -> c = "_"%char.
Proof. destruct c as [[] [] [] [] [] [] [] []]; vm_compute; congruence. Qed.

Lemma py_char_not_dollar (c : ascii) : py_char c = true -> negb (Ascii.eqb c "$") = true.
Proof. destruct c as [[] [] [] [] [] [] [] []]; vm_compute; congruence. Qed.

Lemma all_chars_filter (p : ascii -> bool) (s : string) : all_chars p (filter_str p s) = true.
Proof.
  induction s as [|c s IH]; [reflexivity|]. cbn [filter_str].
  destruct (p c) eqn:E; [|exact IH]. cbn [all_chars]. now rewrite E.
Qed.

Lemma all_chars_drop_first (p ok : ascii -> bool) (s : string) :
  all_chars p s = true -> all_chars p (drop_first_unless ok s) = true.
Proof.
  destruct s as [|c s]; [reflexivity|]. cbn [drop_first_unless].
  destruct (ok c); [auto|]. cbn [all_chars]. intros H. now apply andb_true_iff in H.
Qed.

Lemma all_chars_squeeze (p cls : ascii -> bool) (d : ascii) (s : string) :
  p d = true -> all_chars p s = true -> all_chars p (squeeze cls d s) = true.
Proof.
  intros Hd. induction s as [|c s IH]; [reflexivity|]. cbn [all_chars squeeze].
  intros H. apply andb_true_iff in H. destruct H as [Hc Hs].
  destruct (cls c); [destruct (starts_in cls s)|]; cbn [all_chars];
    rewrite ?Hd, ?Hc, ?(IH Hs); auto.
Qed.

Lemma all_chars_drop_last (p : ascii -> bool) (d : ascii) (s : string) :
  all_chars p s = true -> all_chars p (drop_last_if d s) = true.
Proof.
  induction s as [|c s IH]; [reflexivity|]. cbn [all_chars]. intros H.
  apply andb_true_iff in H. destruct H as [Hc Hs]. destruct s as [|c' s'].
  - cbn. destruct (Ascii.eqb c d); [reflexivity|]. cbn. now rewrite Hc.
  - rewrite drop_last_if_cons by discriminate. cbn [all_chars]. now rewrite Hc, (IH Hs).
Qed.

Lemma all_chars_strip_edges (p : ascii -> bool) (d : ascii) (s : string) :
  all_chars p s = true -> all_chars p (strip_edges d s) = true.
Proof.
  destruct s as [|c s]; [reflexivity|]. cbn [strip_edges]. intros H.
  destruct (Ascii.eqb c d); [|now apply all_chars_drop_last].
  cbn [all_chars] in H. apply andb_true_iff in H. now apply all_chars_drop_last.
Qed.

Lemma toPackageName_chars (name : string) : all_chars pkg_char (toPackageName name) = true.
Proof.
  unfold toPackageName. apply all_chars_strip_edges, all_chars_squeeze; [reflexivity|].
  apply all_chars_drop_first, all_chars_filter.
Qed.

Lemma toPythonPackage_chars (name : string) : all_chars py_char (toPythonPackage name) = true.
Proof.
  unfold toPythonPackage. apply all_chars_strip_edges, all_chars_squeeze; [reflexivity|].
  apply all_chars_drop_first, all_chars_filter.
Qed.

(** The runs of a character are squeezed to one. *)
Lemma squeeze_head (d : ascii) (s : string) :
  starts_in (Ascii.eqb d) (squeeze (Ascii.eqb d) d s) = starts_in (Ascii.eqb d) s.
Proof.
  induction s as [|c s IH]; [reflexivity|]. cbn [squeeze starts_in].
  destruct (Ascii.eqb d c) eqn:Ec.
  - destruct (starts_in (Ascii.eqb d) s) eqn:Es; [now rewrite IH|].
    cbn [starts_in]. apply Ascii.eqb_refl.
  - cbn [starts_in]. exact Ec.
Qed.

Lemma squeeze_no_double (d : ascii) (s : string) :
  no_double d (squeeze (Ascii.eqb d) d s) = true.
Proof.
  induction s as [|c s IH]; [reflexivity|]. cbn [squeeze].
  destruct (Ascii.eqb d c) eqn:Ec.
  - destruct (starts_in (Ascii.eqb d) s) eqn:Es; [exact IH|].
    cbn [no_double]. rewrite squeeze_head, Es, IH, andb_false_r. reflexivity.
  - cbn [no_double]. rewrite IH, (Ascii.eqb_sym c d), Ec. reflexivity.
Qed.

Lemma no_double_tail (d c : ascii) (s : string) :
  no_double d (String c s) = true -> no_double d s = true.
Proof. cbn [no_double]. intros H. now apply andb_true_iff in H. Qed.

Lemma drop_last_if_head (cls : ascii -> bool) (d : ascii) (s : string) :
  starts_in cls (drop_last_if d s) = true -> starts_in cls s = true.
Proof.
  destruct s as [|c s]; [discriminate|]. destruct s as [|c' s'].
  - cbn. now destruct (Ascii.eqb c d).
  - now rewrite drop_last_if_cons by discriminate.
Qed.

Lemma drop_last_if_empty (d : ascii) (s : string) :
  drop_last_if d s = "" -> s = "" \/ s = String d "".
Proof.
  destruct s as [|c s]; [now left|]. destruct s as [|c' s'].
  - cbn. destruct (Ascii.eqb_spec c d) as [->|]; [now right | discriminate].
  - rewrite drop_last_if_cons by discriminate. discriminate.
Qed.

Lemma drop_last_if_end (d : ascii) (s : string) :
  no_double d s = true -> ends_in (Ascii.eqb d) (drop_last_if d s) = false.
Proof.
  induction s as [|c s IH]; [reflexivity|]. intros Hnd. destruct s as [|c' s'].
  - cbn. destruct (Ascii.eqb c d) eqn:Ec; [reflexivity|].
    unfold ends_in. cbn. now rewrite Ascii.eqb_sym.
  - rewrite drop_last_if_cons by discriminate.
    specialize (IH (no_double_tail _ _ _ Hnd)).
    destruct (drop_last_if d (String c' s')) as [|x X] eqn:EX.
    + destruct (drop_last_if_empty _ _ EX) as [E|E]; [discriminate|].
      injection E as -> ->. unfold ends_in. cbn [last_char].
      destruct (Ascii.eqb_spec d c) as [<-|Hne]; [exfalso | reflexivity].
      cbn [no_double starts_in] in Hnd. rewrite !Ascii.eqb_refl in Hnd. discriminate.
    + unfold ends_in in *. now rewrite last_char_cons by discriminate.
Qed.

(** Without its edges, a text without doubles neither begins nor ends
    with the character. *)
Lemma strip_edges_clean (d : ascii) (s : string) :
  no_double d s = true ->
  starts_in (Ascii.eqb d) (strip_edges d s) = false
  /\ ends_in (Ascii.eqb d) (strip_edges d s) = false.
Proof.
  intros Hnd. destruct s as [|c s]; [now split|]. cbn [strip_edges].
  destruct (Ascii.eqb c d) eqn:Ec.
  - split; [|apply drop_last_if_end; eapply no_double_tail; eauto].
    destruct (starts_in (Ascii.eqb d) (drop_last_if d s)) eqn:E; [|reflexivity].
    apply drop_last_if_head in E. cbn [no_double] in Hnd. rewrite Ec, E in Hnd. discriminate.
  - split; [|now apply drop_last_if_end].
    destruct (starts_in (Ascii.eqb d) (drop_last_if d (String c s))) eqn:E; [|reflexivity].
    apply drop_last_if_head in E. cbn [starts_in] in E.
    rewrite Ascii.eqb_sym in E. congruence.
Qed.

Lemma starts_in_head (cls : ascii -> bool) (s : string) :
  starts_in cls s = true <-> exists c, head_char s = Some c /\ cls c = true.
Proof.
  destruct s as [|c s]; cbn; split; try discriminate.
  - intros (c & H & _). discriminate.
  - eauto.
  - now intros (c' & [= <-] & H).
Qed.

Lemma ends_in_last (cls : ascii -> bool) (s : string) :
  ends_in cls s = true <-> exists c, last_char s = Some c /\ cls c = true.
Proof.
  unfold ends_in. destruct (last_char s) as [c|]; split; try discriminate.
  - eauto.
  - now intros (c' & [= <-] & H).
  - intros (c & H & _). discriminate.
Qed.

(** The sanitized names, when they are not empty, are inert, and no
    token occurs in them. *)
Lemma toPackageName_inert (name : string) :
  toPackageName name <> "" -> inert (toPackageName name) = true.
Proof.
  intros Hne. pose proof (toPackageName_chars name) as Hc. unfold inert.
  apply String.eqb_neq in Hne. rewrite Hne. cbn [negb andb].
  rewrite (all_chars_imp _ _ _ pkg_char_not_dollar Hc). cbn [andb].
  assert (Hs : starts_in token_char (toPackageName name) = false).
  { destruct (starts_in token_char (toPackageName name)) eqn:E; [|reflexivity].
    apply starts_in_head in E. destruct E as (c & Hh & Ht).
    now rewrite (pkg_char_not_token _ (all_chars_head _ _ _ Hc Hh)) in Ht. }
  assert (He : ends_in token_char (toPackageName name) = false).
  { destruct (ends_in token_char (toPackageName name)) eqn:E; [|reflexivity].
    apply ends_in_last in E. destruct E as (c & Hl & Ht).
    now rewrite (pkg_char_not_token _ (all_chars_last _ _ _ Hc Hl)) in Ht. }
  now rewrite Hs, He.
Qed.

Lemma toPythonPackage_inert (name : string) :
  toPythonPackage name <> "" -> inert (toPythonPackage name) = true.
Proof.
  intros Hne. pose proof (toPythonPackage_chars name) as Hc. unfold inert.
  apply String.eqb_neq in Hne. rewrite Hne. cbn [negb andb].
  rewrite (all_chars_imp _ _ _ py_char_not_dollar Hc). cbn [andb].
  destruct (strip_edges_clean "_" _ (squeeze_no_double "_"
              (drop_first_unless is_lower
                 (filter_str py_char
                    (map_str hyphen_to_underscore
                       (squeeze is_space "_" (toLowerCase name)))))))
    as [Hhead Hlast].
  fold (toPythonPackage name) in Hhead, Hlast.
  assert (Hs : starts_in token_char (toPythonPackage name) = false).
  { destruct (starts_in token_char (toPythonPackage name)) eqn:E; [|reflexivity].
    apply starts_in_head in E. destruct E as (c & Hh & Ht).
    rewrite (py_char_token _ (all_chars_head _ _ _ Hc Hh) Ht) in Hh.
    assert (Hx : starts_in (Ascii.eqb "_") (toPythonPackage name) = true)
      by (apply starts_in_head; eauto).
    congruence. }
  assert (He : ends_in token_char (toPythonPackage name) = false).
  { destruct (ends_in token_char (toPythonPackage name)) eqn:E; [|reflexivity].
    apply ends_in_last in E. destruct E as (c & Hl & Ht).
    rewrite (py_char_token _ (all_chars_last _ _ _ Hc Hl) Ht) in Hl.
    assert (Hx : ends_in (Ascii.eqb "_") (toPythonPackage name) = true)
      by (apply ends_in_last; eauto).
    congruence. }
  now rewrite Hs, He.
Qed.

Lemma toPackageName_token_free (name t : string) :
  all_chars pkg_char t = false -> includes (toPackageName name) t = false.
Proof.
  intros Ht. destruct (includes (toPackageName name) t) eqn:E; [|reflexivity].
  rewrite (includes_all_chars _ _ _ E (toPackageName_chars name)) in Ht. discriminate.
Qed.

Lemma toPythonPackage_token_free (name t : string) :
  all_chars py_char t = false -> includes (toPythonPackage name) t = false.
Proof.
  intros Ht. destruct (includes (toPythonPackage name) t) eqn:E; [|reflexivity].
  rewrite (includes_all_chars _ _ _ E (toPythonPackage_chars name)) in Ht. discriminate.
Qed.

(** ** generator.ts: the substitution *)

Lemma substitute_content_steps (p1 v1 p2 v2 p3 v3 content : string) (modified : bool) :
  fst (substitute_content [(p1, v1); (p2, v2); (p3, v3)] content modified)
  = substitute_step (substitute_step (substitute_step content p1 v1) p2 v2) p3 v3.
Proof.
  unfold substitute_step. cbn [substitute_content].
  destruct (includes content p1);
    match goal with |- context [includes ?c p2] => destruct (includes c p2) end;
    match goal with |- context [includes ?c p3] => destruct (includes c p3) end;
    reflexivity.
Qed.

Lemma substitute_content_modified (substitutions : list (string * string))
  (content : string) :
  snd (substitute_content substitutions content true) = true.
Proof.
  revert content. induction substitutions as [|[p v] rest IH]; intros content;
    [reflexivity|].
  cbn [substitute_content]. destruct (includes content p); apply IH.
Qed.

Lemma substitute_content_unmodified (substitutions : list (string * string))
  (content : string) :
  snd (substitute_content substitutions content false) = false ->
  fst (substitute_content substitutions content false) = content.
Proof.
  revert content. induction substitutions as [|[p v] rest IH]; intros content;
    [reflexivity|].
  cbn [substitute_content]. destruct (includes content p); [|apply IH].
  now rewrite substitute_content_modified.
Qed.

Lemma substitute_step_free (content placeholder value t : string) :
  placeholder <> "" -> t <> "" -> all_chars token_char t = true ->
  inert value = true -> includes value t = false ->
  t = placeholder \/ includes content t = false ->
  includes (substitute_step content placeholder value) t = false.
Proof.
  intros Hp Ht Htok Hv Hvt Hc. unfold substitute_step.
  destruct (includes content placeholder) eqn:E; [now apply replaceAll_free|].
  destruct Hc as [-> | Hc]; assumption.
Qed.

Lemma inert_plain (v : string) : inert v = true -> plain_template v = true.
Proof.
  unfold inert. intros H. apply andb_true_iff in H. destruct H as [H _].
  apply andb_true_iff in H. destruct H as [H _].
  apply andb_true_iff in H. destruct H as [_ H].
  now apply plain_template_no_dollar.
Qed.

(** A round of the loop with a plain value replaces every occurrence of
    the placeholder by the value as it is. *)
Lemma substitute_step_replace_each (content placeholder value : string) :
  placeholder <> "" -> plain_template value = true ->
  substitute_step content placeholder value = replace_each content placeholder value.
Proof.
  intros Hp Hv. unfold substitute_step. destruct (includes content placeholder) eqn:E.
  - unfold replaceAll, replace_each. destruct placeholder; [congruence|].
    now apply replaceAll_from_plain.
  - symmetry. now apply replace_each_absent.
Qed.

(** After the loop of [substituteInFile], for a substitutable project
    name, no placeholder occurs in the content, and the content is what
    the three replacements make of the former content. *)
Lemma substitute_content_free (projectName content : string) :
  substitutable projectName = true ->
  let result := fst (substitute_content (buildSubstitutions projectName) content false) in
  includes result PROJECT_NAME = false
  /\ includes result PACKAGE_NAME = false
  /\ includes result PY_PACKAGE = false
  /\ result
     = replace_each
         (replace_each (replace_each content PROJECT_NAME projectName)
            PACKAGE_NAME (toPackageName projectName))
         PY_PACKAGE (toPythonPackage projectName).
Proof.
  intros Hok. unfold substitutable in Hok.
  apply andb_true_iff in Hok. destruct Hok as [Hok Hpy].
  apply andb_true_iff in Hok. destruct Hok as [Hok Hpkg].
  apply andb_true_iff in Hok. destruct Hok as [Hplain Hfree].
  apply negb_true_iff in Hfree. apply negb_true_iff, String.eqb_neq in Hpkg, Hpy.
  pose proof (toPackageName_inert _ Hpkg) as Hi2.
  pose proof (toPythonPackage_inert _ Hpy) as Hi3.
  cbv zeta. unfold buildSubstitutions. rewrite substitute_content_steps.
  set (c1 := substitute_step content PROJECT_NAME projectName).
  set (c2 := substitute_step c1 PACKAGE_NAME (toPackageName projectName)).
  assert (E1 : c1 = replace_each content PROJECT_NAME projectName)
    by (apply substitute_step_replace_each; [discriminate | exact Hplain]).
  assert (E2 : c2 = replace_each c1 PACKAGE_NAME (toPackageName projectName))
    by (apply substitute_step_replace_each; [discriminate | now apply inert_plain]).
  assert (H11 : includes c1 PROJECT_NAME = false).
  { rewrite E1. apply replace_each_free; [discriminate | exact Hfree]. }
  assert (H21 : includes c2 PROJECT_NAME = false).
  { apply substitute_step_free; auto; try discriminate.
    now apply toPackageName_token_free. }
  assert (H22 : includes c2 PACKAGE_NAME = false).
  { apply substitute_step_free; auto; try discriminate.
    now apply toPackageName_token_free. }
  split; [|split; [|split]];
    try (apply substitute_step_free; auto; try discriminate;
         now apply toPythonPackage_token_free).
  rewrite <- E1, <- E2. apply substitute_step_replace_each; [discriminate|].
  now apply inert_plain.
Qed.

(** *** The walk *)

Lemma substitute_node_dir (substitutions : list (string * string)) (filename : string)
  (entries : list (string * node)) :
  substitute_node substitutions filename (Dir entries)
  = if String.eqb filename "node_modules" || String.eqb filename ".git"
    then Dir entries
    else Dir (substitute_entries substitutions entries).
Proof.
  cbn [substitute_node].
  destruct (String.eqb filename "node_modules" || String.eqb filename ".git");
    [reflexivity|].
  f_equal. unfold substitute_entries.
  induction entries as [|[k c] r IH]; [reflexivity|].
  cbn [map fst snd]. now rewrite <- IH.
Qed.

Lemma alookup_substitute (substitutions : list (string * string)) (k : string)
  (entries : list (string * node)) :
  alookup k (substitute_entries substitutions entries)
  = option_map (substitute_node substitutions k) (alookup k entries).
Proof.
  unfold substitute_entries. induction entries as [|[k' c] r IH]; [reflexivity|].
  cbn [map alookup fst snd]. destruct (String.eqb_spec k k') as [->|_]; [reflexivity|].
  exact IH.
Qed.

Lemma substituteInFile_is_file (filename : string) (substitutions : list (string * string))
  (r : bool) (data : string) :
  exists data', substituteInFile filename substitutions (File r data) = File r data'.
Proof.
  unfold substituteInFile. destruct (isBinaryFile filename BINARY_EXTENSIONS); [eauto|].
  destruct r; [|eauto].
  destruct (substitute_content substitutions data false) as [c [|]]; eauto.
Qed.

(** A file that cannot be written stays as it is. *)
Lemma substituteInFile_locked (filename : string) (substitutions : list (string * string))
  (r : bool) (data : string) :
  substituteInFile filename substitutions (Locked r data) = Locked r data.
Proof.
  unfold substituteInFile. destruct (isBinaryFile filename BINARY_EXTENSIONS); [reflexivity|].
  now destruct r.
Qed.

(** A path that does not pass through [node_modules] or [.git] leads,
    after the walk, to what the walk made of the node it led to. *)
Lemma resolve_substitute (substitutions : list (string * string)) (rel : fspath)
  (filename : string) (entries : list (string * node)) :
  (forall d, In d rel -> d <> "node_modules" /\ d <> ".git") ->
  resolve (rel ++ [filename])%list (Dir (substitute_entries substitutions entries))
  = match resolve (rel ++ [filename])%list (Dir entries) with
    | Found n => Found (substitute_node substitutions filename n)
    | Missing e => Missing e
    end.
Proof.
  revert entries. induction rel as [|d rel IH]; intros entries Hrel.
  - cbn [app resolve]. rewrite alookup_substitute.
    now destruct (alookup filename entries).
  - cbn [app resolve]. rewrite alookup_substitute.
    destruct (alookup d entries) as [[r data|r data|sub]|]; cbn [option_map];
      [| |  |reflexivity].
    + cbn [substitute_node].
      destruct (substituteInFile_is_file d substitutions r data) as [data' ->].
      now destruct rel.
    + cbn [substitute_node]. rewrite substituteInFile_locked. now destruct rel.
    + rewrite substitute_node_dir.
      destruct (Hrel d (or_introl eq_refl)) as [H1 H2].
      apply String.eqb_neq in H1, H2. rewrite H1, H2. cbn [orb].
      apply IH. intros d' Hd'. apply Hrel. now right.
Qed.

(** C6, as the code has it.  For a substitutable project name (one in
    which [replaceAll] expands nothing, which nothing around it can
    complete to [__PROJECT_NAME__], and whose sanitized forms are not
    empty), [substituteInDirectory] on a directory returns, and
    afterwards every file under it that can be read and written, whose
    path does not pass through [node_modules] or [.git] and whose
    extension is not binary, holds none of the three placeholders: its
    content is its former content with every occurrence of each
    placeholder replaced by the value of the placeholder.  A file that
    cannot be written is as it was. *)
Theorem substituteInDirectory_leaves_no_placeholder (fs : node) (dirPath : fspath)
  (projectName : string) (entries : list (string * node)) :
  substitutable projectName = true ->
  resolve dirPath fs = Found (Dir entries) ->
  exists fs',
    substituteInDirectory dirPath (buildSubstitutions projectName) fs = (Ok tt, fs')
    /\ (forall rel filename content,
          (forall d, In d rel -> d <> "node_modules" /\ d <> ".git") ->
          isBinaryFile filename BINARY_EXTENSIONS = false ->
          resolve (dirPath ++ rel ++ [filename])%list fs' = Found (File true content) ->
          includes content PROJECT_NAME = false
          /\ includes content PACKAGE_NAME = false
          /\ includes content PY_PACKAGE = false
          /\ exists original,
               resolve (dirPath ++ rel ++ [filename])%list fs = Found (File true original)
               /\ content
                  = replace_each
                      (replace_each (replace_each original PROJECT_NAME projectName)
                         PACKAGE_NAME (toPackageName projectName))
                      PY_PACKAGE (toPythonPackage projectName))
    /\ (forall rel filename r content,
          (forall d, In d rel -> d <> "node_modules" /\ d <> ".git") ->
          resolve (dirPath ++ rel ++ [filename])%list fs = Found (Locked r content) ->
          resolve (dirPath ++ rel ++ [filename])%list fs' = Found (Locked r content)).
Proof.
  intros Hok Hdir.
  destruct (put_existing dirPath
              (Dir (substitute_entries (buildSubstitutions projectName) entries)) fs _ Hdir)
    as [fs' Hput].
  exists fs'. split; [|split].
  - unfold substituteInDirectory, fs_readdir. now rewrite Hdir, Hput.
  - intros rel filename content Hrel Hbin Hfile.
    rewrite (resolve_put_below _ _ _ _ _ Hput), resolve_substitute in Hfile by exact Hrel.
    rewrite resolve_app, Hdir.
    destruct (resolve (rel ++ [filename])%list (Dir entries)) as [[r data|r data|sub]|e];
      [| | |discriminate].
    + cbn [substitute_node] in Hfile. unfold substituteInFile in Hfile.
      rewrite Hbin in Hfile. destruct r; [|discriminate].
      assert (Hc : content
                   = fst (substitute_content (buildSubstitutions projectName) data false)).
      { destruct (substitute_content (buildSubstitutions projectName) data false)
          as [c m] eqn:E.
        destruct m; injection Hfile as <-; [reflexivity|].
        symmetry. replace c with (fst (substitute_content
                                         (buildSubstitutions projectName) data false))
          by now rewrite E.
        apply substitute_content_unmodified. now rewrite E. }
      destruct (substitute_content_free projectName data Hok) as (H1 & H2 & H3 & H4).
      rewrite <- Hc in H1, H2, H3, H4. repeat split; try assumption.
      exists data. now split.
    + cbn [substitute_node] in Hfile. rewrite substituteInFile_locked in Hfile.
      discriminate.
    + rewrite substitute_node_dir in Hfile.
      now destruct (String.eqb filename "node_modules" || String.eqb filename ".git").
  - intros rel filename r content Hrel Hfile.
    rewrite (resolve_put_below _ _ _ _ _ Hput), resolve_substitute by exact Hrel.
    rewrite resolve_app, Hdir in Hfile. rewrite Hfile.
    cbn [substitute_node]. now rewrite substituteInFile_locked.
Qed.

(** The scenario of the test suite: the project [my-awesome-project]. *)
Lemma substituteInDirectory_leaves_no_placeholder_witness :
  exists fs',
    substituteInDirectory ["my-awesome-project"] (buildSubstitutions "my-awesome-project")
      generated_fixture = (Ok tt, fs')
    /\ resolve ["my-awesome-project"; "src"; "main.py"] fs'
       = Found (File true "import my_awesome_project")
    /\ includes "import my_awesome_project" PY_PACKAGE = false.
Proof.
  destruct (substituteInDirectory_leaves_no_placeholder generated_fixture
              ["my-awesome-project"] "my-awesome-project" _ eq_refl eq_refl)
    as (fs' & Hrun & Hfiles & _).
  exists fs'. split; [exact Hrun|].
  assert (Hfs : fs' = snd (substituteInDirectory ["my-awesome-project"]
                             (buildSubstitutions "my-awesome-project") generated_fixture))
    by now rewrite Hrun.
  assert (Hfile : resolve (["my-awesome-project"] ++ ["src"] ++ ["main.py"])%list fs'
                  = Found (File true "import my_awesome_project"))
    by (rewrite Hfs; vm_compute; reflexivity).
  split; [exact Hfile|].
  assert (Hrel : forall d, In d ["src"] -> d <> "node_modules" /\ d <> ".git").
  { intros d [<- | []]. split; discriminate. }
  destruct (Hfiles ["src"] "main.py" "import my_awesome_project" Hrel eq_refl Hfile)
    as (_ & _ & H3 & _).
  exact H3.
Defined.

(** Names with capitals, blanks or a [$] that expands to nothing are
    substitutable. *)
Example substitutable_names :
  forallb substitutable
    ["my-awesome-project"; "MyProject"; "My App"; "Project"; "a$b"; "cash$"; "_x"; "a$1"]
  = true.
Proof. reflexivity. Qed.

(** C6, as stated, fails on the code for every kind of project name
    that is not substitutable, and for files that cannot be written.
    A [$&], a [$'] or a [$`] in the name is expanded to the placeholder
    or to the text around it, and a [$$] to one [$], so that the name is
    not put as it is; an empty name, a name that ends as the
    placeholder begins, one that begins as it ends and one that lies
    inside it join what stands around the placeholder into a new one; a
    name that contains [__PROJECT_NAME__] brings it back; a name whose
    sanitized forms are empty lets the removal of [__PY_PACKAGE__] or
    [__PACKAGE_NAME__] join its surroundings into [__PROJECT_NAME__];
    and a file that cannot be written keeps its placeholders. *)
Lemma substituteInDirectory_leaves_no_placeholder_counterexample :
  isBinaryFile "README.md" BINARY_EXTENSIONS = false
  /\ placeholder_left "a$&" "__PROJECT_NAME__"
  /\ placeholder_left "a$'" "__PROJECT_NAME____PROJECT_NAME__"
  /\ placeholder_left "a$`" "__PROJECT_NAME____PROJECT_NAME__"
  /\ (exists fs',
        substituteInDirectory ["target"] (buildSubstitutions "a$$b")
          (one_file "README.md" "__PROJECT_NAME__") = (Ok tt, fs')
        /\ resolve ["target"; "README.md"] fs' = Found (File true "a$b"))
  /\ placeholder_left "" "__PROJECT___PROJECT_NAME__NAME__"
  /\ placeholder_left "__" "__PROJECT_NAME__PROJECT_NAME__"
  /\ placeholder_left "x_" "__PROJECT_NAME___PROJECT_NAME__"
  /\ placeholder_left "E__x" "__PROJECT_NAM__PROJECT_NAME__"
  /\ placeholder_left "PROJECT" "____PROJECT_NAME___NAME__"
  /\ placeholder_left "a__PROJECT_NAME__b" "__PROJECT_NAME__"
  /\ placeholder_left "!!!" "__PROJECT__PY_PACKAGE___NAME__"
  /\ placeholder_left "!!!" "__PROJECT__PACKAGE_NAME___NAME__"
  /\ placeholder_left "@" "__PROJECT__PY_PACKAGE___NAME__"
  /\ substituteInDirectory ["target"] (buildSubstitutions "my-awesome-project")
       (locked_file "README.md" "# __PROJECT_NAME__")
     = (Ok tt, locked_file "README.md" "# __PROJECT_NAME__")
  /\ exists fs' left,
       generateProject no_json
         (mkGeneratorOptions ["new-project"] "agent-on-sentinel" "ts" "a$&"
            ["starters"] false) starters_and_target = (Ok tt, fs')
       /\ resolve ["new-project"; "README.md"] fs' = Found (File true left)
       /\ includes left PROJECT_NAME = true.
Proof.
  unfold placeholder_left.
  repeat split; try (do 2 eexists; repeat split; vm_compute; reflexivity);
    try (eexists; repeat split; vm_compute; reflexivity).
Qed.

(** ** utils.ts: where the sanitizers are idempotent *)

Lemma map_str_id (p : ascii -> bool) (f : ascii -> ascii) (s : string) :
  (forall c, p c = true -> f c = c) -> all_chars p s = true -> map_str f s = s.
Proof.
  intros Hf. induction s as [|c s IH]; [reflexivity|]. cbn [all_chars map_str].
  intros H. apply andb_true_iff in H. destruct H as [Hc Hs].
  now rewrite (Hf _ Hc), (IH Hs).
Qed.

Lemma filter_str_id (p : ascii -> bool) (s : string) :
  all_chars p s = true -> filter_str p s = s.
Proof.
  induction s as [|c s IH]; [reflexivity|]. cbn [all_chars filter_str].
  intros H. apply andb_true_iff in H. destruct H as [Hc Hs].
  now rewrite Hc, (IH Hs).
Qed.

Lemma squeeze_none (p cls : ascii -> bool) (d : ascii) (s : string) :
  (forall c, p c = true -> cls c = false) -> all_chars p s = true -> squeeze cls d s = s.
Proof.
  intros Hcls. induction s as [|c s IH]; [reflexivity|]. cbn [all_chars squeeze].
  intros H. apply andb_true_iff in H. destruct H as [Hc Hs].
  now rewrite (Hcls _ Hc), (IH Hs).
Qed.

Lemma squeeze_no_double_id (d : ascii) (s : string) :
  no_double d s = true -> squeeze (Ascii.eqb d) d s = s.
Proof.
  induction s as [|c s IH]; [reflexivity|]. cbn [no_double squeeze].
  intros H. apply andb_true_iff in H. destruct H as [Hc Hs].
  apply negb_true_iff in Hc. rewrite (IH Hs).
  destruct (Ascii.eqb_spec d c) as [<-|Hne]; [|reflexivity].
  rewrite Ascii.eqb_refl in Hc. cbn [andb] in Hc. now rewrite Hc.
Qed.

Lemma drop_last_if_id (d : ascii) (s : string) :
  ends_in (Ascii.eqb d) s = false -> drop_last_if d s = s.
Proof.
  induction s as [|c s IH]; [reflexivity|]. destruct s as [|c' s'].
  - unfold ends_in. cbn. intros H. now rewrite Ascii.eqb_sym, H.
  - unfold ends_in in *. rewrite last_char_cons by discriminate. intros H.
    rewrite drop_last_if_cons by discriminate. now rewrite (IH H).
Qed.

Lemma strip_edges_id (d : ascii) (s : string) :
  starts_in (Ascii.eqb d) s = false -> ends_in (Ascii.eqb d) s = false ->
  strip_edges d s = s.
Proof.
  destruct s as [|c s]; [reflexivity|]. cbn [starts_in strip_edges]. intros Hs He.
  rewrite Ascii.eqb_sym, Hs. now apply drop_last_if_id.
Qed.

Lemma no_double_drop_last (d : ascii) (s : string) :
  no_double d s = true -> no_double d (drop_last_if d s) = true.
Proof.
  induction s as [|c s IH]; [reflexivity|]. intros H. destruct s as [|c' s'].
  - cbn. now destruct (Ascii.eqb c d).
  - rewrite drop_last_if_cons by discriminate.
    cbn [no_double] in H |- *. apply andb_true_iff in H. destruct H as [Hc Hs].
    rewrite (IH Hs), andb_true_r.
    destruct (starts_in (Ascii.eqb d) (drop_last_if d (String c' s'))) eqn:E.
    + apply drop_last_if_head in E. now rewrite E in Hc.
    + now rewrite andb_false_r.
Qed.

Lemma no_double_strip_edges (d : ascii) (s : string) :
  no_double d s = true -> no_double d (strip_edges d s) = true.
Proof.
  destruct s as [|c s]; [reflexivity|]. cbn [strip_edges]. intros H.
  destruct (Ascii.eqb c d); apply no_double_drop_last; [|exact H].
  eapply no_double_tail; eauto.
Qed.

Lemma pkg_char_fixed (c : ascii) :
  pkg_char c = true ->
  lower_char c = c /\ is_space c = false /\ underscore_to_hyphen c = c.
Proof. destruct c as [[] [] [] [] [] [] [] []]; vm_compute; intuition congruence. Qed.

Lemma py_char_fixed (c : ascii) :
  py_char c = true ->
  lower_char c = c /\ is_space c = false /\ hyphen_to_underscore c = c.
Proof. destruct c as [[] [] [] [] [] [] [] []]; vm_compute; intuition congruence. Qed.

(** Were the result always to start as the docstrings say, the
    sanitizers would be idempotent: a second application changes a
    result only by removing its first character. *)
Theorem toPackageName_idempotent_from_letter (name : string) :
  toPackageName name = ""
  \/ starts_in (fun c => is_lower c || Ascii.eqb c "@") (toPackageName name) = true ->
  toPackageName (toPackageName name) = toPackageName name.
Proof.
  intros Hstart. set (y := toPackageName name) in *.
  assert (Hc : all_chars pkg_char y = true) by apply toPackageName_chars.
  assert (Hnd : no_double "-" y = true)
    by (apply no_double_strip_edges, squeeze_no_double).
  destruct (strip_edges_clean "-" _ (squeeze_no_double "-"
              (drop_first_unless (fun c => is_lower c || Ascii.eqb c "@")
                 (filter_str pkg_char
                    (map_str underscore_to_hyphen
                       (squeeze is_space "-" (toLowerCase name)))))))
    as [Hhead Hlast].
  fold (toPackageName name) in Hhead, Hlast. fold y in Hhead, Hlast.
  unfold toPackageName at 1. unfold toLowerCase.
  rewrite (map_str_id pkg_char lower_char y)
    by first [exact Hc | intros c H; apply (pkg_char_fixed c H)].
  rewrite (squeeze_none pkg_char is_space "-" y)
    by first [exact Hc | intros c H; apply (pkg_char_fixed c H)].
  rewrite (map_str_id pkg_char underscore_to_hyphen y)
    by first [exact Hc | intros c H; apply (pkg_char_fixed c H)].
  rewrite filter_str_id by exact Hc.
  assert (Hdrop : drop_first_unless (fun c => is_lower c || Ascii.eqb c "@") y = y).
  { destruct Hstart as [-> | Hs]; [reflexivity|].
    destruct y as [|c y']; [reflexivity|]. cbn [starts_in] in Hs.
    cbn [drop_first_unless]. now rewrite Hs. }
  rewrite Hdrop, squeeze_no_double_id by exact Hnd.
  now apply strip_edges_id.
Qed.

Theorem toPythonPackage_idempotent_from_letter (name : string) :
  toPythonPackage name = "" \/ starts_in is_lower (toPythonPackage name) = true ->
  toPythonPackage (toPythonPackage name) = toPythonPackage name.
Proof.
  intros Hstart. set (y := toPythonPackage name) in *.
  assert (Hc : all_chars py_char y = true) by apply toPythonPackage_chars.
  assert (Hnd : no_double "_" y = true)
    by (apply no_double_strip_edges, squeeze_no_double).
  destruct (strip_edges_clean "_" _ (squeeze_no_double "_"
              (drop_first_unless is_lower
                 (filter_str py_char
                    (map_str hyphen_to_underscore
                       (squeeze is_space "_" (toLowerCase name)))))))
    as [Hhead Hlast].
  fold (toPythonPackage name) in Hhead, Hlast. fold y in Hhead, Hlast.
  unfold toPythonPackage at 1. unfold toLowerCase.
  rewrite (map_str_id py_char lower_char y)
    by first [exact Hc | intros c H; apply (py_char_fixed c H)].
  rewrite (squeeze_none py_char is_space "_" y)
    by first [exact Hc | intros c H; apply (py_char_fixed c H)].
  rewrite (map_str_id py_char hyphen_to_underscore y)
    by first [exact Hc | intros c H; apply (py_char_fixed c H)].
  rewrite filter_str_id by exact Hc.
  assert (Hdrop : drop_first_unless is_lower y = y).
  { destruct Hstart as [-> | Hs]; [reflexivity|].
    destruct y as [|c y']; [reflexivity|]. cbn [starts_in] in Hs.
    cbn [drop_first_unless]. now rewrite Hs. }
  rewrite Hdrop, squeeze_no_double_id by exact Hnd.
  now apply strip_edges_id.
Qed.

Lemma toPackageName_idempotent_from_letter_witness :
  toPackageName (toPackageName "My Project") = toPackageName "My Project".
Proof. apply toPackageName_idempotent_from_letter. right. reflexivity. Defined.

Lemma toPythonPackage_idempotent_from_letter_witness :
  toPythonPackage (toPythonPackage "My Project") = toPythonPackage "My Project".
Proof. apply toPythonPackage_idempotent_from_letter. right. reflexivity. Defined.

(** An empty [--flavor] for the flavors [ts] and [py]: the default is
    selected, as without the option. *)
Lemma selectFlavor_empty_cli_is_absent_witness :
  selectFlavor (sample ["ts"; "py"]) (mkSelectionOptions (Some "") "ts" None)
  = (Ok (mkSelection "ts" Default), []).
Proof.
  destruct (selectFlavor_empty_cli_is_absent (sample ["ts"; "py"]) "ts" None) as [-> _].
  reflexivity.
Defined.

(** ** The fuel of [replaceAll] *)

Lemma find_first_shorter (pat s u rest : string) :
  pat <> "" -> find_first pat s = Some (u, rest) -> String.length rest < String.length s.
Proof.
  intros Hne Hf. destruct (find_first_Some _ _ _ _ Hne Hf) as [-> _].
  rewrite !length_append. destruct pat; [congruence|]. cbn [String.length]. lia.
Qed.

(** The length of the text is fuel enough: more fuel gives the same
    result. *)
Lemma replaceAll_from_enough (pat v : string) :
  pat <> "" ->
  forall fuel fuel' s before,
    String.length s <= fuel -> String.length s <= fuel' ->
    replaceAll_from fuel pat v before s = replaceAll_from fuel' pat v before s.
Proof.
  intros Hne. induction fuel as [|fuel IH]; intros fuel' s before H1 H2.
  - destruct s; [|cbn in H1; lia]. destruct fuel'; [reflexivity|].
    cbn [replaceAll_from find_first]. destruct pat; [congruence | reflexivity].
  - destruct fuel' as [|fuel'].
    + destruct s; [|cbn in H2; lia].
      cbn [replaceAll_from find_first]. destruct pat; [congruence | reflexivity].
    + cbn [replaceAll_from]. destruct (find_first pat s) as [[u rest]|] eqn:Hf;
        [|reflexivity].
      pose proof (find_first_shorter _ _ _ _ Hne Hf) as Hlt.
      f_equal. f_equal. apply IH; lia.
Qed.

Theorem replaceAll_fuel (s pat v : string) (extra : nat) :
  pat <> "" ->
  replaceAll s pat v = replaceAll_from (String.length s + extra) pat v "" s.
Proof.
  intros Hne. unfold replaceAll. destruct pat as [|c pat]; [congruence|].
  apply replaceAll_from_enough; [discriminate | lia | lia].
Qed.

(** ** utils.ts: the shape of the sanitized names *)

Lemma squeeze_length (cls : ascii -> bool) (d : ascii) (s : string) :
  String.length (squeeze cls d s) <= String.length s.
Proof.
  induction s as [|c s IH]; [reflexivity|]. cbn [squeeze].
  destruct (cls c); [destruct (starts_in cls s)|]; cbn [String.length]; lia.
Qed.

Lemma drop_last_if_length (d : ascii) (s : string) :
  String.length (drop_last_if d s) <= String.length s.
Proof.
  induction s as [|c s IH]; [reflexivity|]. destruct s as [|c' s'].
  - cbn. destruct (Ascii.eqb c d); cbn; lia.
  - rewrite drop_last_if_cons by discriminate. cbn [String.length] in *. lia.
Qed.

Lemma strip_edges_length (d : ascii) (s : string) :
  String.length (strip_edges d s) <= String.length s.
Proof.
  destruct s as [|c s]; [reflexivity|]. cbn [strip_edges].
  destruct (Ascii.eqb c d).
  - pose proof (drop_last_if_length d s). cbn [String.length]. lia.
  - apply drop_last_if_length.
Qed.

(** On a text of the surviving characters only the last three steps of
    a sanitizer can do anything. *)
Lemma toPackageName_of_clean (x : string) :
  all_chars pkg_char x = true ->
  toPackageName x
  = strip_edges "-" (squeeze (Ascii.eqb "-") "-"
      (drop_first_unless (fun c => is_lower c || Ascii.eqb c "@") x)).
Proof.
  intros Hc. unfold toPackageName, toLowerCase.
  rewrite (map_str_id pkg_char lower_char x)
    by first [exact Hc | intros c H; apply (pkg_char_fixed c H)].
  rewrite (squeeze_none pkg_char is_space "-" x)
    by first [exact Hc | intros c H; apply (pkg_char_fixed c H)].
  rewrite (map_str_id pkg_char underscore_to_hyphen x)
    by first [exact Hc | intros c H; apply (pkg_char_fixed c H)].
  now rewrite filter_str_id by exact Hc.
Qed.

Lemma toPythonPackage_of_clean (x : string) :
  all_chars py_char x = true ->
  toPythonPackage x
  = strip_edges "_" (squeeze (Ascii.eqb "_") "_" (drop_first_unless is_lower x)).
Proof.
  intros Hc. unfold toPythonPackage, toLowerCase.
  rewrite (map_str_id py_char lower_char x)
    by first [exact Hc | intros c H; apply (py_char_fixed c H)].
  rewrite (squeeze_none py_char is_space "_" x)
    by first [exact Hc | intros c H; apply (py_char_fixed c H)].
  rewrite (map_str_id py_char hyphen_to_underscore x)
    by first [exact Hc | intros c H; apply (py_char_fixed c H)].
  now rewrite filter_str_id by exact Hc.
Qed.

Lemma drop_first_shorter (ok : ascii -> bool) (x : string) :
  x <> "" -> starts_in ok x = false ->
  S (String.length (drop_first_unless ok x)) = String.length x.
Proof.
  destruct x as [|c x]; [congruence|]. cbn [starts_in drop_first_unless].
  intros _ ->. reflexivity.
Qed.

(** X1.  Whatever the input, the result of [toPackageName] is made of
    the characters [a-z], [0-9], [-], [@] and [/] only, has no two
    hyphens in a row, and neither begins nor ends with a hyphen. *)
Theorem toPackageName_shape (name : string) :
  all_chars pkg_char (toPackageName name) = true
  /\ no_double "-" (toPackageName name) = true
  /\ starts_in (Ascii.eqb "-") (toPackageName name) = false
  /\ ends_in (Ascii.eqb "-") (toPackageName name) = false.
Proof.
  split; [apply toPackageName_chars|].
  split; [apply no_double_strip_edges, squeeze_no_double|].
  apply strip_edges_clean, squeeze_no_double.
Qed.

(** X2.  Whatever the input, the result of [toPythonPackage] is made of
    the characters [a-z], [0-9] and [_] only, has no two underscores in
    a row, and neither begins nor ends with an underscore. *)
Theorem toPythonPackage_shape (name : string) :
  all_chars py_char (toPythonPackage name) = true
  /\ no_double "_" (toPythonPackage name) = true
  /\ starts_in (Ascii.eqb "_") (toPythonPackage name) = false
  /\ ends_in (Ascii.eqb "_") (toPythonPackage name) = false.
Proof.
  split; [apply toPythonPackage_chars|].
  split; [apply no_double_strip_edges, squeeze_no_double|].
  apply strip_edges_clean, squeeze_no_double.
Qed.

(** X3.  The names that [toPackageName] leaves as they are are exactly
    the well-formed ones: made of [a-z0-9-@/], without two hyphens in a
    row, without a hyphen at either end, and empty or starting with a
    letter or [@].  A scoped name such as [@scope/my-pkg] is one. *)
Theorem toPackageName_fixed_iff (x : string) :
  toPackageName x = x
  <-> all_chars pkg_char x = true
      /\ no_double "-" x = true
      /\ starts_in (Ascii.eqb "-") x = false
      /\ ends_in (Ascii.eqb "-") x = false
      /\ (x = "" \/ starts_in (fun c => is_lower c || Ascii.eqb c "@") x = true).
Proof.
  split.
  - intros Hfix.
    assert (Hc : all_chars pkg_char x = true)
      by (rewrite <- Hfix; apply toPackageName_chars).
    assert (Hnd : no_double "-" x = true)
      by (rewrite <- Hfix; apply no_double_strip_edges, squeeze_no_double).
    assert (Hedges : starts_in (Ascii.eqb "-") x = false
                     /\ ends_in (Ascii.eqb "-") x = false)
      by (rewrite <- Hfix; apply strip_edges_clean, squeeze_no_double).
    destruct Hedges as [Hs He]. repeat (split; [assumption|]).
    destruct x as [|c x']; [now left|]. right.
    destruct (starts_in (fun c => is_lower c || Ascii.eqb c "@") (String c x')) eqn:E;
      [reflexivity | exfalso].
    rewrite (toPackageName_of_clean _ Hc) in Hfix.
    apply (f_equal String.length) in Hfix.
    pose proof (strip_edges_length "-"
                  (squeeze (Ascii.eqb "-") "-"
                     (drop_first_unless (fun c => is_lower c || Ascii.eqb c "@")
                        (String c x')))) as H1.
    pose proof (squeeze_length (Ascii.eqb "-") "-"
                  (drop_first_unless (fun c => is_lower c || Ascii.eqb c "@")
                     (String c x'))) as H2.
    pose proof (drop_first_shorter (fun c => is_lower c || Ascii.eqb c "@")
                  (String c x') ltac:(discriminate) E) as H3.
    lia.
  - intros (Hc & Hnd & Hs & He & Hstart).
    rewrite (toPackageName_of_clean _ Hc).
    assert (Hdrop : drop_first_unless (fun c => is_lower c || Ascii.eqb c "@") x = x).
    { destruct Hstart as [-> | Hst]; [reflexivity|].
      destruct x as [|c x']; [reflexivity|]. cbn [starts_in] in Hst.
      cbn [drop_first_unless]. now rewrite Hst. }
    rewrite Hdrop, squeeze_no_double_id by exact Hnd.
    now apply strip_edges_id.
Qed.

(** X4.  The names that [toPythonPackage] leaves as they are are
    exactly the well-formed ones: made of [a-z0-9_], without two
    underscores in a row, and empty or starting with a letter and not
    ending with an underscore. *)
Theorem toPythonPackage_fixed_iff (x : string) :
  toPythonPackage x = x
  <-> all_chars py_char x = true
      /\ no_double "_" x = true
      /\ ends_in (Ascii.eqb "_") x = false
      /\ (x = "" \/ starts_in is_lower x = true).
Proof.
  split.
  - intros Hfix.
    assert (Hc : all_chars py_char x = true)
      by (rewrite <- Hfix; apply toPythonPackage_chars).
    assert (Hnd : no_double "_" x = true)
      by (rewrite <- Hfix; apply no_double_strip_edges, squeeze_no_double).
    assert (Hedges : starts_in (Ascii.eqb "_") x = false
                     /\ ends_in (Ascii.eqb "_") x = false)
      by (rewrite <- Hfix; apply strip_edges_clean, squeeze_no_double).
    destruct Hedges as [Hs He]. repeat (split; [assumption|]).
    destruct x as [|c x']; [now left|]. right.
    destruct (starts_in is_lower (String c x')) eqn:E; [reflexivity | exfalso].
    rewrite (toPythonPackage_of_clean _ Hc) in Hfix.
    apply (f_equal String.length) in Hfix.
    pose proof (strip_edges_length "_"
                  (squeeze (Ascii.eqb "_") "_"
                     (drop_first_unless is_lower (String c x')))) as H1.
    pose proof (squeeze_length (Ascii.eqb "_") "_"
                  (drop_first_unless is_lower (String c x'))) as H2.
    pose proof (drop_first_shorter is_lower (String c x') ltac:(discriminate) E) as H3.
    lia.
  - intros (Hc & Hnd & He & Hstart).
    rewrite (toPythonPackage_of_clean _ Hc).
    assert (Hdrop : drop_first_unless is_lower x = x).
    { destruct Hstart as [-> | Hst]; [reflexivity|].
      destruct x as [|c x']; [reflexivity|]. cbn [starts_in] in Hst.
      cbn [drop_first_unless]. now rewrite Hst. }
    rewrite Hdrop, squeeze_no_double_id by exact Hnd.
    apply strip_edges_id; [|exact He].
    destruct Hstart as [-> | Hst]; [reflexivity|].
    destruct x as [|c x']; [reflexivity|]. cbn [starts_in] in *.
    destruct (Ascii.eqb_spec "_"%char c) as [<-|]; [discriminate | reflexivity].
Qed.

(** ** flavor-selection.ts: what a selection guarantees *)

Lemma select_without_cli_member (t : TemplateInfo) (o : FlavorSelectionOptions)
    (sel : FlavorSelectionResult) :
  fst (select_without_cli t o) = Ok sel -> In (sel_flavor sel) (flavors t).
Proof.
  unfold select_without_cli.
  destruct (array_includes (flavors t) (defaultFlavor o)) eqn:Ed.
  - intros [= <-]. now apply array_includes_In.
  - destruct (flavors t) as [|f [|g fs]] eqn:Ef.
    + destruct (prompt o) as [ask|]; [|discriminate].
      destruct (ask t) as [s|]; [|discriminate].
      destruct (truthy s); [|discriminate]. cbn. discriminate.
    + intros [= <-]. now left.
    + destruct (prompt o) as [ask|]; [|discriminate].
      destruct (ask t) as [s|]; [|discriminate].
      destruct (truthy s); [|discriminate]. cbn [negb].
      destruct (array_includes (f :: g :: fs) s) eqn:Es; [|discriminate].
      intros [= <-]. now apply array_includes_In.
Qed.

(** X5.  Whenever [selectFlavor] returns a selection, whatever the
    options and whatever the prompt answers, the selected flavor is one
    of the flavors of the template. *)
Theorem selectFlavor_selects_member (t : TemplateInfo) (o : FlavorSelectionOptions)
    (sel : FlavorSelectionResult) :
  fst (selectFlavor t o) = Ok sel -> In (sel_flavor sel) (flavors t).
Proof.
  unfold selectFlavor. destruct (flavors t) as [|f fs] eqn:Ef; [discriminate|].
  assert (Hrest : fst (select_without_cli t o) = Ok sel -> In (sel_flavor sel) (f :: fs))
    by (rewrite <- Ef; apply select_without_cli_member).
  destruct (cliFlavor o) as [c|]; [|exact Hrest].
  destruct (truthy c); [|exact Hrest].
  destruct (array_includes (f :: fs) c) eqn:Ec; [|discriminate].
  intros [= <-]. now apply array_includes_In.
Qed.

Lemma selectFlavor_selects_member_witness :
  In "py" (flavors (sample ["ts"; "py"])).
Proof.
  apply (selectFlavor_selects_member (sample ["ts"; "py"])
           (mkSelectionOptions (Some "py") "ts" None) (mkSelection "py" Cli)).
  reflexivity.
Defined.

(** X6.  The reason of a selection tells the truth about its source:
    [cli] only for the flavor that was requested, [default] only for
    the configured default when nothing was requested, [only] only for
    the single flavor of the template, and [prompt] only for the answer
    of the prompt; the prompt has been called in the last case and in no
    other. *)
Theorem selectFlavor_reason_truthful (t : TemplateInfo) (o : FlavorSelectionOptions)
    (sel : FlavorSelectionResult) :
  fst (selectFlavor t o) = Ok sel ->
  match sel_reason sel with
  | Cli => cliFlavor o = Some (sel_flavor sel) /\ snd (selectFlavor t o) = []
  | Default =>
      sel_flavor sel = defaultFlavor o /\ no_cli_flavor o /\ snd (selectFlavor t o) = []
  | Only =>
      flavors t = [sel_flavor sel] /\ no_cli_flavor o /\ snd (selectFlavor t o) = []
  | Prompt =>
      (exists ask, prompt o = Some ask /\ ask t = Some (sel_flavor sel))
      /\ no_cli_flavor o /\ snd (selectFlavor t o) = [t]
  end.
Proof.
  unfold selectFlavor. destruct (flavors t) as [|f fs] eqn:Ef; [discriminate|].
  assert (Hrest : no_cli_flavor o ->
            fst (select_without_cli t o) = Ok sel ->
            match sel_reason sel with
            | Cli => False
            | Default =>
                sel_flavor sel = defaultFlavor o /\ no_cli_flavor o
                /\ snd (select_without_cli t o) = []
            | Only =>
                f :: fs = [sel_flavor sel] /\ no_cli_flavor o
                /\ snd (select_without_cli t o) = []
            | Prompt =>
                (exists ask, prompt o = Some ask /\ ask t = Some (sel_flavor sel))
                /\ no_cli_flavor o /\ snd (select_without_cli t o) = [t]
            end).
  { intros Hno. unfold select_without_cli. rewrite Ef.
    destruct (array_includes (f :: fs) (defaultFlavor o)).
    - intros [= <-]. cbn. auto.
    - destruct fs as [|g fs].
      + intros [= <-]. cbn. auto.
      + destruct (prompt o) as [ask|]; [|discriminate].
        destruct (ask t) as [s|] eqn:Ea; [|discriminate].
        destruct (truthy s); [|discriminate]. cbn [negb].
        destruct (array_includes (f :: g :: fs) s); [|discriminate].
        intros [= <-]. cbn. eauto. }
  assert (Hfrom : no_cli_flavor o ->
            fst (select_without_cli t o) = Ok sel ->
            match sel_reason sel with
            | Cli => cliFlavor o = Some (sel_flavor sel) /\ snd (select_without_cli t o) = []
            | Default =>
                sel_flavor sel = defaultFlavor o /\ no_cli_flavor o
                /\ snd (select_without_cli t o) = []
            | Only =>
                f :: fs = [sel_flavor sel] /\ no_cli_flavor o
                /\ snd (select_without_cli t o) = []
            | Prompt =>
                (exists ask, prompt o = Some ask /\ ask t = Some (sel_flavor sel))
                /\ no_cli_flavor o /\ snd (select_without_cli t o) = [t]
            end).
  { intros Hno H. specialize (Hrest Hno H).
    destruct (sel_reason sel); [contradiction | exact Hrest ..]. }
  clear Hrest. revert Hfrom.
  destruct (cliFlavor o) as [c|] eqn:Ec; intros Hfrom.
  - destruct (truthy c) eqn:Et.
    + destruct (array_includes (f :: fs) c); [|discriminate].
      intros [= <-]. cbn. auto.
    + apply Hfrom. right. rewrite Ec.
      destruct c; [reflexivity | discriminate].
  - apply Hfrom. now left.
Qed.

Lemma selectFlavor_reason_truthful_witness :
  (exists ask, Some (fun _ : TemplateInfo => Some "py") = Some ask
               /\ ask (sample ["ts"; "py"]) = Some "py")
  /\ no_cli_flavor (mkSelectionOptions None "go" (Some (fun _ => Some "py")))
  /\ snd (selectFlavor (sample ["ts"; "py"])
            (mkSelectionOptions None "go" (Some (fun _ => Some "py"))))
     = [sample ["ts"; "py"]].
Proof.
  apply (selectFlavor_reason_truthful (sample ["ts"; "py"])
           (mkSelectionOptions None "go" (Some (fun _ => Some "py")))
           (mkSelection "py" Prompt)).
  reflexivity.
Defined.

(** X7.  The prompt is called at most once, with the template, and only
    when it is needed: no flavor was requested, the default is not a
    flavor of the template, and the template does not have exactly one
    flavor. *)
Theorem selectFlavor_prompts_when_needed (t : TemplateInfo) (o : FlavorSelectionOptions) :
  snd (selectFlavor t o) = []
  \/ (snd (selectFlavor t o) = [t]
      /\ no_cli_flavor o
      /\ ~ In (defaultFlavor o) (flavors t)
      /\ 2 <= List.length (flavors t)).
Proof.
  unfold selectFlavor. destruct (flavors t) as [|f fs] eqn:Ef; [now left|].
  assert (Hrest : no_cli_flavor o ->
            snd (select_without_cli t o) = []
            \/ (snd (select_without_cli t o) = [t]
                /\ no_cli_flavor o
                /\ ~ In (defaultFlavor o) (f :: fs)
                /\ 2 <= List.length (f :: fs))).
  { intros Hno. unfold select_without_cli. rewrite Ef.
    destruct (array_includes (f :: fs) (defaultFlavor o)) eqn:Ed; [now left|].
    apply array_includes_not_In in Ed.
    destruct fs as [|g fs]; [now left|].
    destruct (prompt o) as [ask|]; [|now left]. right.
    split; [|split; [exact Hno | split; [exact Ed | cbn; lia]]].
    destruct (ask t) as [s|]; [|reflexivity].
    destruct (truthy s); [|reflexivity]. cbn [negb].
    now destruct (array_includes (f :: g :: fs) s). }
  destruct (cliFlavor o) as [c|] eqn:Ec.
  - destruct (truthy c) eqn:Et.
    + left. now destruct (array_includes (f :: fs) c).
    + apply Hrest. right. rewrite Ec. destruct c; [reflexivity | discriminate].
  - apply Hrest. now left.
Qed.

(** ** templates.ts: more of the discovery *)

Lemma find_unique {A : Type} (key : A -> string) (l : list A) (x : A) :
  NoDup (map key l) -> In x l ->
  find (fun y => String.eqb (key y) (key x)) l = Some x.
Proof.
  induction l as [|y l IH]; [contradiction|]. cbn [map find].
  intros Hnd [-> | Hin].
  - now rewrite String.eqb_refl.
  - inversion Hnd as [|? ? Hy Hl]. subst.
    destruct (String.eqb_spec (key y) (key x)) as [E|_]; [|now apply IH].
    exfalso. apply Hy. rewrite E. now apply in_map.
Qed.

Lemma map_from_Forall2 {A B : Type} (f : nat -> A -> result B) (xs : list A) (ys : list B)
    (index : nat) :
  map_from index f xs = Ok ys ->
  Forall2 (fun x y => exists i, f i x = Ok y) xs ys.
Proof.
  revert ys index. induction xs as [|x xs IH]; intros ys index; cbn [map_from].
  - intros [= <-]. constructor.
  - destruct (f index x) as [y|e] eqn:Ef; [|discriminate]. cbn [and_then].
    destruct (map_from (S index) f xs) as [ys'|e] eqn:Er; [|discriminate].
    cbn [and_then]. intros [= <-]. constructor; eauto.
Qed.

Lemma Forall2_In_r {A B : Type} (R : A -> B -> Prop) (xs : list A) (ys : list B) (y : B) :
  Forall2 R xs ys -> In y ys -> exists x, In x xs /\ R x y.
Proof.
  induction 1 as [|x y' xs ys HR _ IH]; [contradiction|].
  intros [<- | Hin].
  - exists x. split; [now left | exact HR].
  - destruct (IH Hin) as (x' & Hx & HR'). exists x'. split; [now right | exact HR'].
Qed.

Lemma normalizeManifestFlavor_Ok (flavor : json) (templateId : string) (i : nat)
    (manifestPath : fspath) (fl : TemplateManifestFlavor) (p : string) :
  normalizeManifestFlavor flavor templateId i manifestPath = Ok fl ->
  flavor_path fl = Some p ->
  isAbsolute p = false /\ trim (flavor_id fl) <> "".
Proof.
  unfold normalizeManifestFlavor. destruct flavor as [| b | z | s | items | fields];
    cbn [is_object_value negb prop]; try discriminate.
  - intros [= <-]. discriminate.
  - change (alookup "id" fields) with (prop (JObject fields) "id").
    change (alookup "path" fields) with (prop (JObject fields) "path").
    destruct (prop (JObject fields) "id") as [[| | | fid | |]|]; try discriminate.
    destruct (String.eqb_spec (trim fid) "") as [|Hid]; [discriminate|].
    destruct (prop (JObject fields) "path") as [[| [] | n | q | |]|]; try discriminate;
      try (intros [= <-]; discriminate);
      try (destruct (is_zero n); [intros [= <-]; discriminate | discriminate]).
    destruct (truthy q && isAbsolute q) eqn:Eq; [discriminate|].
    intros [= <-]. cbn [flavor_path flavor_id]. intros [= <-]. split; [|exact Hid].
    destruct q as [|c q]; [reflexivity|]. exact Eq.
Qed.

Lemma normalizeManifestEntry_Ok (entry : json) (manifestPath : fspath) (index : nat)
    (e : TemplateManifestEntry) :
  normalizeManifestEntry entry manifestPath index = Ok e -> entry_complete e.
Proof.
  unfold normalizeManifestEntry.
  destruct (negb (is_object_value entry)); [discriminate|].
  destruct (prop_string entry "id") as [eid|]; [|discriminate].
  destruct (String.eqb_spec (trim eid) "") as [|Hid]; [discriminate|].
  destruct (prop_string entry "name") as [ename|]; [|discriminate].
  destruct (String.eqb_spec (trim ename) "") as [|Hname]; [discriminate|].
  destruct (prop_string entry "description") as [edesc|]; [|discriminate].
  destruct (String.eqb_spec (trim edesc) "") as [|Hdesc]; [discriminate|].
  destruct (prop entry "flavors") as [[| | | | [|f fs] |]|]; try discriminate.
  destruct (map_from 0 _ (f :: fs)) as [fls|err] eqn:Em; [|discriminate].
  cbn [and_then]. intros [= <-].
  apply map_from_Forall2 in Em.
  unfold entry_complete.
  cbn [entry_id entry_name entry_description entry_flavors].
  repeat (split; [assumption|]). split.
  - inversion Em. discriminate.
  - intros fl p Hin Hp. destruct (Forall2_In_r _ _ _ _ Em Hin) as (x & _ & i & Hx).
    eapply normalizeManifestFlavor_Ok; eauto.
Qed.

(** [map] returns when the function returns for every element, and
    throws when it throws for one. *)
Lemma map_from_outcome {A B : Type} (ok : A -> bool) (f : nat -> A -> result B) :
  (forall i x, if ok x then exists y, f i x = Ok y else exists e, f i x = Throw e) ->
  forall xs i,
    if forallb ok xs
    then exists ys, map_from i f xs = Ok ys /\ List.length ys = List.length xs
    else exists e, map_from i f xs = Throw e.
Proof.
  intros Hf. induction xs as [|x xs IH]; intros i; cbn [forallb map_from]; [eauto|].
  specialize (Hf i x). destruct (ok x); cbn [andb].
  - destruct Hf as [y ->]. cbn [and_then]. specialize (IH (S i)).
    destruct (forallb ok xs).
    + destruct IH as (ys & -> & Hlen). cbn [and_then]. exists (y :: ys).
      split; [reflexivity | cbn; now rewrite Hlen].
    + destruct IH as [e ->]. cbn [and_then]. eauto.
  - destruct Hf as [e ->]. cbn [and_then]. eauto.
Qed.

Lemma normalizeManifestFlavor_outcome (templateId : string) (manifestPath : fspath)
    (i : nat) (flavor : json) :
  if acceptable_flavor flavor
  then exists fl, normalizeManifestFlavor flavor templateId i manifestPath = Ok fl
  else exists e, normalizeManifestFlavor flavor templateId i manifestPath = Throw e.
Proof.
  unfold normalizeManifestFlavor, acceptable_flavor, nonblank_string.
  destruct flavor as [| b | z | s | items | fields];
    cbn [is_object_value negb]; eauto.
  - cbn [prop]. eauto.
  - destruct (prop (JObject fields) "id") as [[| | | fid | |]|]; cbn [andb]; eauto.
    destruct (String.eqb (trim fid) ""); cbn [negb andb]; eauto.
    destruct (prop (JObject fields) "path") as [[| [] | n | q | |]|]; eauto.
    + destruct (is_zero n); eauto.
    + destruct (truthy q && isAbsolute q); cbn [negb]; eauto.
Qed.

Lemma prop_string_nonblank (v : json) (k : string) :
  nonblank_string (prop v k)
  = match prop_string v k with
    | Some s => negb (String.eqb (trim s) "")
    | None => false
    end.
Proof.
  unfold nonblank_string, prop_string. now destruct (prop v k) as [[| | | | |]|].
Qed.

Lemma normalizeManifestEntry_outcome (manifestPath : fspath) (index : nat) (entry : json) :
  if acceptable_entry entry
  then exists e, normalizeManifestEntry entry manifestPath index = Ok e
  else exists err, normalizeManifestEntry entry manifestPath index = Throw err.
Proof.
  unfold normalizeManifestEntry, acceptable_entry.
  destruct entry as [| b | z | s | items | fields];
    cbn [is_object_value negb]; eauto.
  - cbn [prop_string prop]. eauto.
  - rewrite !prop_string_nonblank.
    destruct (prop_string (JObject fields) "id") as [eid|]; cbn [andb]; eauto.
    destruct (String.eqb (trim eid) ""); cbn [negb andb]; eauto.
    destruct (prop_string (JObject fields) "name") as [ename|]; cbn [andb]; eauto.
    destruct (String.eqb (trim ename) ""); cbn [negb andb]; eauto.
    destruct (prop_string (JObject fields) "description") as [edesc|]; cbn [andb]; eauto.
    destruct (String.eqb (trim edesc) ""); cbn [negb andb]; eauto.
    destruct (prop (JObject fields) "flavors") as [[| | | | [|f fs] |]|]; eauto.
    pose proof (map_from_outcome acceptable_flavor
                  (fun flavorIndex fl =>
                     normalizeManifestFlavor fl eid flavorIndex manifestPath)
                  (fun i x => normalizeManifestFlavor_outcome eid manifestPath i x)
                  (f :: fs) 0) as H.
    destruct (forallb acceptable_flavor (f :: fs)).
    + destruct H as (fls & -> & _). cbn [and_then]. eauto.
    + destruct H as [e ->]. cbn [and_then]. eauto.
Qed.

(** X8.  [normalizeManifest] accepts a manifest with all its entries or
    rejects it as a whole.  A manifest it accepts is complete: it has
    as many entries as the [templates] array, and every entry has an
    id, a name and a description that are not blank and at least one
    flavor, and a flavor that declares a path has a relative one and an
    id that is not blank.  One entry of the array that is not
    acceptable makes the function throw; when every entry is
    acceptable, the function returns. *)
Theorem normalizeManifest_complete (data : json) (manifestPath : fspath) :
  (forall manifest, normalizeManifest data manifestPath = Ok manifest ->
     (forall entry, In entry (templates manifest) -> entry_complete entry)
     /\ exists items, prop data "templates" = Some (JArray items)
                      /\ List.length (templates manifest) = List.length items
                      /\ forallb acceptable_entry items = true)
  /\ (forall items entry,
        prop data "templates" = Some (JArray items) -> In entry items ->
        acceptable_entry entry = false ->
        exists e, normalizeManifest data manifestPath = Throw e)
  /\ (forall items,
        prop data "templates" = Some (JArray items) ->
        forallb acceptable_entry items = true ->
        exists manifest, normalizeManifest data manifestPath = Ok manifest).
Proof.
  assert (Hobj : forall items, prop data "templates" = Some (JArray items) ->
                   negb (is_object_value data) = false).
  { intros items H. destruct data; try discriminate. reflexivity. }
  assert (Hout : forall items,
            if forallb acceptable_entry items
            then exists entries,
                   map_from 0 (fun index entry =>
                                 normalizeManifestEntry entry manifestPath index) items
                   = Ok entries
                   /\ List.length entries = List.length items
            else exists e,
                   map_from 0 (fun index entry =>
                                 normalizeManifestEntry entry manifestPath index) items
                   = Throw e).
  { intros items. apply (map_from_outcome acceptable_entry).
    intros i x. apply normalizeManifestEntry_outcome. }
  split; [|split].
  - intros manifest. unfold normalizeManifest.
    destruct (negb (is_object_value data)); [discriminate|].
    destruct (prop data "templates") as [[| | | | items |]|]; try discriminate.
    specialize (Hout items).
    destruct (map_from 0 _ items) as [entries|err] eqn:Em; [|discriminate].
    cbn [and_then]. intros [= <-]. cbn [templates]. split.
    + intros entry Hin. apply map_from_Forall2 in Em.
      destruct (Forall2_In_r _ _ _ _ Em Hin) as (x & _ & i & Hx).
      eapply normalizeManifestEntry_Ok; eauto.
    + exists items. split; [reflexivity|].
      destruct (forallb acceptable_entry items).
      * destruct Hout as (entries' & [= <-] & Hlen). auto.
      * destruct Hout as [e He]. discriminate.
  - intros items entry Hitems Hin Hbad. unfold normalizeManifest.
    rewrite (Hobj _ Hitems), Hitems. specialize (Hout items).
    assert (Hall : forallb acceptable_entry items = false).
    { destruct (forallb acceptable_entry items) eqn:E; [|reflexivity].
      rewrite forallb_forall in E. rewrite (E _ Hin) in Hbad. discriminate. }
    rewrite Hall in Hout. destruct Hout as [e ->]. cbn [and_then]. eauto.
  - intros items Hitems Hall. unfold normalizeManifest.
    rewrite (Hobj _ Hitems), Hitems. specialize (Hout items).
    rewrite Hall in Hout. destruct Hout as (entries & -> & _). cbn [and_then]. eauto.
Qed.

Lemma normalizeManifest_complete_witness :
  entry_complete
    (mkEntry "agent" "Agent" "An agent" [mkFlavor "ts" None; mkFlavor "py" (Some "python")]
       (Some (Finite 2%Q)) None None None None)
  /\ exists e, normalizeManifest blank_name_fixture ["starters"; "templates"; "manifest.json"]
               = Throw e.
Proof.
  split.
  - destruct (normalizeManifest_complete manifest_data_fixture
                ["starters"; "templates"; "manifest.json"]) as (Hok & _).
    destruct (Hok (mkManifest (Some (Finite 1%Q))
                     [mkEntry "agent" "Agent" "An agent"
                        [mkFlavor "ts" None; mkFlavor "py" (Some "python")]
                        (Some (Finite 2%Q)) None None None None]) eq_refl) as (Hall & _).
    apply Hall. now left.
  - destruct (normalizeManifest_complete blank_name_fixture
                ["starters"; "templates"; "manifest.json"]) as (_ & Hbad & _).
    eapply Hbad; [reflexivity | right; left; reflexivity | reflexivity].
Defined.

(** ** templates.ts: the order of the templates *)

Lemma compare_number_antisym (x y : number) :
  compare_number y x = CompOpp (compare_number x y).
Proof.
  destruct x as [|p|], y as [|q|]; cbn [compare_number CompOpp]; try reflexivity.
  symmetry. apply Qcompare_antisym.
Qed.

Lemma compare_number_trans (x y z : number) :
  compare_number x y <> Gt -> compare_number y z <> Gt -> compare_number x z <> Gt.
Proof.
  destruct x as [|p|], y as [|q|], z as [|r|]; cbn [compare_number]; try congruence.
  rewrite <- !Qle_alt. apply Qle_trans.
Qed.

Lemma compare_number_Eq_l (x y z : number) :
  compare_number x y = Eq -> compare_number x z = compare_number y z.
Proof.
  destruct x as [|p|], y as [|q|], z as [|r|]; cbn [compare_number]; try congruence.
  rewrite <- Qeq_alt. intros H. now rewrite H.
Qed.

Lemma compare_number_Lt_trans (x y z : number) :
  compare_number x y = Lt -> compare_number y z <> Gt -> compare_number x z = Lt.
Proof.
  destruct x as [|p|], y as [|q|], z as [|r|]; cbn [compare_number]; try congruence.
  rewrite <- !Qlt_alt, <- Qle_alt. apply Qlt_le_trans.
Qed.

Lemma compare_number_trans_Lt (x y z : number) :
  compare_number x y <> Gt -> compare_number y z = Lt -> compare_number x z = Lt.
Proof.
  destruct x as [|p|], y as [|q|], z as [|r|]; cbn [compare_number]; try congruence.
  rewrite <- !Qlt_alt, <- Qle_alt. apply Qle_lt_trans.
Qed.

Lemma compare_order_flip (a b : option number) :
  compare_order a b = Gt -> compare_order b a = Lt.
Proof.
  unfold compare_order. rewrite (compare_number_antisym (or_infinity a)).
  now intros ->.
Qed.

Lemma compare_order_sym (a b : option number) :
  compare_order a b = Eq -> compare_order b a = Eq.
Proof.
  unfold compare_order. rewrite (compare_number_antisym (or_infinity a)).
  now intros ->.
Qed.

Lemma compare_order_trans (a b c : option number) :
  compare_order a b <> Gt -> compare_order b c <> Gt -> compare_order a c <> Gt.
Proof. apply compare_number_trans. Qed.

Lemma compare_order_Eq_l (a b c : option number) :
  compare_order a b = Eq -> compare_order a c = compare_order b c.
Proof. apply compare_number_Eq_l. Qed.

Lemma compare_order_Eq_r (a b c : option number) :
  compare_order b c = Eq -> compare_order a b = compare_order a c.
Proof.
  unfold compare_order. intros H.
  rewrite (compare_number_antisym (or_infinity b) (or_infinity a)),
    (compare_number_antisym (or_infinity c) (or_infinity a)).
  f_equal. apply compare_number_Eq_l. exact H.
Qed.

Lemma compare_order_Lt_trans (a b c : option number) :
  compare_order a b = Lt -> compare_order b c <> Gt -> compare_order a c = Lt.
Proof. apply compare_number_Lt_trans. Qed.

Lemma compare_order_trans_Lt (a b c : option number) :
  compare_order a b <> Gt -> compare_order b c = Lt -> compare_order a c = Lt.
Proof. apply compare_number_trans_Lt. Qed.

Section Sorting.

Variable localeCompare : string -> string -> comparison.

(** Insertion into a sorted list, for any order that the comparator
    respects *)
Lemma insert_template_sorted (le : TemplateInfo -> TemplateInfo -> Prop) :
  (forall a b c, le a b -> le b c -> le a c) ->
  (forall t u, compare_templates localeCompare t u = Gt -> le u t) ->
  (forall t u, compare_templates localeCompare t u <> Gt -> le t u) ->
  forall t l, StronglySorted le l -> StronglySorted le (insert_template localeCompare t l).
Proof.
  intros Htrans Hgt Hle t l. induction 1 as [|u l Hs IH Hall]; cbn [insert_template].
  - repeat constructor.
  - destruct (compare_templates localeCompare t u) eqn:E.
    + assert (Htu : le t u) by (apply Hle; congruence).
      constructor; [now constructor|]. constructor; [exact Htu|].
      eapply Forall_impl; [|exact Hall]. intros x Hx. now apply (Htrans t u x).
    + assert (Htu : le t u) by (apply Hle; congruence).
      constructor; [now constructor|]. constructor; [exact Htu|].
      eapply Forall_impl; [|exact Hall]. intros x Hx. now apply (Htrans t u x).
    + constructor; [exact IH|].
      eapply Permutation_Forall; [symmetry; apply insert_template_perm|].
      constructor; [now apply Hgt | exact Hall].
Qed.

Lemma sortTemplates_sorted_for (le : TemplateInfo -> TemplateInfo -> Prop) :
  (forall a b c, le a b -> le b c -> le a c) ->
  (forall t u, compare_templates localeCompare t u = Gt -> le u t) ->
  (forall t u, compare_templates localeCompare t u <> Gt -> le t u) ->
  forall l, StronglySorted le (sortTemplates localeCompare l).
Proof.
  intros Htrans Hgt Hle l. induction l as [|t l IH]; [constructor|].
  unfold sortTemplates in *. cbn [fold_right]. now apply insert_template_sorted.
Qed.

Lemma StronglySorted_middle {A : Type} (le : A -> A -> Prop) (before : list A) (a : A)
    (between : list A) (b : A) (after : list A) :
  StronglySorted le (before ++ a :: between ++ b :: after)%list -> le a b.
Proof.
  induction before as [|x before IH]; cbn [app]; intros H.
  - apply StronglySorted_inv in H. destruct H as [_ H].
    rewrite Forall_forall in H. apply H. apply in_or_app. right. now left.
  - apply StronglySorted_inv in H. now apply IH.
Qed.

(** X9.  Whatever the comparison of names does, [sortTemplates] only
    reorders its input, and in its result the [order] fields ascend,
    where a template without an order counts as one of order
    [Infinity]: a template is never behind one of a greater order, and
    behind a template without an order there are only templates without
    an order or of order [Infinity] (a literal that overflows, as
    [1e999]), which tie with it. *)
Theorem sortTemplates_by_order (l : list TemplateInfo) :
  Permutation (sortTemplates localeCompare l) l
  /\ StronglySorted (fun a b => compare_order (order a) (order b) <> Gt)
       (sortTemplates localeCompare l)
  /\ (forall before a between b after,
        sortTemplates localeCompare l = (before ++ a :: between ++ b :: after)%list ->
        order a = None ->
        order b = None \/ order b = Some PosInfinity).
Proof.
  assert (Hsorted : StronglySorted (fun a b => compare_order (order a) (order b) <> Gt)
                      (sortTemplates localeCompare l)).
  { apply sortTemplates_sorted_for.
    - intros a b c. apply compare_order_trans.
    - intros t u. unfold compare_templates.
      destruct (compare_order (order t) (order u)) eqn:E; try discriminate.
      + intros _. now rewrite (compare_order_sym _ _ E).
      + intros _. now rewrite (compare_order_flip _ _ E).
    - intros t u. unfold compare_templates.
      destruct (compare_order (order t) (order u)) eqn:E; congruence. }
  split; [apply sortTemplates_perm|]. split; [exact Hsorted|].
  intros before a between b after E Ha. rewrite E in Hsorted.
  apply StronglySorted_middle in Hsorted. rewrite Ha in Hsorted.
  destruct (order b) as [[|q|]|]; cbn in Hsorted; auto; congruence.
Qed.

(** X10.  When the comparison of names is an order (total and
    transitive), the result of [sortTemplates] is sorted by the
    comparator of the source: by [order] first, then by the lower-cased
    name. *)
Theorem sortTemplates_sorted (l : list TemplateInfo) :
  (forall a b, localeCompare a b = Gt -> localeCompare b a <> Gt) ->
  (forall a b c, localeCompare a b <> Gt -> localeCompare b c <> Gt ->
                 localeCompare a c <> Gt) ->
  StronglySorted (fun a b => compare_templates localeCompare a b <> Gt)
    (sortTemplates localeCompare l).
Proof.
  intros Htotal Htrans. apply sortTemplates_sorted_for.
  - intros a b c. unfold compare_templates.
    destruct (compare_order (order a) (order b)) eqn:Eab.
    + rewrite (compare_order_Eq_l _ _ (order c) Eab).
      destruct (compare_order (order b) (order c)); [apply Htrans | congruence ..].
    + intros _ Hbc.
      assert (H : compare_order (order b) (order c) <> Gt)
        by (destruct (compare_order (order b) (order c)); congruence).
      now rewrite (compare_order_Lt_trans _ _ _ Eab H).
    + congruence.
  - intros t u. unfold compare_templates.
    destruct (compare_order (order t) (order u)) eqn:E; try discriminate.
    + rewrite (compare_order_sym _ _ E). apply Htotal.
    + intros _. now rewrite (compare_order_flip _ _ E).
  - auto.
Qed.

(** X11.  A list that is in the order of the comparator comes back as
    it is: [sortTemplates] moves a template only past one it must
    follow, so templates that compare equal keep their places. *)
Theorem sortTemplates_keeps_sorted (l : list TemplateInfo) :
  StronglySorted (fun a b => compare_templates localeCompare a b <> Gt) l ->
  sortTemplates localeCompare l = l.
Proof.
  induction 1 as [|t l Hs IH Hall]; [reflexivity|].
  unfold sortTemplates in *. cbn [fold_right]. rewrite IH.
  destruct l as [|u l]; [reflexivity|]. cbn [insert_template].
  inversion Hall as [|? ? Htu _]. subst.
  destruct (compare_templates localeCompare t u); congruence.
Qed.

End Sorting.

(** The comparison of the fixtures is an order. *)
Lemma compare_strings_total (a b : string) :
  compare_strings a b = Gt -> compare_strings b a <> Gt.
Proof.
  unfold compare_strings. rewrite (String.compare_antisym b a).
  destruct (String.compare a b); cbn; congruence.
Qed.

Lemma compare_strings_trans (a b c : string) :
  compare_strings a b <> Gt -> compare_strings b c <> Gt -> compare_strings a c <> Gt.
Proof.
  unfold compare_strings. intros Hab Hbc.
  destruct (String.compare a b) eqn:Eab; [| |congruence].
  - apply String.compare_eq_iff in Eab. now subst.
  - destruct (String.compare b c) eqn:Ebc; [| |congruence].
    + apply String.compare_eq_iff in Ebc. subst. congruence.
    + apply OrderedTypeEx.String_as_OT.cmp_lt in Eab, Ebc.
      pose proof (OrderedTypeEx.String_as_OT.lt_trans _ _ _ Eab Ebc) as H.
      apply OrderedTypeEx.String_as_OT.cmp_lt in H.
      unfold OrderedTypeEx.String_as_OT.cmp in H. congruence.
Qed.

Lemma sortTemplates_sorted_witness :
  StronglySorted (fun a b => compare_templates compare_strings a b <> Gt)
    (sortTemplates compare_strings
       [titled "zeta" None; titled "beta" (Some (Finite 2%Q)); titled "alpha" None;
        titled "omega" (Some PosInfinity); titled "delta" (Some (Finite (3 # 2)%Q));
        titled "gamma" (Some (Finite 1%Q))]).
Proof.
  apply (sortTemplates_sorted compare_strings).
  - apply compare_strings_total.
  - apply compare_strings_trans.
Defined.

Lemma sortTemplates_keeps_sorted_witness :
  sortTemplates compare_strings
    [titled "gamma" (Some (Finite 1%Q)); titled "beta" (Some (Finite 2%Q)); titled "alpha" None;
     titled "zeta" None]
  = [titled "gamma" (Some (Finite 1%Q)); titled "beta" (Some (Finite 2%Q)); titled "alpha" None;
     titled "zeta" None].
Proof.
  apply (sortTemplates_keeps_sorted compare_strings).
  repeat first [apply SSorted_nil | apply SSorted_cons | apply Forall_nil | apply Forall_cons];
    vm_compute; discriminate.
Defined.

(** Orders that are fractions and infinities: a template without an
    order ties with one of order [Infinity], and the names decide. *)
Example sortTemplates_orders :
  map id
    (sortTemplates compare_strings
       [titled "b" (Some PosInfinity); titled "a" None;
        titled "c" (Some (Finite (3 # 2)%Q)); titled "d" (Some (Finite 1%Q));
        titled "e" (Some NegInfinity); titled "f" (Some (Finite (6 # 4)%Q))])
  = ["e"; "d"; "c"; "f"; "a"; "b"].
Proof. reflexivity. Qed.

(** ** templates.ts: discovery without a manifest, and the paths of the flavors *)


Lemma surviving_flavors_grows (fs : node) (templatePath : fspath)
    (declared : list TemplateManifestFlavor) (acc : list string)
    (paths : list (string * string)) (f : string) :
  In f acc -> In f (fst (surviving_flavors fs templatePath declared acc paths)).
Proof.
  revert acc paths. induction declared as [|fl rest IH]; intros acc paths Hin;
    cbn [surviving_flavors]; [exact Hin|].
  destruct (isDirectory fs (path_join templatePath (relativePath_of fl)));
    apply IH; [apply in_or_app; now left | exact Hin].
Qed.



Section DiscoveryMore.

Variable JSON_parse : string -> option json.
Variable localeCompare : string -> string -> comparison.

(** X12.  In a well-formed tree whose [templates] directory has no
    [manifest.json], [discoverTemplates] is the directory scan, sorted,
    and [onWarning] is not called. *)
Theorem discoverTemplates_without_manifest (fs : node) (startersPath : fspath)
    (options : TemplateDiscoveryOptions) (entries : list (string * node)) :
  valid_fs fs = true ->
  resolve (startersPath ++ [TEMPLATES_DIR])%list fs = Found (Dir entries) ->
  alookup MANIFEST_FILENAME entries = None ->
  discoverTemplates JSON_parse localeCompare fs startersPath options
  = (Ok (sortTemplates localeCompare
           (scanned_templates (startersPath ++ [TEMPLATES_DIR])%list entries)), []).
Proof.
  intros Hv Hd Hm. unfold discoverTemplates, readTemplateManifest, fs_readFile.
  rewrite manifest_path, (resolve_child_of_dir _ _ _ _ Hd), Hm.
  cbn. now rewrite (scanTemplates_valid fs startersPath entries Hv Hd).
Qed.

(** X13.  Without a [templates] directory under the starters root
    there is no catalog: [discoverTemplates] fails, with the message
    that names the directory and the environment variable. *)
Theorem discoverTemplates_no_templates_dir (fs : node) (startersPath : fspath)
    (options : TemplateDiscoveryOptions) (e : errno) :
  resolve (startersPath ++ [TEMPLATES_DIR])%list fs = Missing e ->
  fst (discoverTemplates JSON_parse localeCompare fs startersPath options)
  = Throw (new_Error
             ("Templates directory not found: "
                ++ path_string (startersPath ++ [TEMPLATES_DIR])%list ++ nl
                ++ "Make sure NAYLENCE_STARTERS_PATH points to the starters repo root.")).
Proof.
  intros Hd. unfold discoverTemplates, readTemplateManifest, fs_readFile.
  rewrite manifest_path, resolve_app, Hd.
  assert (Hscan : scanTemplates fs startersPath
            = Throw (new_Error
                ("Templates directory not found: "
                   ++ path_string (startersPath ++ [TEMPLATES_DIR])%list ++ nl
                   ++ "Make sure NAYLENCE_STARTERS_PATH points to the starters repo root."))).
  { unfold scanTemplates, fs_access. now rewrite templates_dir_path, Hd. }
  destruct (isNotFoundError _); cbn [fst and_then]; now rewrite Hscan.
Qed.


(** X15.  Generation finds what discovery lists.  In a well-formed tree
    with a manifest whose ids are unique, or without a usable manifest,
    [templateExists] holds of every template and flavor that
    [discoverTemplates] returns: [resolveTemplateFlavorPath] leads to a
    directory. *)
Theorem templateExists_of_discovered (fs : node) (startersPath : fspath)
    (options : TemplateDiscoveryOptions) (ts : list TemplateInfo) :
  valid_fs fs = true ->
  match readTemplateManifest JSON_parse fs startersPath with
  | Ok (Some manifest) => unique_ids manifest
  | _ => True
  end ->
  fst (discoverTemplates JSON_parse localeCompare fs startersPath options) = Ok ts ->
  forall t f, In t ts -> In f (flavors t) ->
    templateExists JSON_parse fs startersPath (id t) f = true.
Proof.
  intros Hv Huniq Hrun t f Ht Hf. unfold discoverTemplates in Hrun.
  unfold templateExists, resolveTemplateFlavorPath.
  assert (Hscan : forall l, scanTemplates fs startersPath = Ok l -> In t l ->
            isDirectory fs (getTemplatePath startersPath (id t) f) = true).
  { intros l Hl Hin. destruct (scanTemplates_Ok fs startersPath l Hv Hl) as (entries & Hd & ->).
    apply scanned_templates_In in Hin.
    destruct Hin as (k & flavorDirs & Hk & Hne & ->). cbn [flavors id] in *.
    destruct (scanned_flavor_dir fs _ entries k flavorDirs Hv Hd Hk) as [_ Hfl].
    assert (Hvd : valid_fs (Dir entries) = true) by (eapply valid_fs_resolve; eauto).
    destruct (valid_dir_entry entries k _ Hvd Hk) as (Hname & _ & _).
    unfold getTemplatePath.
    rewrite templates_dir_path, (path_join_valid_name _ _ Hname). now apply Hfl. }
  destruct (readTemplateManifest JSON_parse fs startersPath) as [[manifest|]|e].
  - cbn [fst] in Hrun. injection Hrun as <-.
    apply (Permutation_in _ (sortTemplates_perm _ _)) in Ht.
    apply templatesFromManifest_loop_spec in Ht.
    destruct Ht as (entry & Hentry & Hid & Hpath & _ & _ & Hfl).
    rewrite Hfl in Hf.
    destruct (surviving_flavors_spec _ _ _ _ _ _ Hf) as [[] | (fl & Hin & Hfid & Hdir)].
    destruct Huniq as [Hentries Hflavors].
    rewrite <- Hid, <- Hfid.
    rewrite (find_unique entry_id _ entry Hentries Hentry).
    rewrite (find_unique flavor_id _ fl (Hflavors _ Hentry) Hin).
    now rewrite <- Hpath.
  - cbn [fst] in Hrun.
    destruct (scanTemplates fs startersPath) as [l|e] eqn:Hl; [|discriminate].
    injection Hrun as <-. apply (Permutation_in _ (sortTemplates_perm _ _)) in Ht.
    exact (Hscan l eq_refl Ht).
  - cbn [fst] in Hrun.
    destruct (scanTemplates fs startersPath) as [l|e'] eqn:Hl; [|discriminate].
    injection Hrun as <-. apply (Permutation_in _ (sortTemplates_perm _ _)) in Ht.
    exact (Hscan l eq_refl Ht).
Qed.

End DiscoveryMore.

Lemma discoverTemplates_without_manifest_witness :
  discoverTemplates no_json compare_strings scan_fixture ["starters"] (mkDiscoveryOptions true)
  = (Ok [mkTemplateInfo "agent" (Some "agent") None ["ts"; "py"] None
           ["starters"; "templates"; "agent"] None None None None None], []).
Proof.
  apply (discoverTemplates_without_manifest no_json compare_strings scan_fixture ["starters"]
           (mkDiscoveryOptions true)
           [("README.md", File true "templates");
            ("empty", Dir [("notes.txt", File true "")]);
            ("agent", Dir [("ts", Dir []); ("py", Dir [])])]);
    reflexivity.
Defined.

Lemma discoverTemplates_no_templates_dir_witness :
  fst (discoverTemplates no_json compare_strings (Dir [("starters", Dir [])]) ["starters"]
         (mkDiscoveryOptions true))
  = Throw (new_Error
             ("Templates directory not found: /starters/templates" ++ nl
                ++ "Make sure NAYLENCE_STARTERS_PATH points to the starters repo root.")).
Proof.
  apply (discoverTemplates_no_templates_dir no_json compare_strings
           (Dir [("starters", Dir [])]) ["starters"] (mkDiscoveryOptions true) ENOENT).
  reflexivity.
Defined.


Lemma templateExists_of_discovered_witness :
  templateExists manifest_fixture_json manifest_fixture ["starters"] "alpha" "py" = true.
Proof.
  change "alpha" with
    (id (mkTemplateInfo "alpha" (Some "Alpha") (Some "The first") ["ts"; "py"]
           (Some [("py", "python")]) ["starters"; "templates"; "alpha"]
           None None None None None)) at 1.
  apply (templateExists_of_discovered manifest_fixture_json compare_strings manifest_fixture
           ["starters"] (mkDiscoveryOptions true)
           [mkTemplateInfo "alpha" (Some "Alpha") (Some "The first") ["ts"; "py"]
              (Some [("py", "python")]) ["starters"; "templates"; "alpha"]
              None None None None None] eq_refl).
  - vm_compute. split.
    + repeat constructor; simpl; intuition discriminate.
    + intros entry [<- | [<- | []]]; repeat constructor; simpl; intuition discriminate.
  - reflexivity.
  - left. reflexivity.
  - right. left. reflexivity.
Defined.

(** ** utils.ts: [getProjectName] and [isBinaryFile] *)

Lemma split_on_not_nil (sep : ascii) (s : string) : split_on sep s <> [].
Proof.
  destruct s as [|c s]; cbn [split_on]; [discriminate|].
  destruct (Ascii.eqb c sep); [discriminate|].
  destruct (split_on sep s); discriminate.
Qed.

Lemma split_on_app (sep : ascii) (a b : string) :
  split_on sep (a ++ String sep b) = (split_on sep a ++ split_on sep b)%list.
Proof.
  induction a as [|c a IH]; cbn [append split_on].
  - now rewrite Ascii.eqb_refl.
  - destruct (Ascii.eqb c sep); [now rewrite IH|].
    rewrite IH. pose proof (split_on_not_nil sep a) as Hne.
    destruct (split_on sep a) as [|l ls]; [congruence | reflexivity].
Qed.

Lemma path_join_app (base : fspath) (a b : string) :
  path_join base (a ++ String "/" b) = path_join (path_join base a) b.
Proof. unfold path_join. now rewrite split_on_app, fold_left_app. Qed.

Lemma valid_name_relative (n : string) : valid_name n = true -> isAbsolute n = false.
Proof.
  unfold valid_name, isAbsolute, startsWith. intros H.
  apply andb_true_iff in H. destruct H as [_ H].
  destruct n as [|c n]; [reflexivity|]. cbn [all_chars] in H.
  apply andb_true_iff in H. destruct H as [Hc _].
  apply negb_true_iff in Hc. cbn [prefix].
  destruct (ascii_dec "/" c) as [<-|]; [discriminate Hc | reflexivity].
Qed.

Lemma last_snoc {A : Type} (l : list A) (x d : A) : last (l ++ [x])%list d = x.
Proof. apply last_last. Qed.

(** X16.  The project name is the last name of the target directory: of
    a bare name the name itself, of a path that ends in a name that
    name, wherever the path starts and whatever the working directory
    is, and of [.] the name of the working directory. *)
Theorem getProjectName_last_name (cwd : fspath) (dir n : string) :
  valid_name n = true ->
  getProjectName cwd n = n
  /\ getProjectName cwd (dir ++ "/" ++ n) = n
  /\ getProjectName cwd "." = basename cwd.
Proof.
  intros Hn. unfold getProjectName, path_resolve, basename. split; [|split].
  - rewrite (valid_name_relative _ Hn), (path_join_valid_name _ _ Hn). apply last_snoc.
  - change (dir ++ "/" ++ n) with (dir ++ String "/" n).
    destruct (isAbsolute (dir ++ String "/" n));
      rewrite path_join_app, (path_join_valid_name _ _ Hn); apply last_snoc.
  - reflexivity.
Qed.

Lemma getProjectName_last_name_witness :
  getProjectName ["home"; "me"] "my-project" = "my-project"
  /\ getProjectName ["home"; "me"] ("/path/to" ++ "/" ++ "my-project") = "my-project"
  /\ getProjectName ["home"; "me"] "." = basename ["home"; "me"].
Proof. apply (getProjectName_last_name ["home"; "me"] "/path/to" "my-project"). reflexivity. Defined.

Lemma after_last_dot_none (s : string) :
  all_chars (fun c => negb (Ascii.eqb c ".")) s = true -> after_last_dot s = None.
Proof.
  induction s as [|c s IH]; [reflexivity|]. cbn [all_chars after_last_dot].
  intros H. apply andb_true_iff in H. destruct H as [Hc Hs].
  apply negb_true_iff in Hc. now rewrite (IH Hs), Hc.
Qed.

Lemma after_last_dot_app (stem ext : string) :
  all_chars (fun c => negb (Ascii.eqb c ".")) ext = true ->
  after_last_dot (stem ++ String "." ext) = Some ext.
Proof.
  intros He. induction stem as [|c stem IH]; cbn [append after_last_dot].
  - now rewrite (after_last_dot_none _ He).
  - now rewrite IH.
Qed.

Lemma toLowerCase_dot (ext : string) :
  toLowerCase (String "." ext) = String "." (toLowerCase ext).
Proof. reflexivity. Qed.

Lemma last_part_name (n : string) :
  n <> "" -> all_chars (fun c => negb (Ascii.eqb c "/")) n = true -> last_part n = n.
Proof.
  intros Hne Hn. unfold last_part. rewrite (split_on_no_sep _ _ Hn). cbn [filter].
  apply String.eqb_neq in Hne. now rewrite Hne.
Qed.

Lemma last_part_app (dir n : string) :
  n <> "" -> all_chars (fun c => negb (Ascii.eqb c "/")) n = true ->
  last_part (dir ++ "/" ++ n) = n.
Proof.
  intros Hne Hn. unfold last_part.
  change (dir ++ "/" ++ n) with (dir ++ String "/" n).
  rewrite split_on_app, filter_app, (split_on_no_sep _ _ Hn). cbn [filter].
  apply String.eqb_neq in Hne. rewrite Hne. cbn [negb]. apply last_snoc.
Qed.

(** X17.  [isBinaryFile] looks at the last name of the path and there at
    the text after the last dot, in lower case.  A name with a stem
    before that dot is binary exactly when the set holds the dot with
    the lower-cased extension, so [logo.PNG] is binary when [.png] is in
    the set; a name that only begins with a dot has the empty
    extension, so a file called [.png] is not binary for the set of the
    generator; and the directories before the name do not count:
    [dir/.png] and [a.png/readme] are not binary either. *)
Theorem isBinaryFile_by_extension (stem ext : string) (binaryExtensions : list string) :
  all_chars (fun c => negb (Ascii.eqb c ".")) ext = true ->
  all_chars (fun c => negb (Ascii.eqb c "/")) (stem ++ "." ++ ext) = true ->
  (stem <> "" -> stem ++ "." ++ ext <> ".." ->
   isBinaryFile (stem ++ "." ++ ext) binaryExtensions
   = array_includes binaryExtensions ("." ++ toLowerCase ext))
  /\ isBinaryFile ("." ++ ext) binaryExtensions = array_includes binaryExtensions ""
  /\ isBinaryFile ("." ++ ext) BINARY_EXTENSIONS = false
  /\ (forall dir n : string,
        n <> "" -> all_chars (fun c => negb (Ascii.eqb c "/")) n = true ->
        isBinaryFile (dir ++ "/" ++ n) binaryExtensions = isBinaryFile n binaryExtensions).
Proof.
  intros He Hs.
  assert (Hext : all_chars (fun c => negb (Ascii.eqb c "/")) ("." ++ ext) = true).
  { rewrite all_chars_append in Hs. now apply andb_true_iff in Hs. }
  assert (Hdot : extname ("." ++ ext) = "").
  { unfold extname. rewrite (last_part_name ("." ++ ext)); [|discriminate|exact Hext].
    change ("." ++ ext) with ("" ++ String "." ext).
    rewrite (after_last_dot_app "" ext He). cbn [append String.length].
    now rewrite Nat.add_1_r, Nat.eqb_refl. }
  split; [|split; [|split]].
  - intros Hstem Hne. unfold isBinaryFile, extname.
    rewrite (last_part_name (stem ++ "." ++ ext)); [|now destruct stem|exact Hs].
    change (stem ++ "." ++ ext) with (stem ++ String "." ext) in *.
    rewrite (after_last_dot_app stem ext He).
    assert (Hlen : Nat.eqb (String.length ext + 1) (String.length (stem ++ String "." ext))
                   = false).
    { apply Nat.eqb_neq. rewrite length_append. cbn [String.length].
      destruct stem; [congruence | cbn [String.length]; lia]. }
    rewrite Hlen. apply String.eqb_neq in Hne. rewrite Hne.
    now rewrite toLowerCase_dot.
  - unfold isBinaryFile. now rewrite Hdot.
  - unfold isBinaryFile. now rewrite Hdot.
  - intros dir n Hne Hn. unfold isBinaryFile, extname.
    now rewrite (last_part_app dir n Hne Hn), (last_part_name n Hne Hn).
Qed.

Lemma isBinaryFile_by_extension_witness :
  isBinaryFile ("logo" ++ "." ++ "PNG") BINARY_EXTENSIONS
  = array_includes BINARY_EXTENSIONS ("." ++ toLowerCase "PNG")
  /\ isBinaryFile ("." ++ "png") BINARY_EXTENSIONS = false
  /\ isBinaryFile ("dir" ++ "/" ++ ".png") BINARY_EXTENSIONS
     = isBinaryFile ".png" BINARY_EXTENSIONS.
Proof.
  destruct (isBinaryFile_by_extension "logo" "PNG" BINARY_EXTENSIONS eq_refl eq_refl)
    as (Hstem & _ & _ & _).
  split; [apply Hstem; discriminate|].
  destruct (isBinaryFile_by_extension "logo" "png" BINARY_EXTENSIONS eq_refl eq_refl)
    as (_ & _ & Hdot' & Hdir).
  split; [exact Hdot'|]. apply Hdir; [discriminate | reflexivity].
Defined.

(** The extension of the last name only: a directory that looks like an
    image and a hidden file in a directory *)
Example extname_of_paths :
  extname "dir/.png" = "" /\ extname "a.png/readme" = "" /\ extname "a/logo.png" = ".png"
  /\ extname "logo.png/" = ".png" /\ extname "a/.." = "" /\ extname "a/b." = "."
  /\ extname "/" = "" /\ extname "a/..." = ".".
Proof. repeat split. Qed.

(** ** templates.ts: the list of the templates as text *)

Lemma includes_join (sep : string) (l : list string) (line x : string) :
  In line l -> includes line x = true -> includes (join sep l) x = true.
Proof.
  intros Hin Hx. induction l as [|y l IH]; [contradiction|].
  destruct l as [|z l].
  - destruct Hin as [-> | []]. exact Hx.
  - change (join sep (y :: z :: l)) with (y ++ sep ++ join sep (z :: l)).
    destruct Hin as [-> | Hin].
    + now apply includes_append_l.
    + do 2 apply includes_append_r. now apply IH.
Qed.

Lemma includes_refl (s : string) : includes s s = true.
Proof.
  rewrite <- (append_nil_r s) at 1. apply includes_here.
Qed.

Lemma template_label_id (t : TemplateInfo) : includes (template_label t) (id t) = true.
Proof.
  unfold template_label. destruct (name t) as [n|]; [|apply includes_refl].
  destruct (truthy n && negb (String.eqb n (id t))); [|apply includes_refl].
  do 2 apply includes_append_r. apply includes_here.
Qed.

(** X18.  The text [formatTemplateList] makes of a list that is not
    empty starts with the heading and shows every template: its id,
    its description, and the line of its flavors, joined by commas. *)
Theorem formatTemplateList_shows_all (templates : list TemplateInfo) (t : TemplateInfo) :
  In t templates ->
  startsWith (formatTemplateList templates) "Available templates:" = true
  /\ includes (formatTemplateList templates) (id t) = true
  /\ includes (formatTemplateList templates) ("flavors: " ++ join ", " (flavors t)) = true
  /\ forall d, description t = Some d -> includes (formatTemplateList templates) d = true.
Proof.
  intros Hin. unfold formatTemplateList.
  destruct templates as [|t0 rest] eqn:E; [contradiction|]. rewrite <- E in *.
  assert (Hline : forall line x, In line (template_lines t) -> includes line x = true ->
            includes (join nl ("Available templates:" :: "" :: flat_map template_lines templates))
              x = true).
  { intros line x Hl Hx. apply (includes_join nl _ line); [|exact Hx].
    right. right. apply in_flat_map. eauto. }
  split; [reflexivity|]. split; [|split].
  - apply (Hline ("  " ++ template_label t)).
    + unfold template_lines. now left.
    + apply includes_append_r, template_label_id.
  - apply (Hline ("    flavors: " ++ join ", " (flavors t))).
    + unfold template_lines. apply in_or_app. right. now left.
    + change "    flavors: " with ("    " ++ "flavors: "). rewrite append_assoc.
      apply includes_append_r, includes_refl.
  - intros d Hd. destruct (truthy d) eqn:Et.
    + apply (Hline ("    " ++ d)).
      * unfold template_lines. rewrite Hd, Et. apply in_or_app. left. right. now left.
      * apply includes_append_r, includes_refl.
    + apply negb_false_iff, String.eqb_eq in Et. subst d.
      now destruct (join nl _).
Qed.

Lemma formatTemplateList_shows_all_witness :
  includes (formatTemplateList [titled "alpha" None; titled "beta" (Some (Finite 1%Q))]) "beta" = true.
Proof.
  destruct (formatTemplateList_shows_all [titled "alpha" None; titled "beta" (Some (Finite 1%Q))]
              (titled "beta" (Some (Finite 1%Q)))) as (_ & Hid & _).
  - right. left. reflexivity.
  - exact Hid.
Defined.

(** ** generator.ts: what the steps change and what they leave *)

(** X19.  [validateTargetDir] accepts exactly two situations: nothing
    is at the target path while its parent can be reached, or an empty
    directory is there.  A file, a directory with an entry, and a path
    below a file are refused. *)
Theorem validateTargetDir_accepts_iff (fs : node) (targetPath : fspath) :
  validateTargetDir fs targetPath = Ok tt
  <-> resolve targetPath fs = Missing ENOENT \/ resolve targetPath fs = Found (Dir []).
Proof.
  split; [|apply validateTargetDir_free].
  unfold validateTargetDir, fs_stat, fs_readdir.
  destruct (resolve targetPath fs) as [[r d|r d|[|e es]]|[]]; cbn; auto; discriminate.
Qed.

Lemma gitignore_suffix_none (content : string) :
  gitignore_suffix content = "" ->
  forall entry, In entry gitignore_entries -> line_present content entry = true.
Proof.
  unfold gitignore_suffix. intros H entry Hin.
  destruct (filter (fun entry => negb (line_present content entry)) gitignore_entries)
    as [|m ms] eqn:Em.
  - destruct (line_present content entry) eqn:Hp; [reflexivity | exfalso].
    assert (Hm : In entry []) by (rewrite <- Em; apply filter_In; now rewrite Hp).
    exact Hm.
  - exfalso. destruct (endsWith content nl); destruct ms; destruct m; discriminate.
Qed.

Lemma gitignore_suffix_keeps (content entry : string) :
  entry <> "" -> line_present content entry = true ->
  line_present (content ++ gitignore_suffix content) entry = true.
Proof.
  intros Hne Hp. unfold gitignore_suffix.
  destruct (filter (fun entry => negb (line_present content entry)) gitignore_entries)
    as [|m ms]; [now rewrite append_nil_r|].
  apply line_present_after_append; auto.
Qed.

(** What a run of the function that returns has done *)
Lemma ensureGitignore_outcome (destDir : fspath) (fs fs' : node) :
  ensureGitignoreHasEnvEntries destDir fs = (Ok tt, fs') ->
  exists n text,
    resolve (destDir ++ [".gitignore"])%list fs' = Found n
    /\ readable_content n = Some text
    /\ (n = File true text \/ resolve (destDir ++ [".gitignore"])%list fs = Found n)
    /\ line_present text ".env.agent" = true
    /\ line_present text ".env.client" = true
    /\ (forall n0 content entry,
          resolve (destDir ++ [".gitignore"])%list fs = Found n0 ->
          readable_content n0 = Some content ->
          entry <> "" -> line_present content entry = true ->
          line_present text entry = true)
    /\ (forall q,
          is_prefix (destDir ++ [".gitignore"])%list q = false ->
          is_prefix q (destDir ++ [".gitignore"])%list = false ->
          resolve q fs' = resolve q fs).
Proof.
  intros Hrun.
  destruct (resolve (destDir ++ [".gitignore"])%list fs) as [n|e] eqn:Hgi.
  - destruct (ensureGitignore_stuck destDir fs n Hgi)
      as [[content ->] | [(content & -> & Hs & Hsame) | [err Herr]]]; [| |congruence].
    + destruct (ensureGitignore_on_file destDir fs content Hgi)
        as (fs1 & Hrun1 & Hsame & Hput).
      rewrite Hrun1 in Hrun. injection Hrun as ->.
      destruct (String.eqb_spec (gitignore_suffix content) "") as [Hs|Hs].
      * rewrite (Hsame Hs). exists (File true content), content.
        split; [exact Hgi|]. split; [reflexivity|]. split; [now left|].
        split; [apply (gitignore_suffix_none _ Hs); cbn; auto|].
        split; [apply (gitignore_suffix_none _ Hs); cbn; auto|].
        split; [|reflexivity].
        intros n0 c entry [= <-] [= <-] _ Hp. exact Hp.
      * specialize (Hput Hs).
        exists (File true (content ++ gitignore_suffix content)),
          (content ++ gitignore_suffix content).
        split; [exact (resolve_put_same _ _ _ _ Hput)|].
        split; [reflexivity|]. split; [now left|].
        split; [apply (gitignore_suffix_none _ (gitignore_suffix_complete content));
                cbn; auto|].
        split; [apply (gitignore_suffix_none _ (gitignore_suffix_complete content));
                cbn; auto|].
        split.
        -- intros n0 c entry [= <-] [= <-]. apply gitignore_suffix_keeps.
        -- intros q H1 H2. exact (resolve_put_apart _ _ _ _ q Hput H1 H2).
    + rewrite Hsame in Hrun. injection Hrun as <-.
      exists (Locked true content), content.
      split; [exact Hgi|]. split; [reflexivity|]. split; [now right|].
      split; [apply (gitignore_suffix_none _ Hs); cbn; auto|].
      split; [apply (gitignore_suffix_none _ Hs); cbn; auto|].
      split; [|reflexivity].
      intros n0 c entry [= <-] [= <-] _ Hp. exact Hp.
  - assert (Hex : pathExists fs (destDir ++ [".gitignore"])%list = false)
      by (unfold pathExists, fs_access; now rewrite Hgi).
    rewrite (ensureGitignore_on_nothing _ _ Hex) in Hrun.
    unfold fs_writeFile in Hrun. rewrite Hgi in Hrun.
    destruct e; try discriminate.
    destruct (put (destDir ++ [".gitignore"])%list
                (File true (".env.agent" ++ nl ++ ".env.client" ++ nl)) fs)
      as [fs1|e1] eqn:Hput; [|discriminate].
    injection Hrun as <-.
    exists (File true (".env.agent" ++ nl ++ ".env.client" ++ nl)),
      (".env.agent" ++ nl ++ ".env.client" ++ nl).
    split; [exact (resolve_put_same _ _ _ _ Hput)|].
    split; [reflexivity|]. split; [now left|].
    split; [reflexivity|]. split; [reflexivity|]. split.
    + intros n0 c entry Hc. discriminate.
    + intros q H1 H2. exact (resolve_put_apart _ _ _ _ q Hput H1 H2).
Qed.

(** X20.  Whenever [ensureGitignoreHasEnvEntries] returns, the
    [.gitignore] of the destination is a file that can be read, in
    which [.env.agent] and [.env.client] are both present as lines: a
    file the function has written, or the file that was there (which
    is so where the file cannot be written and lacks no entry); every
    entry that was present before still is; and no path outside that
    file has changed. *)
Theorem ensureGitignore_covers (destDir : fspath) (fs fs' : node) :
  ensureGitignoreHasEnvEntries destDir fs = (Ok tt, fs') ->
  exists n text,
    resolve (destDir ++ [".gitignore"])%list fs' = Found n
    /\ readable_content n = Some text
    /\ (n = File true text \/ resolve (destDir ++ [".gitignore"])%list fs = Found n)
    /\ line_present text ".env.agent" = true
    /\ line_present text ".env.client" = true
    /\ (forall n0 content entry,
          resolve (destDir ++ [".gitignore"])%list fs = Found n0 ->
          readable_content n0 = Some content ->
          entry <> "" -> line_present content entry = true ->
          line_present text entry = true)
    /\ (forall q,
          is_prefix (destDir ++ [".gitignore"])%list q = false ->
          is_prefix q (destDir ++ [".gitignore"])%list = false ->
          resolve q fs' = resolve q fs).
Proof. apply ensureGitignore_outcome. Qed.

Lemma ensureGitignore_covers_witness :
  exists text,
    resolve ["project"; ".gitignore"]
      (snd (ensureGitignoreHasEnvEntries ["project"] gitignore_fixture))
    = Found (File true text)
    /\ line_present text ".env.agent" = true
    /\ line_present text ".env.client" = true.
Proof.
  destruct (ensureGitignore_covers ["project"] gitignore_fixture
              (snd (ensureGitignoreHasEnvEntries ["project"] gitignore_fixture)) eq_refl)
    as (n & text & Hfile & Hn & _ & Ha & Hc & _).
  vm_compute in Hfile. injection Hfile as <-. injection Hn as <-.
  eexists. split; [vm_compute; reflexivity|]. split; assumption.
Defined.

Lemma ensureEnvFile_apart (templateDir destDir : fspath) (name : string) (fs : node)
    (q : fspath) :
  is_prefix (env_out destDir name) q = false ->
  is_prefix q (env_out destDir name) = false ->
  resolve q (snd (ensureEnvFile templateDir destDir name fs)) = resolve q fs.
Proof.
  intros H1 H2.
  destruct (ensureEnvFile_shape templateDir destDir name fs)
    as [[_ ->] | [(_ & _ & ->) | (_ & _ & ->)]]; try reflexivity.
  destruct (fs_copyFile_shape (env_template templateDir name) (env_out destDir name) fs)
    as [[e ->] | (n & c & fs1 & _ & _ & Hput & ->)]; [reflexivity|].
  exact (resolve_put_apart _ _ _ _ q Hput H1 H2).
Qed.

(** The two rounds write at their two paths only. *)
Lemma ensureEnvFiles_apart (templateDir destDir : fspath) (fs : node) (q : fspath) :
  (forall name, In name ["agent"; "client"] ->
     is_prefix (env_out destDir name) q = false
     /\ is_prefix q (env_out destDir name) = false) ->
  resolve q (snd (ensureEnvFiles templateDir destDir fs)) = resolve q fs.
Proof.
  intros Hq.
  destruct (Hq "agent" (or_introl eq_refl)) as [Ha1 Ha2].
  destruct (Hq "client" (or_intror (or_introl eq_refl))) as [Hc1 Hc2].
  pose proof (ensureEnvFile_apart templateDir destDir "agent" fs q Ha1 Ha2) as Hagent.
  unfold ensureEnvFiles. cbn [for_each]. unfold bind at 1.
  destruct (ensureEnvFile templateDir destDir "agent" fs) as [[[]|e] fs1]; cbn [snd] in *;
    [|exact Hagent].
  pose proof (ensureEnvFile_apart templateDir destDir "client" fs1 q Hc1 Hc2) as Hclient.
  unfold bind, ret.
  destruct (ensureEnvFile templateDir destDir "client" fs1) as [[[]|e] fs2]; cbn [snd] in *;
    congruence.
Qed.

(** X21.  [ensureEnvFiles] writes nowhere but at [.env.agent] and
    [.env.client] of the destination: every path that is neither one of
    the two, nor above or below one of them, leads afterwards to what
    it led to before, the templates among them. *)
Theorem ensureEnvFiles_frame (templateDir destDir : fspath) (fs : node) (q : fspath) :
  (forall name, In name ["agent"; "client"] ->
     is_prefix (env_out destDir name) q = false
     /\ is_prefix q (env_out destDir name) = false) ->
  resolve q (snd (ensureEnvFiles templateDir destDir fs)) = resolve q fs.
Proof. apply ensureEnvFiles_apart. Qed.

Lemma ensureEnvFiles_frame_witness :
  resolve ["template"; ".env.client.template"]
    (snd (ensureEnvFiles ["template"] ["target"] env_fixture))
  = resolve ["template"; ".env.client.template"] env_fixture.
Proof.
  apply (ensureEnvFiles_frame ["template"] ["target"] env_fixture).
  intros name [<- | [<- | []]]; split; reflexivity.
Defined.

(** ** generator.ts: what the substitution leaves alone *)

(** Induction on a tree, with the property for the entries of a
    directory *)
Lemma node_induction (P : node -> Prop) :
  (forall r d, P (File r d)) ->
  (forall r d, P (Locked r d)) ->
  (forall entries, Forall (fun e => P (snd e)) entries -> P (Dir entries)) ->
  forall n, P n.
Proof.
  intros Hfile Hlocked Hdir. fix IH 1.
  intros [r d|r d|entries]; [apply Hfile|apply Hlocked|].
  apply Hdir. revert entries. fix IHentries 1. intros [|[k c] entries].
  - constructor.
  - constructor; [apply IH | apply IHentries].
Qed.

Lemma skeleton_dir (entries : list (string * node)) :
  skeleton (Dir entries) = Dir (map (fun e => (fst e, skeleton (snd e))) entries).
Proof.
  cbn [skeleton]. f_equal. induction entries as [|[k c] r IH]; [reflexivity|].
  cbn [map fst snd]. now rewrite <- IH.
Qed.

Lemma skeleton_substituteInFile (filename : string) (substitutions : list (string * string))
    (n : node) :
  skeleton (substituteInFile filename substitutions n) = skeleton n.
Proof.
  unfold substituteInFile. destruct (isBinaryFile filename BINARY_EXTENSIONS); [reflexivity|].
  destruct n as [[|] data|[|] data|es]; try reflexivity.
  now destruct (substitute_content substitutions data false) as [c [|]].
Qed.

Lemma skeleton_substitute_node (substitutions : list (string * string)) (n : node) :
  forall filename, skeleton (substitute_node substitutions filename n) = skeleton n.
Proof.
  induction n as [r d|r d|entries IH] using node_induction; intros filename.
  - cbn [substitute_node]. apply skeleton_substituteInFile.
  - cbn [substitute_node]. apply skeleton_substituteInFile.
  - rewrite substitute_node_dir.
    destruct (String.eqb filename "node_modules" || String.eqb filename ".git");
      [reflexivity|].
    rewrite !skeleton_dir. f_equal. unfold substitute_entries. rewrite map_map.
    induction IH as [|[k c] r Hc _ IHr]; [reflexivity|].
    cbn [map fst snd] in *. now rewrite Hc, IHr.
Qed.

Lemma aset_existing_skeleton (s : string) (c c' : node) (es : list (string * node)) :
  alookup s es = Some c -> skeleton c' = skeleton c ->
  map (fun e => (fst e, skeleton (snd e))) (aset s c' es)
  = map (fun e => (fst e, skeleton (snd e))) es.
Proof.
  intros Hl Hs. induction es as [|[k v] es IH]; [discriminate|].
  cbn [alookup aset] in *. destruct (String.eqb_spec s k) as [->|Hne].
  - injection Hl as ->. cbn [map fst snd]. now rewrite Hs.
  - cbn [map fst snd]. now rewrite (IH Hl).
Qed.

(** Replacing a node by one of the same structure keeps the structure
    of the tree. *)
Lemma skeleton_put (p : fspath) (new old : node) (fs fs' : node) :
  resolve p fs = Found old -> skeleton new = skeleton old ->
  put p new fs = Found fs' -> skeleton fs' = skeleton fs.
Proof.
  revert fs fs'. induction p as [|s p IH]; intros fs fs'; simpl.
  - intros [= ->] Hs [= <-]. exact Hs.
  - destruct fs as [r d|r d|es]; [discriminate|discriminate|].
    destruct (alookup s es) as [c|] eqn:E; [|discriminate].
    intros Hold Hs. destruct (put p new c) as [c'|e] eqn:Ec; [|discriminate].
    intros [= <-]. rewrite !skeleton_dir. f_equal.
    apply (aset_existing_skeleton s c c' es E). eapply IH; eauto.
Qed.

Lemma substituteInDirectory_Ok (dirPath : fspath) (substitutions : list (string * string))
    (fs fs' : node) :
  substituteInDirectory dirPath substitutions fs = (Ok tt, fs') ->
  exists entries,
    resolve dirPath fs = Found (Dir entries)
    /\ put dirPath (Dir (substitute_entries substitutions entries)) fs = Found fs'.
Proof.
  unfold substituteInDirectory, fs_readdir.
  destruct (resolve dirPath fs) as [[r d|r d|entries]|e]; try discriminate.
  destruct (put dirPath (Dir (substitute_entries substitutions entries)) fs) as [fs1|e] eqn:Hput;
    [|discriminate].
  intros [= <-]. eauto.
Qed.

(** X22.  [substituteInDirectory] changes the contents of files and
    nothing else: afterwards the tree has the same names in the same
    order, the same directories and the same files as before. *)
Theorem substituteInDirectory_keeps_structure (dirPath : fspath)
    (substitutions : list (string * string)) (fs fs' : node) :
  substituteInDirectory dirPath substitutions fs = (Ok tt, fs') ->
  skeleton fs' = skeleton fs.
Proof.
  intros Hrun. destruct (substituteInDirectory_Ok _ _ _ _ Hrun) as (entries & Hd & Hput).
  apply (skeleton_put dirPath (Dir (substitute_entries substitutions entries))
           (Dir entries) fs fs' Hd); [|exact Hput].
  pose proof (skeleton_substitute_node substitutions (Dir entries) "") as H.
  rewrite substitute_node_dir in H. exact H.
Qed.

Lemma substituteInDirectory_keeps_structure_witness :
  skeleton (snd (substituteInDirectory ["my-awesome-project"]
                   (buildSubstitutions "my-awesome-project") generated_fixture))
  = skeleton generated_fixture.
Proof.
  apply (substituteInDirectory_keeps_structure ["my-awesome-project"]
           (buildSubstitutions "my-awesome-project")).
  reflexivity.
Defined.

Lemma substitute_content_absent (substitutions : list (string * string)) (data : string)
    (modified : bool) :
  (forall placeholder value, In (placeholder, value) substitutions ->
     includes data placeholder = false) ->
  substitute_content substitutions data modified = (data, modified).
Proof.
  induction substitutions as [|[p v] rest IH]; intros H; [reflexivity|].
  cbn [substitute_content]. rewrite (H p v (or_introl eq_refl)).
  apply IH. intros p' v' Hin. apply (H p' v'). now right.
Qed.

(** X23.  [substituteInDirectory] leaves alone: every path that is not
    in the directory; every [node_modules] and [.git] directory met on
    the way down, with all it holds; and, among the files it reaches,
    those with a binary extension, those that cannot be read, those in
    which no placeholder occurs, and those that cannot be written. *)
Theorem substituteInDirectory_frame (dirPath : fspath)
    (substitutions : list (string * string)) (fs fs' : node) :
  substituteInDirectory dirPath substitutions fs = (Ok tt, fs') ->
  (forall q, is_prefix dirPath q = false -> is_prefix q dirPath = false ->
     resolve q fs' = resolve q fs)
  /\ (forall rel skipped below entries,
        (forall d, In d rel -> d <> "node_modules" /\ d <> ".git") ->
        skipped = "node_modules" \/ skipped = ".git" ->
        resolve (dirPath ++ rel ++ [skipped])%list fs = Found (Dir entries) ->
        resolve (dirPath ++ rel ++ skipped :: below)%list fs'
        = resolve (dirPath ++ rel ++ skipped :: below)%list fs)
  /\ (forall rel filename r data,
        (forall d, In d rel -> d <> "node_modules" /\ d <> ".git") ->
        resolve (dirPath ++ rel ++ [filename])%list fs = Found (File r data) ->
        isBinaryFile filename BINARY_EXTENSIONS = true
        \/ r = false
        \/ (forall placeholder value, In (placeholder, value) substitutions ->
              includes data placeholder = false) ->
        resolve (dirPath ++ rel ++ [filename])%list fs' = Found (File r data))
  /\ (forall rel filename r data,
        (forall d, In d rel -> d <> "node_modules" /\ d <> ".git") ->
        resolve (dirPath ++ rel ++ [filename])%list fs = Found (Locked r data) ->
        resolve (dirPath ++ rel ++ [filename])%list fs' = Found (Locked r data)).
Proof.
  intros Hrun. destruct (substituteInDirectory_Ok _ _ _ _ Hrun) as (entries & Hd & Hput).
  split; [|split; [|split]].
  - intros q H1 H2. exact (resolve_put_apart _ _ _ _ q Hput H1 H2).
  - intros rel skipped below sub Hrel Hskip Hsub.
    change (skipped :: below) with ([skipped] ++ below)%list.
    rewrite !(app_assoc rel [skipped] below), !(app_assoc dirPath (rel ++ [skipped]) below).
    rewrite (resolve_app (dirPath ++ rel ++ [skipped])%list below fs'),
            (resolve_app (dirPath ++ rel ++ [skipped])%list below fs).
    rewrite Hsub.
    rewrite (resolve_put_below _ (rel ++ [skipped])%list _ _ _ Hput).
    rewrite (resolve_substitute substitutions rel skipped entries Hrel).
    rewrite resolve_app, Hd in Hsub. rewrite Hsub.
    rewrite substitute_node_dir.
    now destruct Hskip as [-> | ->].
  - intros rel filename r data Hrel Hfile Hwhy.
    rewrite (resolve_put_below _ (rel ++ [filename])%list _ _ _ Hput).
    rewrite (resolve_substitute substitutions rel filename entries Hrel).
    rewrite resolve_app, Hd in Hfile. rewrite Hfile. f_equal.
    cbn [substitute_node]. unfold substituteInFile.
    destruct (isBinaryFile filename BINARY_EXTENSIONS) eqn:Eb; [reflexivity|].
    destruct r; [|reflexivity].
    destruct Hwhy as [Hw | [Hw | Hw]]; [discriminate | discriminate |].
    now rewrite (substitute_content_absent _ _ _ Hw).
  - intros rel filename r data Hrel Hfile.
    rewrite (resolve_put_below _ (rel ++ [filename])%list _ _ _ Hput).
    rewrite (resolve_substitute substitutions rel filename entries Hrel).
    rewrite resolve_app, Hd in Hfile. rewrite Hfile.
    cbn [substitute_node]. now rewrite substituteInFile_locked.
Qed.

Lemma substituteInDirectory_frame_witness :
  resolve ["my-awesome-project"; "node_modules"; "dep.js"]
    (snd (substituteInDirectory ["my-awesome-project"]
            (buildSubstitutions "my-awesome-project") generated_fixture))
  = Found (File true "__PROJECT_NAME__")
  /\ resolve ["my-awesome-project"; "logo.png"]
       (snd (substituteInDirectory ["my-awesome-project"]
               (buildSubstitutions "my-awesome-project") generated_fixture))
     = Found (File true "__PROJECT_NAME__").
Proof.
  destruct (substituteInDirectory_frame ["my-awesome-project"]
              (buildSubstitutions "my-awesome-project") generated_fixture
              (snd (substituteInDirectory ["my-awesome-project"]
                      (buildSubstitutions "my-awesome-project") generated_fixture))
              eq_refl) as (_ & Hskip & Hfile & _).
  split.
  - refine (eq_trans (Hskip [] "node_modules" ["dep.js"]
                        [("dep.js", File true "__PROJECT_NAME__")] _ _ _) _);
      [intros d [] | now left | reflexivity | reflexivity].
  - apply (Hfile [] "logo.png" true "__PROJECT_NAME__");
      [intros d [] | reflexivity | now left].
Defined.

(** ** generator.ts: the copy of the template *)

Lemma aset_aset {A : Type} (k : string) (v v' : A) (l : list (string * A)) :
  aset k v' (aset k v l) = aset k v' l.
Proof.
  induction l as [|[k0 v0] l IH]; cbn [aset].
  - now rewrite String.eqb_refl.
  - destruct (String.eqb k k0) eqn:E; cbn [aset].
    + now rewrite String.eqb_refl.
    + now rewrite E, IH.
Qed.

Lemma aset_new {A : Type} (k : string) (v : A) (l : list (string * A)) :
  alookup k l = None -> aset k v l = (l ++ [(k, v)])%list.
Proof.
  induction l as [|[k0 v0] l IH]; cbn [alookup aset app]; [reflexivity|].
  destruct (String.eqb k k0); [discriminate|]. intros H. now rewrite (IH H).
Qed.

Lemma aset_same {A : Type} (k : string) (v : A) (l : list (string * A)) :
  alookup k l = Some v -> aset k v l = l.
Proof.
  induction l as [|[k0 v0] l IH]; cbn [alookup aset]; [discriminate|].
  destruct (String.eqb_spec k k0) as [->|_].
  - now intros [= ->].
  - intros H. now rewrite (IH H).
Qed.

Lemma alookup_app_new {A : Type} (k k' : string) (v : A) (l : list (string * A)) :
  k <> k' -> alookup k l = None -> alookup k (l ++ [(k', v)])%list = None.
Proof.
  intros Hne. induction l as [|[k0 v0] l IH]; cbn [alookup app].
  - apply String.eqb_neq in Hne. now rewrite Hne.
  - destruct (String.eqb k k0); [discriminate | exact IH].
Qed.

(** Putting back what is there changes nothing. *)
Lemma put_same (p : fspath) (fs n : node) :
  resolve p fs = Found n -> put p n fs = Found fs.
Proof.
  revert fs. induction p as [|s p IH]; intros fs; simpl.
  - now intros [= ->].
  - destruct fs as [r d|r d|es]; [discriminate|discriminate|].
    destruct (alookup s es) as [c|] eqn:E; [|discriminate].
    intros H. rewrite (IH _ H). now rewrite (aset_same _ _ _ E).
Qed.

(** A directory put at a path and then given an entry is the directory
    with the entry, put at the path. *)
Lemma put_put_child (p : fspath) (acc : list (string * node)) (k : string) (c : node)
    (fs fs1 fs2 : node) :
  put p (Dir acc) fs = Found fs1 ->
  put (p ++ [k])%list c fs1 = Found fs2 ->
  put p (Dir (aset k c acc)) fs = Found fs2.
Proof.
  revert fs fs1 fs2. induction p as [|s p IH]; intros fs fs1 fs2; simpl.
  - intros [= <-]. destruct (alookup k acc); now intros [= <-].
  - destruct fs as [r d|r d|es]; [discriminate|discriminate|].
    destruct (alookup s es) as [ch|] eqn:E.
    + destruct (put p (Dir acc) ch) as [ch1|e] eqn:E1; [|discriminate].
      intros [= <-]. simpl. rewrite alookup_aset_same.
      destruct (put (p ++ [k])%list c ch1) as [ch2|e] eqn:E2; [|discriminate].
      intros [= <-]. rewrite (IH _ _ _ E1 E2). now rewrite aset_aset.
    + destruct p as [|t p]; [|discriminate].
      intros [= <-]. simpl. rewrite alookup_aset_same.
      destruct (alookup k acc); intros [= <-]; now rewrite aset_aset.
Qed.

(** Paths that part ways stay apart however they go on. *)
Lemma apart_extend (p q x y : fspath) :
  is_prefix p q = false -> is_prefix q p = false ->
  is_prefix (p ++ x)%list (q ++ y)%list = false.
Proof.
  revert q. induction p as [|s p IH]; intros q; [discriminate|].
  destruct q as [|t q]; [discriminate|]. simpl.
  rewrite (String.eqb_sym t s). destruct (String.eqb s t); simpl; [apply IH | reflexivity].
Qed.

Lemma apart_extend_l (p q x : fspath) :
  is_prefix p q = false -> is_prefix q p = false ->
  is_prefix (p ++ x)%list q = false /\ is_prefix q (p ++ x)%list = false.
Proof.
  intros H1 H2. split.
  - rewrite <- (app_nil_r q). now apply apart_extend.
  - rewrite <- (app_nil_r q). now apply apart_extend.
Qed.

Lemma copied_dir (parts : list string) (items : list (string * node)) :
  copied parts (Dir items) = Dir (copied_entries parts items).
Proof.
  cbn [copied]. f_equal. unfold copied_entries.
  induction items as [|[k c] r IH]; [reflexivity|]. cbn [flat_map fst snd].
  destruct (copy_filter (parts ++ [k])%list); cbn [app]; now rewrite IH.
Qed.

Lemma copyable_dir (parts : list string) (items : list (string * node)) :
  copyable parts (Dir items)
  = forallb (fun e => if copy_filter (parts ++ [fst e])%list
                      then copyable (parts ++ [fst e])%list (snd e) else true) items.
Proof.
  cbn [copyable]. induction items as [|[k c] r IH]; [reflexivity|].
  cbn [forallb fst snd]. now rewrite IH.
Qed.

Lemma copy_item_dir (src : fspath) (parts : list string) (dest : fspath)
    (items : list (string * node)) :
  copy_item src (Dir items) parts dest
  = bind (fun fs => if pathExists fs dest then (Ok tt, fs) else fs_mkdir dest fs)
      (fun _ => copy_items src parts dest items).
Proof.
  cbn [copy_item]. f_equal.
  assert (H : (fix copy_items (items0 : list (string * node)) : M unit :=
                 match items0 with
                 | [] => ret tt
                 | (item, child) :: rest =>
                     bind (if copy_filter (parts ++ [item])%list
                           then copy_item (src ++ [item])%list child (parts ++ [item])%list
                                  (dest ++ [item])%list
                           else ret tt)
                       (fun _ => copy_items rest)
                 end) items = copy_items src parts dest items).
  { induction items as [|[k c] r IH]; [reflexivity|]. cbn [copy_items]. now rewrite IH. }
  now rewrite H.
Qed.

(** The loop over the items, when every item is copied well *)
Lemma copy_items_copies (src : fspath) (parts : list string) (dest : fspath)
    (items : list (string * node)) (fs0 : node) :
  is_prefix src dest = false -> is_prefix dest src = false ->
  forall rest acc fs,
    Forall (fun e => copies_well (snd e)) rest ->
    (forall k c, In (k, c) rest -> alookup k items = Some c /\ valid_fs c = true) ->
    unique_names (map fst rest) = true ->
    (forall k, In k (map fst rest) -> alookup k acc = None) ->
    forallb (fun e => if copy_filter (parts ++ [fst e])%list
                      then copyable (parts ++ [fst e])%list (snd e) else true) rest = true ->
    resolve src fs = Found (Dir items) ->
    put dest (Dir acc) fs0 = Found fs ->
    exists fs',
      copy_items src parts dest rest fs = (Ok tt, fs')
      /\ put dest (Dir (acc ++ copied_entries parts rest)) fs0 = Found fs'
      /\ resolve src fs' = Found (Dir items).
Proof.
  intros Hsd Hds rest. induction rest as [|[k c] rest IH];
    intros acc fs Hwell Hitems Huniq Hfree Hcopy Hsrc Hput.
  - exists fs. cbn [copy_items copied_entries flat_map]. rewrite app_nil_r. auto.
  - inversion Hwell as [|? ? Hc Hrest]. subst. cbn [snd] in Hc.
    cbn [map fst unique_names] in Huniq. apply andb_true_iff in Huniq.
    destruct Huniq as [Hk Huniq]. apply negb_true_iff in Hk.
    cbn [forallb fst snd] in Hcopy. apply andb_true_iff in Hcopy.
    destruct Hcopy as [Hck Hcopy].
    assert (Hitems' : forall k' c', In (k', c') rest ->
              alookup k' items = Some c' /\ valid_fs c' = true)
      by (intros k' c' Hin; apply Hitems; now right).
    cbn [copy_items copied_entries flat_map fst snd].
    fold (copied_entries parts rest).
    destruct (copy_filter (parts ++ [k])%list) eqn:Ef.
    + destruct (Hitems k c (or_introl eq_refl)) as [Hlook Hvalid].
      destruct (apart_extend_l dest src [k] Hds Hsd) as [Hd1 Hd2].
      destruct (Hc (parts ++ [k])%list (src ++ [k])%list dest k acc fs Hvalid Hck)
        as (fs1 & Hrun1 & Hput1).
      * now rewrite (resolve_child_of_dir _ _ _ _ Hsrc), Hlook.
      * now apply apart_extend.
      * now apply apart_extend.
      * exact (resolve_put_same _ _ _ _ Hput).
      * apply Hfree. now left.
      * assert (Hacc : put dest (Dir (acc ++ [(k, copied (parts ++ [k])%list c)])%list) fs0
                       = Found fs1).
        { rewrite <- (aset_new k _ acc) by (apply Hfree; now left).
          exact (put_put_child _ _ _ _ _ _ _ Hput Hput1). }
        destruct (IH (acc ++ [(k, copied (parts ++ [k])%list c)])%list fs1 Hrest Hitems' Huniq)
          as (fs' & Hrun & Hput' & Hsrc').
        -- intros k' Hin. apply alookup_app_new; [|apply Hfree; now right].
           intros ->.
           assert (Hex : existsb (String.eqb k) (map fst rest) = true)
             by (apply existsb_exists; exists k; split;
                 [exact Hin | apply String.eqb_refl]).
           congruence.
        -- exact Hcopy.
        -- now rewrite (resolve_put_apart _ _ _ _ src Hput1 Hd1 Hd2).
        -- exact Hacc.
        -- exists fs'. unfold bind at 1. rewrite Hrun1.
           split; [exact Hrun|]. split; [|exact Hsrc'].
           cbn [app]. now rewrite <- app_assoc in Hput'.
    + destruct (IH acc fs Hrest Hitems' Huniq) as (fs' & Hrun & Hput' & Hsrc'); auto.
      * intros k' Hin. apply Hfree. now right.
      * exists fs'. unfold bind at 1, ret at 1. auto.
Qed.

Lemma valid_fs_items (items : list (string * node)) :
  valid_fs (Dir items) = true ->
  unique_names (map fst items) = true
  /\ forall k c, In (k, c) items -> alookup k items = Some c /\ valid_fs c = true.
Proof.
  intros Hv. split.
  - rewrite valid_fs_dir in Hv. now apply andb_true_iff in Hv.
  - intros k c Hin. destruct (valid_dir_entry items k c Hv Hin) as (_ & Hc & Hl). auto.
Qed.

Lemma fs_mkdir_new (d : fspath) (a : string) (es : list (string * node)) (fs : node) :
  resolve d fs = Found (Dir es) -> alookup a es = None ->
  exists fs1, fs_mkdir (d ++ [a])%list fs = (Ok tt, fs1)
              /\ put (d ++ [a])%list (Dir []) fs = Found fs1.
Proof.
  intros Hd Ha. unfold fs_mkdir. rewrite (resolve_child_of_dir _ _ _ _ Hd), Ha.
  destruct (put_app_dir d a (Dir []) fs es Hd) as [fs1 Hput]. rewrite Hput. eauto.
Qed.

(** At a free place, fs-extra has no file to remove. *)
Lemma fse_copyFile_free (src dest : fspath) (fs : node) :
  pathExists fs dest = false -> fse_copyFile src dest fs = fs_copyFile src dest fs.
Proof.
  intros H. apply pathExists_missing in H. destruct H as [e He].
  unfold fse_copyFile. rewrite He. now destruct (fs_readFile fs src).
Qed.

(** Every node is copied well. *)
Lemma copy_item_copies (n : node) : copies_well n.
Proof.
  induction n as [r data|r data|items IH] using node_induction;
    intros parts src d a es fs Hv Hc Hsrc Hsd Hds Hd Ha.
  - cbn [copyable] in Hc. subst r. cbn [copy_item copied].
    assert (Hfree : pathExists fs (d ++ [a])%list = false)
      by (unfold pathExists, fs_access;
          now rewrite (resolve_child_of_dir _ _ _ _ Hd), Ha).
    rewrite (fse_copyFile_free _ _ _ Hfree).
    destruct (fs_copyFile_creates src d a fs _ data es Hsrc eq_refl Hd Hfree)
      as (fs' & Hput & Hrun).
    eauto.
  - cbn [copyable] in Hc. subst r. cbn [copy_item copied].
    assert (Hfree : pathExists fs (d ++ [a])%list = false)
      by (unfold pathExists, fs_access;
          now rewrite (resolve_child_of_dir _ _ _ _ Hd), Ha).
    rewrite (fse_copyFile_free _ _ _ Hfree).
    destruct (fs_copyFile_creates src d a fs _ data es Hsrc eq_refl Hd Hfree)
      as (fs' & Hput & Hrun).
    eauto.
  - rewrite copy_item_dir, copied_dir. unfold bind at 1.
    assert (Hex : pathExists fs (d ++ [a])%list = false)
      by (unfold pathExists, fs_access; now rewrite (resolve_child_of_dir _ _ _ _ Hd), Ha).
    rewrite Hex. destruct (fs_mkdir_new d a es fs Hd Ha) as (fs1 & -> & Hput1).
    destruct (valid_fs_items items Hv) as [Huniq Hitems].
    rewrite copyable_dir in Hc.
    destruct (copy_items_copies src parts (d ++ [a])%list items fs Hsd Hds items [] fs1
                IH Hitems Huniq (fun _ _ => eq_refl) Hc)
      as (fs' & Hrun & Hput & _).
    + now rewrite (resolve_put_apart _ _ _ _ src Hput1 Hds Hsd).
    + exact Hput1.
    + exists fs'. split; [exact Hrun | exact Hput].
Qed.

Lemma alookup_copied_entries (parts : list string) (k : string)
    (items : list (string * node)) :
  alookup k (copied_entries parts items)
  = if copy_filter (parts ++ [k])%list
    then option_map (copied (parts ++ [k])%list) (alookup k items)
    else None.
Proof.
  unfold copied_entries. induction items as [|[k0 c0] items IH]; cbn [flat_map alookup fst snd].
  - now destruct (copy_filter (parts ++ [k])%list).
  - destruct (String.eqb_spec k k0) as [<-|Hne].
    + destruct (copy_filter (parts ++ [k])%list) eqn:Ef; cbn [app alookup].
      * now rewrite String.eqb_refl.
      * exact IH.
    + destruct (copy_filter (parts ++ [k0])%list); cbn [app alookup]; [|exact IH].
      apply String.eqb_neq in Hne. now rewrite Hne.
Qed.

(** What is found in a copy is the copy of what is found in the
    original at the same path, and the filter accepts the path and all
    that leads to it; and the converse. *)
Lemma resolve_copied (rel : fspath) :
  forall (parts : list string) (n m : node),
    resolve rel (copied parts n) = Found m
    <-> (forall pre post, rel = (pre ++ post)%list -> pre <> [] ->
           copy_filter (parts ++ pre)%list = true)
        /\ exists m0, resolve rel n = Found m0 /\ m = copied (parts ++ rel)%list m0.
Proof.
  induction rel as [|k rel IH]; intros parts n m.
  - cbn [resolve]. rewrite app_nil_r. split.
    + intros [= <-]. split; [|eauto].
      intros [|x pre] post H Hne; [congruence | discriminate].
    + intros (_ & m0 & [= <-] & ->). reflexivity.
  - destruct n as [r data|r data|items];
      [cbn; split; [discriminate | intros (_ & m0 & H & _); discriminate] ..|].
    rewrite copied_dir. cbn [resolve]. rewrite alookup_copied_entries.
    destruct (copy_filter (parts ++ [k])%list) eqn:Ef.
    + destruct (alookup k items) as [c|]; cbn [option_map].
      * rewrite IH. rewrite <- app_assoc. cbn [app]. split.
        -- intros (Hpre & Hm). split; [|exact Hm].
           intros [|x pre] post H Hne; [congruence|]. cbn [app] in H. injection H as <- ->.
           destruct pre as [|y pre]; [exact Ef|].
           change (parts ++ k :: y :: pre)%list with (parts ++ [k] ++ y :: pre)%list.
           rewrite app_assoc. apply (Hpre (y :: pre) post); [reflexivity | discriminate].
        -- intros (Hpre & Hm). split; [|exact Hm].
           intros pre post -> Hne. rewrite <- app_assoc. cbn [app].
           apply (Hpre (k :: pre) post); [reflexivity | discriminate].
      * split; [discriminate | intros (_ & m0 & H & _); discriminate].
    + split; [discriminate|]. intros (Hpre & _).
      rewrite (Hpre [k] rel eq_refl) in Ef; [discriminate | discriminate].
Qed.

(** What the filter accepts is none of the things to leave behind. *)
Lemma copy_filter_accepts (rel : list string) :
  rel <> [] -> copy_filter rel = true ->
  (forall part, In part rel -> ~ In part EXCLUDE_DIRS)
  /\ (startsWith (last rel "") ".env." && endsWith (last rel "") ".template") = false
  /\ (forall f, rel = [f] -> ~ In f EXCLUDE_FILES).
Proof.
  intros Hne. unfold copy_filter. destruct rel as [|x rel]; [congruence|].
  destruct (Nat.eqb (List.length (x :: rel)) 1
            && array_includes EXCLUDE_FILES (last (x :: rel) "")) eqn:E1; [discriminate|].
  destruct (startsWith (last (x :: rel) "") ".env."
            && endsWith (last (x :: rel) "") ".template") eqn:E2; [discriminate|].
  intros H. apply negb_true_iff in H. split; [|split; [reflexivity|]].
  - intros part Hin Hex. apply array_includes_In in Hex.
    assert (Hsome : existsb (fun part => array_includes EXCLUDE_DIRS part) (x :: rel) = true)
      by (apply existsb_exists; eauto).
    congruence.
  - intros f [= -> ->] Hex. apply array_includes_In in Hex.
    cbn [List.length last Nat.eqb andb] in E1. congruence.
Qed.

Lemma free_place_apart (src d : fspath) (a : string) (es : list (string * node))
    (fs : node) (n : node) :
  resolve src fs = Found n ->
  resolve d fs = Found (Dir es) ->
  alookup a es = None \/ alookup a es = Some (Dir []) ->
  is_prefix src (d ++ [a])%list = false ->
  is_prefix (d ++ [a])%list src = false.
Proof.
  intros Hsrc Hd Ha Hsd.
  destruct (is_prefix (d ++ [a])%list src) eqn:E; [exfalso | reflexivity].
  apply is_prefix_spec in E. destruct E as [r ->].
  rewrite resolve_app, (resolve_child_of_dir _ _ _ _ Hd) in Hsrc.
  destruct Ha as [Ha | Ha]; rewrite Ha in Hsrc; [discriminate|].
  destruct r as [|x r]; [|discriminate].
  rewrite app_nil_r, is_prefix_refl in Hsd. discriminate.
Qed.

(** The copy of a template into a free place *)
Lemma copyTemplate_copies_aux (src d : fspath) (a : string)
    (items es : list (string * node)) (fs : node) :
  valid_fs fs = true ->
  resolve src fs = Found (Dir items) ->
  copyable [] (Dir items) = true ->
  resolve d fs = Found (Dir es) ->
  alookup a es = None \/ alookup a es = Some (Dir []) ->
  is_prefix src (d ++ [a])%list = false ->
  exists fs',
    copyTemplate src (d ++ [a])%list fs = (Ok tt, fs')
    /\ resolve (d ++ [a])%list fs' = Found (copied [] (Dir items))
    /\ forall q, is_prefix (d ++ [a])%list q = false -> is_prefix q (d ++ [a])%list = false ->
         resolve q fs' = resolve q fs.
Proof.
  intros Hv Hsrc Hc Hd Ha Hsd.
  pose proof (free_place_apart src d a es fs _ Hsrc Hd Ha Hsd) as Hds.
  assert (Hvi : valid_fs (Dir items) = true) by (eapply valid_fs_resolve; eauto).
  assert (Hput : exists fs',
            copy_item src (Dir items) [] (d ++ [a])%list fs = (Ok tt, fs')
            /\ put (d ++ [a])%list (copied [] (Dir items)) fs = Found fs').
  { destruct Ha as [Ha | Ha].
    - exact (copy_item_copies (Dir items) [] src d a es fs Hvi Hc Hsrc Hsd Hds Hd Ha).
    - assert (Hdest : resolve (d ++ [a])%list fs = Found (Dir []))
        by (now rewrite (resolve_child_of_dir _ _ _ _ Hd), Ha).
      rewrite copy_item_dir, copied_dir. unfold bind at 1.
      unfold pathExists, fs_access. rewrite Hdest.
      destruct (valid_fs_items items Hvi) as [Huniq Hitems].
      rewrite copyable_dir in Hc.
      destruct (copy_items_copies src [] (d ++ [a])%list items fs Hsd Hds items [] fs)
        as (fs' & Hrun & Hput & _); auto.
      + apply Forall_forall. intros e _. apply copy_item_copies.
      + now apply put_same.
      + eauto. }
  destruct Hput as (fs' & Hrun & Hput). exists fs'. split; [|split].
  - unfold copyTemplate, fse_copy, bind, read, checkPaths, fs_stat.
    rewrite Hsrc. cbn [and_then is_dir andb]. rewrite Hsd.
    rewrite removelast_last.
    assert (Hparent : pathExists fs d = true)
      by (unfold pathExists, fs_access; now rewrite Hd).
    rewrite (resolve_child_of_dir _ _ _ _ Hd).
    destruct Ha as [Ha | Ha]; rewrite Ha; cbn [is_dir negb andb]; now rewrite Hparent.
  - exact (resolve_put_same _ _ _ _ Hput).
  - intros q H1 H2. exact (resolve_put_apart _ _ _ _ q Hput H1 H2).
Qed.

(** X24.  The copy of a template into a free place.  In a well-formed
    tree, for a template directory in which every file the filter lets
    through can be read, and a destination that is missing in an
    existing directory, or is an empty directory, and does not lie in
    the template: [copyTemplate] returns; the destination then holds the
    template without the items the filter rejects, which are left out
    with all they contain; and no path outside the destination has
    changed. *)
Theorem copyTemplate_copies (src d : fspath) (a : string)
    (items es : list (string * node)) (fs : node) :
  valid_fs fs = true ->
  resolve src fs = Found (Dir items) ->
  copyable [] (Dir items) = true ->
  resolve d fs = Found (Dir es) ->
  alookup a es = None \/ alookup a es = Some (Dir []) ->
  is_prefix src (d ++ [a])%list = false ->
  exists fs',
    copyTemplate src (d ++ [a])%list fs = (Ok tt, fs')
    /\ resolve (d ++ [a])%list fs' = Found (copied [] (Dir items))
    /\ forall q, is_prefix (d ++ [a])%list q = false -> is_prefix q (d ++ [a])%list = false ->
         resolve q fs' = resolve q fs.
Proof. apply copyTemplate_copies_aux. Qed.

(** X25.  Nothing that is to stay behind reaches the project.  After
    such a copy, whatever is found below the destination has no
    [.git], [node_modules], [dist], [.tmp], [__pycache__], [.venv] or
    [venv] in its path, is not an [.env.*.template], and is not a lock
    file or [.env] at the root of the project; and it is the copy of
    what the template has at the same relative path. *)
Theorem copyTemplate_excludes (src d : fspath) (a : string)
    (items es : list (string * node)) (fs : node) :
  valid_fs fs = true ->
  resolve src fs = Found (Dir items) ->
  copyable [] (Dir items) = true ->
  resolve d fs = Found (Dir es) ->
  alookup a es = None \/ alookup a es = Some (Dir []) ->
  is_prefix src (d ++ [a])%list = false ->
  forall rel m, rel <> [] ->
    resolve ((d ++ [a]) ++ rel)%list (snd (copyTemplate src (d ++ [a])%list fs)) = Found m ->
    (forall part, In part rel -> ~ In part EXCLUDE_DIRS)
    /\ (startsWith (last rel "") ".env." && endsWith (last rel "") ".template") = false
    /\ (forall f, rel = [f] -> ~ In f EXCLUDE_FILES)
    /\ exists m0, resolve (src ++ rel)%list fs = Found m0 /\ m = copied rel m0.
Proof.
  intros Hv Hsrc Hc Hd Ha Hsd rel m Hne Hm.
  destruct (copyTemplate_copies_aux src d a items es fs Hv Hsrc Hc Hd Ha Hsd)
    as (fs' & Hrun & Hdest & _).
  rewrite Hrun in Hm. cbn [snd] in Hm. rewrite resolve_app, Hdest in Hm.
  apply resolve_copied in Hm. destruct Hm as (Hpre & m0 & Hm0 & ->).
  cbn [app] in *.
  destruct (copy_filter_accepts rel Hne (Hpre rel [] (eq_sym (app_nil_r rel)) Hne))
    as (Hdirs & Henv & Hfiles).
  repeat (split; [assumption|]).
  exists m0. split; [|reflexivity]. now rewrite resolve_app, Hsrc.
Qed.

(** X26.  All that is to come reaches the project.  After such a copy,
    a file of the template whose relative path the filter accepts,
    with every directory on the way, is in the project at the same
    relative path with the same content, and it can be written there
    exactly when it can in the template. *)
Theorem copyTemplate_keeps (src d : fspath) (a : string)
    (items es : list (string * node)) (fs : node) :
  valid_fs fs = true ->
  resolve src fs = Found (Dir items) ->
  copyable [] (Dir items) = true ->
  resolve d fs = Found (Dir es) ->
  alookup a es = None \/ alookup a es = Some (Dir []) ->
  is_prefix src (d ++ [a])%list = false ->
  (forall rel r data,
     resolve (src ++ rel)%list fs = Found (File r data) ->
     (forall pre post, rel = (pre ++ post)%list -> pre <> [] -> copy_filter pre = true) ->
     resolve ((d ++ [a]) ++ rel)%list (snd (copyTemplate src (d ++ [a])%list fs))
     = Found (File true data))
  /\ (forall rel r data,
        resolve (src ++ rel)%list fs = Found (Locked r data) ->
        (forall pre post, rel = (pre ++ post)%list -> pre <> [] -> copy_filter pre = true) ->
        resolve ((d ++ [a]) ++ rel)%list (snd (copyTemplate src (d ++ [a])%list fs))
        = Found (Locked true data)).
Proof.
  intros Hv Hsrc Hc Hd Ha Hsd.
  destruct (copyTemplate_copies_aux src d a items es fs Hv Hsrc Hc Hd Ha Hsd)
    as (fs' & Hrun & Hdest & _).
  rewrite Hrun. cbn [snd].
  split; intros rel r data Hfile Hpre; rewrite resolve_app, Hdest;
    (apply resolve_copied; split; [exact Hpre|]);
    [exists (File r data) | exists (Locked r data)];
    (split; [|reflexivity]); now rewrite resolve_app, Hsrc in Hfile.
Qed.

(** The copy of the fixture: [.git], [.env], the lock file of the root,
    the environment template and [node_modules] stay behind; the lock
    file below the root comes along. *)
Lemma copyTemplate_copies_witness :
  exists fs',
    copyTemplate ["starters"; "templates"; "agent"; "ts"] (["work"] ++ ["my-app"])%list
      template_fixture = (Ok tt, fs')
    /\ resolve (["work"] ++ ["my-app"])%list fs'
       = Found (Dir [("README.md", File true "# __PROJECT_NAME__");
                     ("src", Dir [("index.ts", File true "// __PACKAGE_NAME__");
                                  ("package-lock.json", File true "{}")])]).
Proof.
  destruct (copyTemplate_copies ["starters"; "templates"; "agent"; "ts"] ["work"] "my-app"
              _ _ template_fixture eq_refl eq_refl eq_refl eq_refl (or_introl eq_refl) eq_refl)
    as (fs' & Hrun & Hdest & _).
  exists fs'. split; [exact Hrun | exact Hdest].
Defined.

Lemma copyTemplate_excludes_witness :
  (forall part, In part ["src"; "index.ts"] -> ~ In part EXCLUDE_DIRS)
  /\ (startsWith (last ["src"; "index.ts"] "") ".env."
      && endsWith (last ["src"; "index.ts"] "") ".template") = false
  /\ (forall f, ["src"; "index.ts"] = [f] -> ~ In f EXCLUDE_FILES)
  /\ exists m0,
       resolve (["starters"; "templates"; "agent"; "ts"] ++ ["src"; "index.ts"])%list
         template_fixture = Found m0
       /\ File true "// __PACKAGE_NAME__" = copied ["src"; "index.ts"] m0.
Proof.
  apply (copyTemplate_excludes ["starters"; "templates"; "agent"; "ts"] ["work"] "my-app"
           _ _ template_fixture eq_refl eq_refl eq_refl eq_refl (or_introl eq_refl) eq_refl
           ["src"; "index.ts"] (File true "// __PACKAGE_NAME__")).
  - discriminate.
  - reflexivity.
Defined.

Lemma copyTemplate_keeps_witness :
  resolve ((["work"] ++ ["my-app"]) ++ ["src"; "package-lock.json"])%list
    (snd (copyTemplate ["starters"; "templates"; "agent"; "ts"] (["work"] ++ ["my-app"])%list
            template_fixture))
  = Found (File true "{}").
Proof.
  destruct (copyTemplate_keeps ["starters"; "templates"; "agent"; "ts"] ["work"] "my-app"
              _ _ template_fixture eq_refl eq_refl eq_refl eq_refl (or_introl eq_refl)
              eq_refl) as [Hkeep _].
  apply (Hkeep ["src"; "package-lock.json"] true "{}").
  - reflexivity.
  - intros [|x [|y [|z pre]]] post H Hne; [congruence | | |]; cbn [app] in H.
    + injection H as <- _. reflexivity.
    + injection H as <- <- _. reflexivity.
    + discriminate H.
Defined.

(** ** generator.ts: a generation that succeeds *)

Lemma ensureEnvFiles_runs (templateDir destDir : fspath) (fs : node)
    (es : list (string * node)) :
  resolve destDir fs = Found (Dir es) ->
  (forall name, In name ["agent"; "client"] -> env_template_ok fs templateDir name) ->
  exists fs',
    ensureEnvFiles templateDir destDir fs = (Ok tt, fs')
    /\ exists es', resolve destDir fs' = Found (Dir es').
Proof.
  intros Hd Hok.
  destruct (ensureEnvFile_round templateDir destDir "agent" ".env.agent" fs es
              (env_out_agent destDir) Hd (or_intror (Hok "agent" (or_introl eq_refl))))
    as (fs1 & Hrun1 & [es1 Hd1] & _ & _ & Hkeep1).
  assert (Hok1 : env_template_ok fs1 templateDir "client").
  { eapply env_template_ok_kept;
      [exact Hkeep1 | apply env_template_client | discriminate |].
    apply Hok. right. now left. }
  destruct (ensureEnvFile_round templateDir destDir "client" ".env.client" fs1 es1
              (env_out_client destDir) Hd1 (or_intror Hok1))
    as (fs2 & Hrun2 & Hd2 & _).
  exists fs2. split; [|exact Hd2].
  unfold ensureEnvFiles, for_each, bind, ret. now rewrite Hrun1, Hrun2.
Qed.

(** A round of [ensureEnvFiles] changes nothing or puts a file at its
    path. *)
Lemma ensureEnvFile_writes (templateDir destDir : fspath) (name : string) (fs : node) :
  snd (ensureEnvFile templateDir destDir name fs) = fs
  \/ exists n, is_file n = true
               /\ put (env_out destDir name) n fs
                  = Found (snd (ensureEnvFile templateDir destDir name fs)).
Proof.
  destruct (ensureEnvFile_shape templateDir destDir name fs)
    as [[_ ->] | [(_ & _ & ->) | (_ & _ & ->)]]; try (now left).
  destruct (fs_copyFile_shape (env_template templateDir name) (env_out destDir name) fs)
    as [[e ->] | (n & c & fs1 & _ & Hc & Hput & ->)]; [now left | right].
  exists n. split; [exact (readable_content_file _ _ Hc) | exact Hput].
Qed.

(** [ensureGitignoreHasEnvEntries] changes nothing or puts a file at its
    path, whether it returns or throws. *)
Lemma ensureGitignore_writes (destDir : fspath) (fs : node) :
  snd (ensureGitignoreHasEnvEntries destDir fs) = fs
  \/ exists text, put (destDir ++ [".gitignore"])%list (File true text) fs
                  = Found (snd (ensureGitignoreHasEnvEntries destDir fs)).
Proof.
  destruct (resolve (destDir ++ [".gitignore"])%list fs) as [n|e] eqn:Hgi.
  - destruct (ensureGitignore_stuck destDir fs n Hgi)
      as [[content ->] | [(content & _ & _ & ->) | [err ->]]]; [|now left ..].
    destruct (ensureGitignore_on_file destDir fs content Hgi) as (fs1 & Hrun1 & Hsame & Hput).
    rewrite Hrun1. cbn [snd].
    destruct (String.eqb_spec (gitignore_suffix content) "") as [Hs|Hs];
      [left; auto | right; eauto].
  - assert (Hex : pathExists fs (destDir ++ [".gitignore"])%list = false)
      by (unfold pathExists, fs_access; now rewrite Hgi).
    rewrite (ensureGitignore_on_nothing _ _ Hex).
    unfold fs_writeFile. rewrite Hgi.
    destruct e; try (now left).
    destruct (put (destDir ++ [".gitignore"])%list
                (File true (".env.agent" ++ nl ++ ".env.client" ++ nl)) fs)
      as [fs1|e1] eqn:Hput; [right; eauto | now left].
Qed.

Lemma child_apart (t : fspath) (x k : string) (rest : fspath) :
  x <> k ->
  is_prefix (t ++ [x])%list (t ++ k :: rest)%list = false
  /\ is_prefix (t ++ k :: rest)%list (t ++ [x])%list = false.
Proof.
  intros Hne. induction t as [|s t IH]; simpl.
  - apply String.eqb_neq in Hne. rewrite Hne, String.eqb_sym, Hne. auto.
  - now rewrite String.eqb_refl.
Qed.

(** After a file is put in a directory, what is found below the
    directory is that file or was there before. *)
Lemma resolve_after_put_file (t : fspath) (x : string) (n : node)
    (fs fs' : node) (rel : fspath) (m : node) :
  is_file n = true ->
  put (t ++ [x])%list n fs = Found fs' ->
  rel <> [] -> resolve (t ++ rel)%list fs' = Found m ->
  rel = [x] \/ resolve (t ++ rel)%list fs = Found m.
Proof.
  intros Hn Hput Hne Hm. destruct rel as [|k rest]; [congruence|].
  destruct (String.eqb_spec x k) as [<-|Hxk].
  - left. change (x :: rest) with ([x] ++ rest)%list in Hm.
    rewrite app_assoc, (resolve_put_below _ rest _ _ _ Hput) in Hm.
    destruct rest; [reflexivity|].
    destruct n as [r c|r c|es]; discriminate.
  - right. destruct (child_apart t x k rest Hxk) as [H1 H2].
    now rewrite <- (resolve_put_apart _ _ _ _ _ Hput H1 H2).
Qed.

Lemma resolve_skeleton (p : fspath) :
  forall n, resolve p (skeleton n)
            = match resolve p n with
              | Found m => Found (skeleton m)
              | Missing e => Missing e
              end.
Proof.
  induction p as [|s p IH]; intros n; [reflexivity|].
  destruct n as [r d|r d|es]; [reflexivity|reflexivity|]. rewrite skeleton_dir. cbn [resolve].
  assert (Hl : alookup s (map (fun e => (fst e, skeleton (snd e))) es)
               = option_map skeleton (alookup s es)).
  { induction es as [|[k c] es IHes]; [reflexivity|]. cbn [map alookup fst snd].
    destruct (String.eqb s k); [reflexivity | exact IHes]. }
  rewrite Hl. destruct (alookup s es); cbn [option_map]; [apply IH | reflexivity].
Qed.

(** Trees of the same structure have something at the same paths. *)
Lemma resolve_same_skeleton (p : fspath) (n n' m' : node) :
  skeleton n' = skeleton n -> resolve p n' = Found m' -> exists m, resolve p n = Found m.
Proof.
  intros Hs Hm. pose proof (resolve_skeleton p n') as H1.
  pose proof (resolve_skeleton p n) as H2. rewrite Hs, Hm in H1. rewrite H1 in H2.
  destruct (resolve p n); [eauto | discriminate].
Qed.

Lemma skeleton_substitute_entries (substitutions : list (string * string))
    (entries : list (string * node)) :
  skeleton (Dir (substitute_entries substitutions entries)) = skeleton (Dir entries).
Proof.
  pose proof (skeleton_substitute_node substitutions (Dir entries) "") as H.
  rewrite substitute_node_dir in H. exact H.
Qed.

Section GeneratorRun.

Variable JSON_parse : string -> option json.

(** The steps of a generation into a free place: the first four
    return, and the generation ends as the last one does. *)
Lemma generateProject_steps (options : GeneratorOptions) (fs : node) (d : fspath) (a : string)
    (items es : list (string * node)) :
  valid_fs fs = true ->
  resolve (template_path_of JSON_parse fs options) fs = Found (Dir items) ->
  copyable [] (Dir items) = true ->
  targetDir options = (d ++ [a])%list ->
  resolve d fs = Found (Dir es) ->
  alookup a es = None \/ alookup a es = Some (Dir []) ->
  is_prefix (template_path_of JSON_parse fs options) (d ++ [a])%list = false ->
  (forall name, In name ["agent"; "client"] ->
     env_template_ok fs (template_path_of JSON_parse fs options) name) ->
  exists fs1 fs2 fs3 es3,
    (forall q, is_prefix (d ++ [a])%list q = false -> is_prefix q (d ++ [a])%list = false ->
       resolve q fs1 = resolve q fs)
    /\ put (d ++ [a])%list
         (Dir (substitute_entries (buildSubstitutions (projectName options))
                 (copied_entries [] items))) fs1 = Found fs2
    /\ ensureEnvFiles (template_path_of JSON_parse fs options) (d ++ [a])%list fs2
       = (Ok tt, fs3)
    /\ resolve (d ++ [a])%list fs3 = Found (Dir es3)
    /\ resolve ((d ++ [a]) ++ [".gitignore"])%list fs3
       = match alookup ".gitignore" items with
         | Some n => Found (substitute_node (buildSubstitutions (projectName options))
                             ".gitignore" (copied [".gitignore"] n))
         | None => Missing ENOENT
         end
    /\ generateProject JSON_parse options fs
       = ensureGitignoreHasEnvEntries (d ++ [a])%list fs3.
Proof.
  intros Hv Htpl Hc Htarget Hd Ha Hsd Henv.
  set (tp := template_path_of JSON_parse fs options) in *.
  pose proof (free_place_apart tp d a es fs _ Htpl Hd Ha Hsd) as Hds.
  destruct (copyTemplate_copies_aux tp d a items es fs Hv Htpl Hc Hd Ha Hsd)
    as (fs1 & Hcopy & Hdest1 & Hframe1).
  rewrite copied_dir in Hdest1.
  destruct (put_existing (d ++ [a])%list
              (Dir (substitute_entries (buildSubstitutions (projectName options))
                      (copied_entries [] items))) fs1 _ Hdest1) as [fs2 Hput2].
  pose proof (resolve_put_same _ _ _ _ Hput2) as Hdest2.
  assert (Henv2 : forall name, In name ["agent"; "client"] -> env_template_ok fs2 tp name).
  { intros name Hin. specialize (Henv name Hin). unfold env_template_ok in *.
    assert (Hpath : exists x, env_template tp name = (tp ++ [x])%list).
    { destruct Hin as [<- | [<- | []]];
        [rewrite env_template_agent | rewrite env_template_client]; eauto. }
    destruct Hpath as [x Hx]. rewrite Hx in *.
    destruct (apart_extend_l tp (d ++ [a])%list [x] Hsd Hds) as [H1 H2].
    now rewrite (resolve_put_apart _ _ _ _ _ Hput2 H2 H1), (Hframe1 _ H2 H1). }
  destruct (ensureEnvFiles_runs tp (d ++ [a])%list fs2 _ Hdest2 Henv2)
    as (fs3 & Henvrun & es3 & Hdest3).
  assert (Hgi3 : resolve ((d ++ [a]) ++ [".gitignore"])%list fs3
                 = resolve ((d ++ [a]) ++ [".gitignore"])%list fs2).
  { replace fs3 with (snd (ensureEnvFiles tp (d ++ [a])%list fs2)) by now rewrite Henvrun.
    apply ensureEnvFiles_apart. intros name [<- | [<- | []]].
    - rewrite env_out_agent. split; apply siblings_apart; discriminate.
    - rewrite env_out_client. split; apply siblings_apart; discriminate. }
  assert (Hgi2 : resolve ((d ++ [a]) ++ [".gitignore"])%list fs2
                 = match alookup ".gitignore" items with
                   | Some n => Found (substitute_node
                                        (buildSubstitutions (projectName options))
                                        ".gitignore" (copied [".gitignore"] n))
                   | None => Missing ENOENT
                   end).
  { rewrite (resolve_child_of_dir _ _ _ _ Hdest2), alookup_substitute,
      alookup_copied_entries.
    change (copy_filter ([] ++ [".gitignore"])%list) with true. cbv iota.
    now destruct (alookup ".gitignore" items). }
  exists fs1, fs2, fs3, es3. repeat (split; [assumption|]).
  split; [now rewrite Hgi3|].
  unfold generateProject, bind, read, try_catch, throw. fold tp.
  unfold fs_access at 1. rewrite Htpl.
  rewrite Htarget.
  rewrite (validateTargetDir_free fs (d ++ [a])%list)
    by (rewrite (resolve_child_of_dir _ _ _ _ Hd);
        destruct Ha as [-> | ->]; [now left | now right]).
  rewrite Hcopy.
  unfold substituteInDirectory, fs_readdir. rewrite Hdest1, Hput2.
  now rewrite Henvrun.
Qed.

(** The last step returns when the [.gitignore] of the template lets
    it. *)
Lemma ensureGitignore_returns (destDir : fspath) (fs : node)
    (es : list (string * node)) (items : list (string * node))
    (substitutions : list (string * string)) :
  resolve destDir fs = Found (Dir es) ->
  gitignore_template_ok items ->
  resolve (destDir ++ [".gitignore"])%list fs
  = match alookup ".gitignore" items with
    | Some n => Found (substitute_node substitutions ".gitignore" (copied [".gitignore"] n))
    | None => Missing ENOENT
    end ->
  exists fs', ensureGitignoreHasEnvEntries destDir fs = (Ok tt, fs').
Proof.
  unfold gitignore_template_ok. intros Hd Hok Hgi.
  destruct (alookup ".gitignore" items) as [[r data|r data|sub]|];
    cbn [copied substitute_node] in Hgi; [| |contradiction|].
  - destruct (substituteInFile_is_file ".gitignore" substitutions true data)
      as [data' E]. rewrite E in Hgi.
    destruct (ensureGitignore_on_file _ _ _ Hgi) as (fs' & Hrun & _). eauto.
  - rewrite substituteInFile_locked in Hgi.
    rewrite (ensureGitignore_on_locked _ _ _ Hgi), Hok. eauto.
  - assert (Hex : pathExists fs (destDir ++ [".gitignore"])%list = false)
      by (unfold pathExists, fs_access; now rewrite Hgi).
    rewrite (ensureGitignore_on_nothing _ _ Hex). unfold fs_writeFile. rewrite Hgi.
    destruct (put_app_dir destDir ".gitignore"
                (File true (".env.agent" ++ nl ++ ".env.client" ++ nl)) fs es Hd)
      as [fs' Hput]. rewrite Hput. eauto.
Qed.

End GeneratorRun.

Lemma ensureEnvFiles_rounds (templateDir destDir : fspath) (fs fs' : node) :
  ensureEnvFiles templateDir destDir fs = (Ok tt, fs') ->
  fs' = snd (ensureEnvFile templateDir destDir "client"
               (snd (ensureEnvFile templateDir destDir "agent" fs))).
Proof.
  unfold ensureEnvFiles, for_each, bind, ret.
  destruct (ensureEnvFile templateDir destDir "agent" fs) as [[[]|e] fs1]; [|discriminate].
  cbn [snd].
  destruct (ensureEnvFile templateDir destDir "client" fs1) as [[[]|e] fs2]; [|discriminate].
  now intros [= <-].
Qed.

(** The names the last two steps write are none of the things to leave
    behind. *)
Lemma written_names_accepted (x : string) :
  x = ".gitignore" \/ x = ".env.agent" \/ x = ".env.client" ->
  (forall part, In part [x] -> ~ In part EXCLUDE_DIRS)
  /\ (startsWith (last [x] "") ".env." && endsWith (last [x] "") ".template") = false
  /\ (forall f, [x] = [f] -> ~ In f EXCLUDE_FILES).
Proof.
  intros [-> | [-> | ->]]; (split; [|split]);
    try reflexivity;
    try (intros part [<- | []] Hin; cbn in Hin; intuition discriminate);
    try (intros f [= <-] Hin; cbn in Hin; intuition discriminate).
Qed.

Section GeneratorSuccess.

Variable JSON_parse : string -> option json.

(** X27.  A generation into a free place succeeds.  In a well-formed
    tree, when the resolved template path is a directory in which every
    file the filter lets through can be read, whose environment
    templates are absent or files that can be read, and whose
    [.gitignore] is absent, or a file that can be written, or a file
    that cannot be written and holds both entries, and the target is
    missing in an existing directory or is an empty directory outside
    the template: [generateProject] returns; the project has a
    [.gitignore] with the lines [.env.agent] and [.env.client]; every
    file of the template whose path the filter accepts, other than the
    three files of the last two steps, is in the project, with the
    content [substituteInFile] makes of its content when it can be
    written, and as it is, placeholders and mode, when it cannot; and
    no path outside the target has changed. *)
Theorem generateProject_succeeds (options : GeneratorOptions) (fs : node) (d : fspath)
    (a : string) (items es : list (string * node)) :
  valid_fs fs = true ->
  resolve (template_path_of JSON_parse fs options) fs = Found (Dir items) ->
  copyable [] (Dir items) = true ->
  targetDir options = (d ++ [a])%list ->
  resolve d fs = Found (Dir es) ->
  alookup a es = None \/ alookup a es = Some (Dir []) ->
  is_prefix (template_path_of JSON_parse fs options) (d ++ [a])%list = false ->
  (forall name, In name ["agent"; "client"] ->
     env_template_ok fs (template_path_of JSON_parse fs options) name) ->
  gitignore_template_ok items ->
  exists fs',
    generateProject JSON_parse options fs = (Ok tt, fs')
    /\ (exists n text,
          resolve ((d ++ [a]) ++ [".gitignore"])%list fs' = Found n
          /\ readable_content n = Some text
          /\ line_present text ".env.agent" = true
          /\ line_present text ".env.client" = true)
    /\ (forall k rest r data,
          k <> ".gitignore" -> k <> ".env.agent" -> k <> ".env.client" ->
          resolve (template_path_of JSON_parse fs options ++ k :: rest)%list fs
          = Found (File r data) ->
          (forall pre post, k :: rest = (pre ++ post)%list -> pre <> [] ->
             copy_filter pre = true) ->
          resolve ((d ++ [a]) ++ k :: rest)%list fs'
          = Found (substituteInFile (last (k :: rest) "")
                     (buildSubstitutions (projectName options)) (File true data)))
    /\ (forall k rest r data,
          k <> ".gitignore" -> k <> ".env.agent" -> k <> ".env.client" ->
          resolve (template_path_of JSON_parse fs options ++ k :: rest)%list fs
          = Found (Locked r data) ->
          (forall pre post, k :: rest = (pre ++ post)%list -> pre <> [] ->
             copy_filter pre = true) ->
          resolve ((d ++ [a]) ++ k :: rest)%list fs' = Found (Locked true data))
    /\ (forall q, is_prefix (d ++ [a])%list q = false -> is_prefix q (d ++ [a])%list = false ->
          resolve q fs' = resolve q fs).
Proof.
  intros Hv Htpl Hc Htarget Hd Ha Hsd Henv Hgi.
  destruct (generateProject_steps JSON_parse options fs d a items es
              Hv Htpl Hc Htarget Hd Ha Hsd Henv)
    as (fs1 & fs2 & fs3 & es3 & Hframe1 & Hput2 & Henvrun & Hdest3 & Hgi3 & Hrun).
  destruct (ensureGitignore_returns _ _ _ _ _ Hdest3 Hgi Hgi3) as [fs' Hgirun].
  rewrite Hgirun in Hrun.
  set (tp := template_path_of JSON_parse fs options) in *.
  set (target := (d ++ [a])%list) in *.
  assert (Hfs3 : fs3 = snd (ensureEnvFiles tp target fs2)) by now rewrite Henvrun.
  destruct (ensureGitignore_outcome target fs3 fs' Hgirun)
    as (n & text & Hfile & Hn & _ & Hagent & Hclient & _ & Hframe4).
  assert (Hitem : forall k rest m0,
            k <> ".gitignore" -> k <> ".env.agent" -> k <> ".env.client" ->
            resolve (tp ++ k :: rest)%list fs = Found m0 ->
            (forall pre post, k :: rest = (pre ++ post)%list -> pre <> [] ->
               copy_filter pre = true) ->
            resolve (target ++ k :: rest)%list fs'
            = Found (substitute_node (buildSubstitutions (projectName options))
                       (last (k :: rest) "") (copied (k :: rest) m0))).
  { intros k rest m0 Hk1 Hk2 Hk3 Hsrc Hpre.
    destruct (child_apart target ".gitignore" k rest (not_eq_sym Hk1)) as [G1 G2].
    destruct (child_apart target ".env.agent" k rest (not_eq_sym Hk2)) as [A1 A2].
    destruct (child_apart target ".env.client" k rest (not_eq_sym Hk3)) as [C1 C2].
    rewrite (Hframe4 _ G1 G2), Hfs3.
    rewrite ensureEnvFiles_apart
      by (intros name [<- | [<- | []]];
          [rewrite env_out_agent | rewrite env_out_client]; auto).
    rewrite (resolve_put_below _ (k :: rest) _ _ _ Hput2).
    assert (Hrel : k :: rest = (removelast (k :: rest) ++ [last (k :: rest) ""])%list)
      by (apply app_removelast_last; discriminate).
    assert (Hcopied : resolve (k :: rest) (Dir (copied_entries [] items))
                      = Found (copied (k :: rest) m0)).
    { rewrite <- copied_dir. apply resolve_copied. split; [exact Hpre|].
      exists m0. split; [|reflexivity].
      now rewrite resolve_app, Htpl in Hsrc. }
    rewrite Hrel at 1. rewrite resolve_substitute.
    + rewrite <- Hrel, Hcopied. reflexivity.
    + intros part Hin.
      destruct (copy_filter_accepts (k :: rest) ltac:(discriminate)
                  (Hpre (k :: rest) [] (eq_sym (app_nil_r _)) ltac:(discriminate)))
        as (Hdirs & _).
      assert (Hin' : In part (k :: rest)).
      { rewrite Hrel. apply in_or_app. now left. }
      specialize (Hdirs part Hin').
      split; intros ->; apply Hdirs; cbn; auto. }
  exists fs'. split; [exact Hrun|]. split; [eauto 6|]. split; [|split].
  - intros k rest r data Hk1 Hk2 Hk3 Hsrc Hpre.
    now rewrite (Hitem k rest _ Hk1 Hk2 Hk3 Hsrc Hpre).
  - intros k rest r data Hk1 Hk2 Hk3 Hsrc Hpre.
    rewrite (Hitem k rest _ Hk1 Hk2 Hk3 Hsrc Hpre). cbn [copied substitute_node].
    now rewrite substituteInFile_locked.
  - intros q H1 H2.
    destruct (apart_extend_l target q [".gitignore"] H1 H2) as [G1 G2].
    destruct (apart_extend_l target q [".env.agent"] H1 H2) as [A1 A2].
    destruct (apart_extend_l target q [".env.client"] H1 H2) as [C1 C2].
    rewrite (Hframe4 _ G1 G2), Hfs3.
    rewrite ensureEnvFiles_apart
      by (intros name [<- | [<- | []]];
          [rewrite env_out_agent | rewrite env_out_client]; auto).
    rewrite (resolve_put_apart _ _ _ _ q Hput2 H1 H2). now apply Hframe1.
Qed.

(** What is found in the project after a generation *)
Lemma generateProject_clean (options : GeneratorOptions) (fs : node) (d : fspath)
    (a : string) (items es : list (string * node)) :
  valid_fs fs = true ->
  resolve (template_path_of JSON_parse fs options) fs = Found (Dir items) ->
  copyable [] (Dir items) = true ->
  targetDir options = (d ++ [a])%list ->
  resolve d fs = Found (Dir es) ->
  alookup a es = None \/ alookup a es = Some (Dir []) ->
  is_prefix (template_path_of JSON_parse fs options) (d ++ [a])%list = false ->
  (forall name, In name ["agent"; "client"] ->
     env_template_ok fs (template_path_of JSON_parse fs options) name) ->
  match alookup ".gitignore" items with
  | Some (Dir _) => False
  | _ => True
  end ->
  forall rel m, rel <> [] ->
    resolve ((d ++ [a]) ++ rel)%list (snd (generateProject JSON_parse options fs)) = Found m ->
    (forall part, In part rel -> ~ In part EXCLUDE_DIRS)
    /\ (startsWith (last rel "") ".env." && endsWith (last rel "") ".template") = false
    /\ (forall f, rel = [f] -> ~ In f EXCLUDE_FILES).
Proof.
  intros Hv Htpl Hc Htarget Hd Ha Hsd Henv Hgi rel m Hne Hm.
  destruct (generateProject_steps JSON_parse options fs d a items es
              Hv Htpl Hc Htarget Hd Ha Hsd Henv)
    as (fs1 & fs2 & fs3 & es3 & Hframe1 & Hput2 & Henvrun & _ & _ & Hrun).
  rewrite Hrun in Hm.
  set (tp := template_path_of JSON_parse fs options) in *.
  set (target := (d ++ [a])%list) in *.
  (* the last step *)
  assert (H3 : rel = [".gitignore"] \/ resolve (target ++ rel)%list fs3 = Found m).
  { destruct (ensureGitignore_writes target fs3) as [E | [text Hput]].
    - rewrite E in Hm. now right.
    - exact (resolve_after_put_file _ _ (File true text) _ _ _ _ eq_refl Hput Hne Hm). }
  destruct H3 as [-> | H3]; [apply written_names_accepted; auto|].
  (* the two rounds *)
  rewrite (ensureEnvFiles_rounds _ _ _ _ Henvrun) in H3.
  assert (H2a : rel = [".env.client"]
                \/ resolve (target ++ rel)%list (snd (ensureEnvFile tp target "agent" fs2))
                   = Found m).
  { destruct (ensureEnvFile_writes tp target "client"
                (snd (ensureEnvFile tp target "agent" fs2))) as [E | [c Hput]].
    - rewrite E in H3. now right.
    - destruct Hput as [Hc0 Hput]. rewrite env_out_client in Hput.
      exact (resolve_after_put_file _ _ _ _ _ _ _ Hc0 Hput Hne H3). }
  destruct H2a as [-> | H2a]; [apply written_names_accepted; auto|].
  assert (H2 : rel = [".env.agent"] \/ resolve (target ++ rel)%list fs2 = Found m).
  { destruct (ensureEnvFile_writes tp target "agent" fs2) as [E | [c Hput]].
    - rewrite E in H2a. now right.
    - destruct Hput as [Hc0 Hput]. rewrite env_out_agent in Hput.
      exact (resolve_after_put_file _ _ _ _ _ _ _ Hc0 Hput Hne H2a). }
  destruct H2 as [-> | H2]; [apply written_names_accepted; auto|].
  (* the substitution and the copy *)
  rewrite (resolve_put_below _ rel _ _ _ Hput2) in H2.
  destruct (resolve_same_skeleton rel (Dir (copied_entries [] items)) _ m
              (skeleton_substitute_entries _ _) H2) as [m1 Hm1].
  rewrite <- copied_dir in Hm1. apply resolve_copied in Hm1.
  destruct Hm1 as (Hpre & _).
  exact (copy_filter_accepts rel Hne (Hpre rel [] (eq_sym (app_nil_r rel)) Hne)).
Qed.

(** X28.  Nothing that is to stay behind is in the generated project.
    After such a generation, whatever is found below the target has no
    [.git], [node_modules], [dist], [.tmp], [__pycache__], [.venv] or
    [venv] in its path, is not an [.env.*.template], and is not a lock
    file or [.env] at the root of the project. *)
Theorem generateProject_no_leak (options : GeneratorOptions) (fs : node) (d : fspath)
    (a : string) (items es : list (string * node)) :
  valid_fs fs = true ->
  resolve (template_path_of JSON_parse fs options) fs = Found (Dir items) ->
  copyable [] (Dir items) = true ->
  targetDir options = (d ++ [a])%list ->
  resolve d fs = Found (Dir es) ->
  alookup a es = None \/ alookup a es = Some (Dir []) ->
  is_prefix (template_path_of JSON_parse fs options) (d ++ [a])%list = false ->
  (forall name, In name ["agent"; "client"] ->
     env_template_ok fs (template_path_of JSON_parse fs options) name) ->
  match alookup ".gitignore" items with
  | Some (Dir _) => False
  | _ => True
  end ->
  forall rel m, rel <> [] ->
    resolve ((d ++ [a]) ++ rel)%list (snd (generateProject JSON_parse options fs)) = Found m ->
    (forall part, In part rel -> ~ In part EXCLUDE_DIRS)
    /\ (startsWith (last rel "") ".env." && endsWith (last rel "") ".template") = false
    /\ (forall f, rel = [f] -> ~ In f EXCLUDE_FILES).
Proof. apply generateProject_clean. Qed.

End GeneratorSuccess.

(** The generation of the fixture: the project [my-app] from the
    template [agent], flavor [ts], for the project name [My App]. *)
Lemma generateProject_succeeds_witness :
  exists fs',
    generateProject no_json
      (mkGeneratorOptions (["work"] ++ ["my-app"])%list "agent" "ts" "My App" ["starters"] false)
      template_fixture = (Ok tt, fs')
    /\ resolve ((["work"] ++ ["my-app"]) ++ ["README.md"])%list fs'
       = Found (File true "# My App")
    /\ resolve ((["work"] ++ ["my-app"]) ++ ["src"; "index.ts"])%list fs'
       = Found (File true "// my-app").
Proof.
  destruct (generateProject_succeeds no_json
              (mkGeneratorOptions (["work"] ++ ["my-app"])%list "agent" "ts" "My App"
                 ["starters"] false)
              template_fixture ["work"] "my-app" _ _
              eq_refl eq_refl eq_refl eq_refl eq_refl (or_introl eq_refl) eq_refl)
    as (fs' & Hrun & _ & Hfiles & _).
  - intros name [<- | [<- | []]]; exact I.
  - exact I.
  - exists fs'. split; [exact Hrun|]. split.
    + refine (eq_trans (Hfiles "README.md" [] true "# __PROJECT_NAME__" _ _ _ _ _) _);
        try discriminate; try reflexivity.
      intros [|x [|y pre]] post H Hne; [congruence | | discriminate H].
      cbn [app] in H. injection H as <- _. reflexivity.
    + refine (eq_trans (Hfiles "src" ["index.ts"] true "// __PACKAGE_NAME__" _ _ _ _ _) _);
        try discriminate; try reflexivity.
      intros [|x [|y [|z pre]]] post H Hne; [congruence | | |]; cbn [app] in H.
      * injection H as <- _. reflexivity.
      * injection H as <- <- _. reflexivity.
      * discriminate H.
Defined.

(** A template whose files cannot be written: the copies cannot be
    written either, the substitution passes over them, and the last step
    throws at the [.gitignore] it cannot extend. *)
Example generateProject_locked_template :
  generateProject no_json
    (mkGeneratorOptions ["work"; "my-app"] "agent" "ts" "My App" ["starters"] false)
    locked_template_fixture
  = (Throw (fs_error EACCES "open" ["work"; "my-app"; ".gitignore"]),
     Dir [("starters",
           Dir [("templates",
                 Dir [("agent",
                       Dir [("ts",
                             Dir [("README.md", Locked true "# __PROJECT_NAME__");
                                  (".gitignore", Locked true "node_modules")])])])]);
          ("work",
           Dir [("my-app",
                 Dir [("README.md", Locked true "# __PROJECT_NAME__");
                      (".gitignore", Locked true "node_modules")])])]).
Proof. reflexivity. Qed.

Lemma generateProject_no_leak_witness :
  (forall part, In part ["src"; "package-lock.json"] -> ~ In part EXCLUDE_DIRS)
  /\ (startsWith (last ["src"; "package-lock.json"] "") ".env."
      && endsWith (last ["src"; "package-lock.json"] "") ".template") = false
  /\ (forall f, ["src"; "package-lock.json"] = [f] -> ~ In f EXCLUDE_FILES).
Proof.
  apply (generateProject_no_leak no_json
           (mkGeneratorOptions (["work"] ++ ["my-app"])%list "agent" "ts" "My App"
              ["starters"] false)
           template_fixture ["work"] "my-app" _ _
           eq_refl eq_refl eq_refl eq_refl eq_refl (or_introl eq_refl) eq_refl
           ltac:(intros name [<- | [<- | []]]; exact I) I
           ["src"; "package-lock.json"] (File true "{}")).
  - discriminate.
  - reflexivity.
Defined.

(** ** generator.ts: the package manager of a generated project *)

Section GeneratorInstall.

Variable JSON_parse : string -> option json.

(** X29.  The lock file of a template does not choose the package
    manager.  After a generation into a free place the project has no
    lock file at its root, so [detectPackageManager] answers [pnpm]
    when [pnpm --version] runs and [npm] otherwise, and never [yarn]
    or [bun], whatever lock file the template has. *)
Theorem detectPackageManager_of_generated (options : GeneratorOptions) (fs : node)
    (d : fspath) (a : string) (items es : list (string * node)) (pnpm_found : bool) :
  valid_fs fs = true ->
  resolve (template_path_of JSON_parse fs options) fs = Found (Dir items) ->
  copyable [] (Dir items) = true ->
  targetDir options = (d ++ [a])%list ->
  resolve d fs = Found (Dir es) ->
  alookup a es = None \/ alookup a es = Some (Dir []) ->
  is_prefix (template_path_of JSON_parse fs options) (d ++ [a])%list = false ->
  (forall name, In name ["agent"; "client"] ->
     env_template_ok fs (template_path_of JSON_parse fs options) name) ->
  match alookup ".gitignore" items with
  | Some (Dir _) => False
  | _ => True
  end ->
  detectPackageManager (snd (generateProject JSON_parse options fs)) (d ++ [a])%list pnpm_found
  = if pnpm_found then "pnpm" else "npm".
Proof.
  intros Hv Htpl Hc Htarget Hd Ha Hsd Henv Hgi.
  assert (Hnone : forall f, In f EXCLUDE_FILES ->
            fs_access (snd (generateProject JSON_parse options fs)) ((d ++ [a]) ++ [f])%list
            = Throw (fs_error
                       match resolve ((d ++ [a]) ++ [f])%list
                               (snd (generateProject JSON_parse options fs)) with
                       | Found _ => ENOENT
                       | Missing e => e
                       end "access" ((d ++ [a]) ++ [f])%list)).
  { intros f Hf. unfold fs_access.
    destruct (resolve ((d ++ [a]) ++ [f])%list (snd (generateProject JSON_parse options fs)))
      as [m|e] eqn:Hm; [exfalso | reflexivity].
    destruct (generateProject_clean JSON_parse options fs d a items es
                Hv Htpl Hc Htarget Hd Ha Hsd Henv Hgi [f] m ltac:(discriminate) Hm)
      as (_ & _ & Hfiles).
    exact (Hfiles f eq_refl Hf). }
  unfold detectPackageManager.
  rewrite !path_join_name by (first [reflexivity | discriminate]).
  rewrite !Hnone by (cbn; auto 10). reflexivity.
Qed.

End GeneratorInstall.

Lemma detectPackageManager_of_generated_witness :
  detectPackageManager
    (snd (generateProject no_json
            (mkGeneratorOptions (["work"] ++ ["my-app"])%list "agent" "ts" "My App"
               ["starters"] false) template_fixture))
    (["work"] ++ ["my-app"])%list true
  = "pnpm".
Proof.
  apply (detectPackageManager_of_generated no_json
           (mkGeneratorOptions (["work"] ++ ["my-app"])%list "agent" "ts" "My App"
              ["starters"] false)
           template_fixture ["work"] "my-app" _ _ true
           eq_refl eq_refl eq_refl eq_refl eq_refl (or_introl eq_refl) eq_refl
           ltac:(intros name [<- | [<- | []]]; exact I) I).
Defined.

(** ** templates.ts: the catalog is complete *)

Lemma surviving_flavors_complete (fs : node) (templatePath : fspath)
    (declared : list TemplateManifestFlavor) (fl : TemplateManifestFlavor) :
  In fl declared ->
  isDirectory fs (path_join templatePath (relativePath_of fl)) = true ->
  forall acc paths,
    In (flavor_id fl) (fst (surviving_flavors fs templatePath declared acc paths)).
Proof.
  intros Hin Hdir. induction declared as [|fl0 rest IH]; [contradiction|].
  intros acc paths. cbn [surviving_flavors]. destruct Hin as [-> | Hin].
  - rewrite Hdir. apply surviving_flavors_grows, in_or_app. right. now left.
  - destruct (isDirectory fs (path_join templatePath (relativePath_of fl0))); now apply IH.
Qed.

Lemma templatesFromManifest_loop_complete (fs : node) (templatesDir : fspath)
    (entries : list TemplateManifestEntry) (entry : TemplateManifestEntry)
    (fl : TemplateManifestFlavor) :
  In entry entries ->
  isDirectory fs (path_join templatesDir (entry_id entry)) = true ->
  In fl (entry_flavors entry) ->
  isDirectory fs (path_join (path_join templatesDir (entry_id entry)) (relativePath_of fl))
  = true ->
  exists t,
    In t (templatesFromManifest_loop fs templatesDir entries)
    /\ id t = entry_id entry
    /\ name t = Some (entry_name entry)
    /\ description t = Some (entry_description entry)
    /\ path t = path_join templatesDir (entry_id entry)
    /\ order t = entry_order entry
    /\ category t = entry_category entry
    /\ aliases t = entry_aliases entry
    /\ hidden t = entry_hidden entry
    /\ deprecated t = entry_deprecated entry
    /\ In (flavor_id fl) (flavors t).
Proof.
  intros Hin Hbase Hfl Hdir. induction entries as [|e rest IH]; [contradiction|].
  cbn [templatesFromManifest_loop].
  assert (Hrest : In entry rest ->
            forall l, (forall t, In t (templatesFromManifest_loop fs templatesDir rest) ->
                                 In t l) ->
            exists t, In t l
              /\ id t = entry_id entry /\ name t = Some (entry_name entry)
              /\ description t = Some (entry_description entry)
              /\ path t = path_join templatesDir (entry_id entry)
              /\ order t = entry_order entry /\ category t = entry_category entry
              /\ aliases t = entry_aliases entry /\ hidden t = entry_hidden entry
              /\ deprecated t = entry_deprecated entry
              /\ In (flavor_id fl) (flavors t)).
  { intros Hr l Hl. destruct (IH Hr) as (t & Ht & Hprops). exists t. split; auto. }
  destruct Hin as [-> | Hin].
  - rewrite Hbase. cbn [negb].
    pose proof (surviving_flavors_complete fs _ _ fl Hfl Hdir [] []) as Hsurv.
    destruct (surviving_flavors fs (path_join templatesDir (entry_id entry))
                (entry_flavors entry) [] []) as [fls paths].
    cbn [fst] in Hsurv. destruct fls as [|f0 fls]; [contradiction|].
    eexists. split; [now left|]. cbn. repeat split; auto.
  - destruct (isDirectory fs (path_join templatesDir (entry_id e))); cbn [negb];
      [|apply (Hrest Hin); auto].
    destruct (surviving_flavors fs (path_join templatesDir (entry_id e))
                (entry_flavors e) [] []) as [fls paths].
    destruct fls as [|f0 fls]; apply (Hrest Hin); auto.
    intros t Ht. now right.
Qed.

Section DiscoveryComplete.

Variable JSON_parse : string -> option json.
Variable localeCompare : string -> string -> comparison.

(** X30.  With a manifest, the catalog leaves out nothing it could
    list: for every entry whose template directory exists and every
    flavor of it whose directory exists, [discoverTemplates] returns a
    template with the id, name, description, order, category, aliases,
    [hidden] and [deprecated] of the entry, and the flavor is among
    its flavors.  An entry marked [hidden] or [deprecated] is listed
    like any other. *)
Theorem discoverTemplates_lists_entries (fs : node) (startersPath : fspath)
    (options : TemplateDiscoveryOptions) (manifest : TemplateManifest)
    (entry : TemplateManifestEntry) (fl : TemplateManifestFlavor) :
  readTemplateManifest JSON_parse fs startersPath = Ok (Some manifest) ->
  In entry (templates manifest) ->
  isDirectory fs (path_join (path_join startersPath TEMPLATES_DIR) (entry_id entry)) = true ->
  In fl (entry_flavors entry) ->
  isDirectory fs
    (path_join (path_join (path_join startersPath TEMPLATES_DIR) (entry_id entry))
       (relativePath_of fl)) = true ->
  exists ts t,
    discoverTemplates JSON_parse localeCompare fs startersPath options = (Ok ts, [])
    /\ In t ts
    /\ id t = entry_id entry
    /\ name t = Some (entry_name entry)
    /\ description t = Some (entry_description entry)
    /\ path t = path_join (path_join startersPath TEMPLATES_DIR) (entry_id entry)
    /\ order t = entry_order entry
    /\ category t = entry_category entry
    /\ aliases t = entry_aliases entry
    /\ hidden t = entry_hidden entry
    /\ deprecated t = entry_deprecated entry
    /\ In (flavor_id fl) (flavors t).
Proof.
  intros Hread Hentry Hbase Hfl Hdir.
  destruct (templatesFromManifest_loop_complete fs _ _ entry fl Hentry Hbase Hfl Hdir)
    as (t & Ht & Hprops).
  exists (sortTemplates localeCompare (templatesFromManifest fs startersPath manifest)), t.
  split; [unfold discoverTemplates; now rewrite Hread|].
  split; [|exact Hprops].
  apply (Permutation_in _ (Permutation_sym (sortTemplates_perm _ _))). exact Ht.
Qed.

End DiscoveryComplete.

Lemma discoverTemplates_lists_entries_witness :
  exists ts t,
    discoverTemplates manifest_fixture_json compare_strings manifest_fixture ["starters"]
      (mkDiscoveryOptions true) = (Ok ts, [])
    /\ In t ts /\ id t = "alpha" /\ In "py" (flavors t).
Proof.
  destruct (discoverTemplates_lists_entries manifest_fixture_json compare_strings
              manifest_fixture ["starters"] (mkDiscoveryOptions true)
              (mkManifest None
                 [mkEntry "alpha" "Alpha" "The first"
                    [mkFlavor "ts" None; mkFlavor "py" (Some "python"); mkFlavor "go" None]
                    None None None None None;
                  mkEntry "beta" "Beta" "The second" [mkFlavor "ts" None]
                    None None None None None])
              (mkEntry "alpha" "Alpha" "The first"
                 [mkFlavor "ts" None; mkFlavor "py" (Some "python"); mkFlavor "go" None]
                 None None None None None)
              (mkFlavor "py" (Some "python")))
    as (ts & t & Hrun & Hin & Hid & _ & _ & _ & _ & _ & _ & _ & _ & Hfl).
  - reflexivity.
  - left. reflexivity.
  - reflexivity.
  - right. left. reflexivity.
  - reflexivity.
  - exists ts, t. auto.
Defined.
